(** * Doc_assistant: retrieval, conversation and query-analysis core

    A shallow embedding of the Python services under [backend/app/services]
    and of the search endpoint under [backend/app/api], with the properties
    the specification states about them.

    Conventions of the embedding.
    - A Python [str] is a Rocq [string] holding its UTF-8 bytes; operations
      that count characters ([len], slicing, [strip]) work on code points.
    - A Python [float] score, weight or duration is an exact rational [Q];
      a Python [int] is a [Z].
    - [datetime.now()] is an explicit argument, in microseconds; a
      [timedelta] is a number of microseconds.
    - A [dict] used as a keyed store is a [gmap]; a [dict] whose iteration
      order matters is an association list in insertion order.
    - Calls into other services and libraries (embedding, vector index,
      document store, LLM provider, jieba, the regex engine on Unicode
      classes) are parameters, section variables or the fields of an
      environment record: every theorem holds whatever they return. *)

From Stdlib Require Import Ascii ZArith QArith Qabs Lia Lqa.
From stdpp Require Import base option list gmap strings pretty sorting.

Open Scope string_scope.
Open Scope list_scope.

(** ** Conversation store ([conversation_manager.py]) *)

Module Conversation.

Inductive ChatRole := USER | ASSISTANT | SYSTEM.

(** [ChatMessage] of [models/rag.py]. *)
Record ChatMessage := mkChatMessage {
  role : ChatRole;
  content : string;
  timestamp : Z;
  metadata : list (string * string)
}.

(** [ConversationHistory] of [models/rag.py]. *)
Record ConversationHistory := mkConversationHistory {
  conversation_id : string;
  messages : list ChatMessage;
  created_at : Z;
  updated_at : Z
}.

(** The fields of [RAGMetrics] that [update_metrics] reads or writes, with
    the defaults of the model class. *)
Record RAGMetrics := mkRAGMetrics {
  total_requests : Z;
  successful_requests : Z;
  failed_requests : Z;
  total_response_time : Q;
  average_response_time : Q
}.

Definition fresh_metrics : RAGMetrics :=
  mkRAGMetrics 0 0 0 0%Q 0%Q.

Record ConversationManager := mkConversationManager {
  conversations : gmap string ConversationHistory;
  max_conversations : Z;
  expire_hours : Z;
  metrics : RAGMetrics
}.

(** [ConversationManager.__init__] with its default arguments. *)
Definition init : ConversationManager :=
  mkConversationManager ∅ 1000 24 fresh_metrics.

Definition with_conversations (self : ConversationManager)
    (c : gmap string ConversationHistory) : ConversationManager :=
  mkConversationManager c (max_conversations self) (expire_hours self)
    (metrics self).

Definition with_metrics (self : ConversationManager) (m : RAGMetrics)
    : ConversationManager :=
  mkConversationManager (conversations self) (max_conversations self)
    (expire_hours self) m.

(** [create_conversation]: [uuid4] is the identifier [uuid.uuid4()] would
    produce; [if not conversation_id] is true for [None] and for the empty
    string. *)
Definition create_conversation (uuid4 : string) (now : Z)
    (conversation_id : option string) (self : ConversationManager)
    : string * ConversationManager :=
  let cid :=
    match conversation_id with
    | None => uuid4
    | Some s => if decide (s = "") then uuid4 else s
    end in
  match conversations self !! cid with
  | Some _ => (cid, self)
  | None =>
      (cid, with_conversations self
              (<[cid := mkConversationHistory cid [] now now]>
                 (conversations self)))
  end.

(** The per-conversation cap, the local [max_messages] of [add_message]. *)
Definition max_messages : nat := 100.

(** [l[-max_messages:]] for a list longer than [max_messages]. *)
Definition last_max_messages (l : list ChatMessage) : list ChatMessage :=
  drop (length l - max_messages) l.

(** [add_message]. [None] is the [KeyError] of
    [self.conversations[conversation_id]], which the empty identifier
    reaches: [create_conversation] then stores under a generated id. *)
Definition add_message (uuid4 : string) (now : Z) (cid : string)
    (r : ChatRole) (c : string) (meta : option (list (string * string)))
    (self : ConversationManager) : option (bool * ConversationManager) :=
  let self1 :=
    match conversations self !! cid with
    | Some _ => self
    | None => snd (create_conversation uuid4 now (Some cid) self)
    end in
  match conversations self1 !! cid with
  | None => None
  | Some conversation =>
      let message := mkChatMessage r c now (default [] meta) in
      let appended := messages conversation ++ [message] in
      let kept :=
        if decide (max_messages < length appended)
        then last_max_messages appended else appended in
      Some (true,
            with_conversations self1
              (<[cid :=
                   mkConversationHistory (conversation_id conversation) kept
                     (created_at conversation) now]>
                 (conversations self1)))
  end.

(** [get_recent_messages]: [messages[-limit:]], which is the whole list
    for [limit = 0]; nothing for an unknown conversation. *)
Definition get_recent_messages (cid : string) (limit : nat)
    (cm : ConversationManager) : list ChatMessage :=
  match conversations cm !! cid with
  | None => []
  | Some conversation =>
      match limit with
      | O => messages conversation
      | _ => drop (length (messages conversation) - limit)
               (messages conversation)
      end
  end.

(** [update_metrics]. The division is Python's true division of the float
    total by the integer count. *)
Definition update_metrics (response_time : Q) (success : bool)
    (self : ConversationManager) : ConversationManager :=
  let m := metrics self in
  let total := (total_requests m + 1)%Z in
  let time := (total_response_time m + response_time)%Q in
  let succeeded :=
    if success then (successful_requests m + 1)%Z
    else successful_requests m in
  let failed :=
    if success then failed_requests m else (failed_requests m + 1)%Z in
  let average :=
    if decide (0 < total)%Z then (time / inject_Z total)%Q
    else average_response_time m in
  with_metrics self (mkRAGMetrics total succeeded failed time average).

(** [reset_metrics]. *)
Definition reset_metrics (self : ConversationManager) : ConversationManager :=
  with_metrics self fresh_metrics.

(** The arguments of one [add_message] call on a given conversation,
    together with what the clock and [uuid4] return during it. *)
Record MessageInput := mkMessageInput {
  in_uuid4 : string;
  in_now : Z;
  in_role : ChatRole;
  in_content : string;
  in_metadata : option (list (string * string))
}.

(** The [ChatMessage] that [add_message] builds from its arguments. *)
Definition message_of (i : MessageInput) : ChatMessage :=
  mkChatMessage (in_role i) (in_content i) (in_now i)
    (default [] (in_metadata i)).

(** Successive [add_message] calls on one conversation. *)
Fixpoint add_messages (cid : string) (inputs : list MessageInput)
    (self : ConversationManager) : option ConversationManager :=
  match inputs with
  | [] => Some self
  | i :: rest =>
      match add_message (in_uuid4 i) (in_now i) cid (in_role i)
              (in_content i) (in_metadata i) self with
      | None => None
      | Some (_, self') => add_messages cid rest self'
      end
  end.

(** Successive [update_metrics] calls. *)
Definition update_metrics_all (calls : list (Q * bool))
    (self : ConversationManager) : ConversationManager :=
  foldl (fun s c => update_metrics (fst c) (snd c) s) self calls.

#[global] Instance ChatRole_eq_dec : EqDecision ChatRole.
Proof. solve_decision. Defined.

#[global] Instance ChatMessage_eq_dec : EqDecision ChatMessage.
Proof. solve_decision. Defined.

(** *** Properties of the message cap *)

Lemma last_max_messages_short (l : list ChatMessage) :
  (if decide (max_messages < length l) then last_max_messages l else l)
  = last_max_messages l.
Proof.
  unfold last_max_messages. case_decide as H; [done|].
  replace (length l - max_messages) with 0 by lia. done.
Qed.

Lemma last_max_messages_snoc (l : list ChatMessage) (m : ChatMessage) :
  last_max_messages (last_max_messages l ++ [m]) = last_max_messages (l ++ [m]).
Proof.
  unfold last_max_messages, max_messages.
  rewrite !length_app, length_drop. simpl.
  destruct (decide (length l <= 100)) as [Hle|Hgt].
  - replace (length l - 100) with 0 by lia. simpl.
    by rewrite Nat.sub_0_r.
  - replace (length l - (length l - 100) + 1 - 100) with 1 by lia.
    replace (length l + 1 - 100) with (S (length l - 100)) by lia.
    rewrite !drop_app_le by (rewrite ?length_drop; lia).
    rewrite drop_drop. do 2 f_equal. lia.
Qed.

Lemma add_message_existing (u : string) (now : Z) (cid : string)
    (r : ChatRole) (c : string) (meta : option (list (string * string)))
    (self : ConversationManager) (conv : ConversationHistory) :
  conversations self !! cid = Some conv →
  add_message u now cid r c meta self =
    Some (true,
          with_conversations self
            (<[cid := mkConversationHistory (conversation_id conv)
                        (last_max_messages
                           (messages conv
                              ++ [mkChatMessage r c now (default [] meta)]))
                        (created_at conv) now]> (conversations self))).
Proof.
  intros Hc. unfold add_message. rewrite Hc. simpl. rewrite Hc.
  by rewrite last_max_messages_short.
Qed.

Lemma add_message_fresh (u : string) (now : Z) (cid : string)
    (r : ChatRole) (c : string) (meta : option (list (string * string)))
    (self : ConversationManager) :
  cid ≠ "" → conversations self !! cid = None →
  add_message u now cid r c meta self =
    Some (true,
          with_conversations self
            (<[cid := mkConversationHistory cid
                        [mkChatMessage r c now (default [] meta)] now now]>
               (conversations self))).
Proof.
  intros Hne Hc. unfold add_message, create_conversation. rewrite Hc.
  rewrite decide_False by done. rewrite Hc. simpl.
  rewrite lookup_insert_eq. simpl. do 2 f_equal.
  unfold with_conversations. simpl. f_equal.
  by rewrite insert_insert_eq.
Qed.

Lemma add_messages_existing (cid : string) (inputs : list MessageInput) :
  ∀ (self : ConversationManager) (conv : ConversationHistory)
    (all : list ChatMessage),
    conversations self !! cid = Some conv →
    messages conv = last_max_messages all →
    ∃ self' conv',
      add_messages cid inputs self = Some self'
      ∧ conversations self' !! cid = Some conv'
      ∧ messages conv' = last_max_messages (all ++ (message_of <$> inputs)).
Proof.
  induction inputs as [|i rest IH]; intros self conv all Hc Hm.
  - exists self, conv. simpl. by rewrite app_nil_r.
  - simpl. erewrite add_message_existing by exact Hc.
    match goal with
    | |- context [add_messages cid rest
                    (with_conversations ?s (<[cid := ?c]> ?m))] =>
        destruct (IH (with_conversations s (<[cid := c]> m)) c
                    (all ++ [message_of i]))
          as (self' & conv' & Hrun & Hc' & Hm')
    end.
    + simpl. apply lookup_insert_eq.
    + simpl. rewrite Hm. apply last_max_messages_snoc.
    + exists self', conv'. split; [exact Hrun|]. split; [exact Hc'|].
      rewrite Hm'. by rewrite <- app_assoc.
Qed.

Lemma last_max_messages_last (l : list ChatMessage) :
  last (last_max_messages l) = last l.
Proof.
  unfold last_max_messages, max_messages.
  rewrite !last_lookup, lookup_drop, length_drop.
  destruct (decide (length l = 0)) as [H0|H0].
  - apply length_zero_iff_nil in H0. by subst.
  - f_equal. lia.
Qed.

Lemma last_max_messages_dropped (l : list ChatMessage) (m : ChatMessage) :
  NoDup l → m ∈ take (length l - max_messages) l → m ∉ last_max_messages l.
Proof.
  unfold last_max_messages. intros Hnd Hin.
  rewrite <- (take_drop (length l - max_messages) l) in Hnd at 1.
  apply NoDup_app in Hnd as (_ & Hdisj & _). by apply Hdisj.
Qed.

(** A session no message was added to: one that does not exist yet, which
    [add_message] creates, or one created and still empty. *)
Definition fresh_session (self : ConversationManager) (cid : string) : Prop :=
  (cid ≠ "" ∧ conversations self !! cid = None)
  ∨ (∃ conv, conversations self !! cid = Some conv ∧ messages conv = []).

(** C6. Adding messages one after another to a fresh session leaves the
    newest 100 of them, in order: the stored list is
    the input with its first [n - 100] messages dropped, so its last element
    is the last message added. After 105 messages the list has length 100,
    it is the input without messages 1 to 5, and message 105 is its last
    element. *)
Theorem add_message_keeps_newest_100 (cid : string)
    (self : ConversationManager) (inputs : list MessageInput) :
  fresh_session self cid → inputs ≠ [] →
  ∃ self' conv,
    add_messages cid inputs self = Some self'
    ∧ conversations self' !! cid = Some conv
    ∧ messages conv = drop (length inputs - 100) (message_of <$> inputs)
    ∧ length (messages conv) = min (length inputs) 100
    ∧ last (messages conv) = last (message_of <$> inputs)
    ∧ (100 < length inputs → length (messages conv) = 100)
    ∧ (NoDup (message_of <$> inputs) →
       ∀ m, m ∈ take (length inputs - 100) (message_of <$> inputs) →
            m ∉ messages conv)
    ∧ (length inputs = 105 →
       length (messages conv) = 100
       ∧ messages conv = drop 5 (message_of <$> inputs)
       ∧ last (messages conv) = (message_of <$> inputs) !! 104
       ∧ (NoDup (message_of <$> inputs) →
          ∀ m, m ∈ take 5 (message_of <$> inputs) → m ∉ messages conv)).
Proof.
  intros Hfresh Hinputs.
  assert (Hrun : ∃ self' conv,
            add_messages cid inputs self = Some self'
            ∧ conversations self' !! cid = Some conv
            ∧ messages conv = last_max_messages (message_of <$> inputs)).
  { destruct Hfresh as [[Hne Hnone]|(conv0 & Hc0 & Hm0)].
    - destruct inputs as [|i rest]; [done|].
      simpl add_messages. rewrite add_message_fresh by done.
      match goal with
      | |- context [add_messages cid rest
                      (with_conversations ?s (<[cid := ?c]> ?m))] =>
          destruct (add_messages_existing cid rest
                      (with_conversations s (<[cid := c]> m)) c
                      [message_of i])
            as (self' & conv & Hrun & Hc & Hm)
      end.
      { simpl. apply lookup_insert_eq. }
      { done. }
      by exists self', conv.
    - destruct (add_messages_existing cid inputs self conv0 [] Hc0 Hm0)
        as (self' & conv & Hrun & Hc & Hm).
      by exists self', conv. }
  destruct Hrun as (self' & conv & Hrun & Hc & Hm).
  exists self', conv.
  assert (Hlen : length (message_of <$> inputs) = length inputs)
    by apply length_fmap.
  assert (Hdrop : messages conv
                  = drop (length inputs - 100) (message_of <$> inputs)).
  { rewrite Hm. unfold last_max_messages, max_messages. by rewrite Hlen. }
  assert (Hsize : length (messages conv) = min (length inputs) 100).
  { rewrite Hdrop, length_drop, Hlen. lia. }
  assert (Hlast : last (messages conv) = last (message_of <$> inputs)).
  { rewrite Hm. apply last_max_messages_last. }
  assert (Hgone : NoDup (message_of <$> inputs) →
                  ∀ m, m ∈ take (length inputs - 100) (message_of <$> inputs) →
                       m ∉ messages conv).
  { intros Hnd m Hin. rewrite Hm. apply last_max_messages_dropped; [done|].
    unfold max_messages. by rewrite Hlen. }
  repeat split; try done.
  - lia.
  - lia.
  - rewrite Hdrop. by replace (length inputs - 100) with 5 by lia.
  - rewrite Hlast, last_lookup, Hlen. by replace (length inputs) with 105.
  - intros Hnd m Hin. apply Hgone; [done|].
    by replace (length inputs - 100) with 5 by lia.
Qed.

(** The scenario of the specification: conversation c1, 105 numbered
    messages added to the store as first constructed. *)
Definition scenario_inputs : list MessageInput :=
  (fun n : nat =>
     mkMessageInput "00000000-0000-4000-8000-000000000000" (Z.of_nat n)
       (if Nat.even n then ASSISTANT else USER) (pretty n) None)
  <$> seq 1 105.

Lemma add_message_keeps_newest_100_scenario :
  (fresh_session init "c1" ∧ scenario_inputs ≠ [])
  ∧ ∃ self' conv,
      add_messages "c1" scenario_inputs init = Some self'
      ∧ conversations self' !! "c1" = Some conv
      ∧ length (messages conv) = 100
      ∧ messages conv = drop 5 (message_of <$> scenario_inputs)
      ∧ last (messages conv) = (message_of <$> scenario_inputs) !! 104
      ∧ ∀ m, m ∈ take 5 (message_of <$> scenario_inputs) → m ∉ messages conv.
Proof.
  assert (H5 : NoDup (message_of <$> scenario_inputs)).
  { apply (bool_decide_unpack _). vm_compute. exact I. }
  assert (H1 : fresh_session init "c1").
  { left. split; [discriminate|reflexivity]. }
  assert (H3 : scenario_inputs ≠ []) by discriminate.
  assert (H4 : length scenario_inputs = 105).
  { unfold scenario_inputs. rewrite length_fmap. apply length_seq. }
  split; [split; assumption|].
  destruct (add_message_keeps_newest_100 "c1" init scenario_inputs H1 H3)
    as (self' & conv & Hrun & Hc & _ & _ & _ & _ & _ & H105).
  destruct (H105 H4) as (Hl & Hd & Hlast & Hgone).
  exists self', conv. repeat split; try assumption. exact (Hgone H5).
Defined.

(** *** Properties of the metrics *)

Lemma update_metrics_all_snoc (calls : list (Q * bool)) (c : Q * bool)
    (self : ConversationManager) :
  update_metrics_all (calls ++ [c]) self
  = update_metrics (fst c) (snd c) (update_metrics_all calls self).
Proof. unfold update_metrics_all. by rewrite foldl_app. Qed.

Lemma update_metrics_all_counts (calls : list (Q * bool))
    (self : ConversationManager) :
  let m0 := metrics self in
  let m := metrics (update_metrics_all calls self) in
  (total_requests m = total_requests m0 + Z.of_nat (length calls))%Z
  ∧ (successful_requests m + failed_requests m
     = successful_requests m0 + failed_requests m0
       + Z.of_nat (length calls))%Z.
Proof.
  induction calls as [|c calls IH] using rev_ind; simpl.
  - lia.
  - rewrite update_metrics_all_snoc, length_app. simpl in *.
    destruct IH as [IH1 IH2]. destruct (snd c); simpl; lia.
Qed.

(** C10. After every [update_metrics] call on metrics that started fresh,
    the request count is the sum of the success and failure counts, and the
    average response time is the total response time divided by the request
    count. *)
Theorem update_metrics_invariant (calls : list (Q * bool))
    (response_time : Q) (success : bool) :
  let self :=
    update_metrics response_time success (update_metrics_all calls init) in
  let m := metrics self in
  total_requests m = (successful_requests m + failed_requests m)%Z
  ∧ average_response_time m
    = (total_response_time m / inject_Z (total_requests m))%Q
  ∧ total_requests m = (Z.of_nat (length calls) + 1)%Z.
Proof.
  simpl.
  destruct (update_metrics_all_counts calls init) as [Ht Hs].
  simpl in Ht, Hs.
  set (m := metrics (update_metrics_all calls init)) in *.
  rewrite decide_True by lia.
  repeat split.
  - destruct success; lia.
  - lia.
Qed.

End Conversation.

(** ** Python strings and numbers *)

Module Py.

(** [sub in s] for two [str] values; on UTF-8 text a byte-level match is a
    character-level match. *)
Fixpoint contains (sub s : string) : bool :=
  if String.prefix sub s then true
  else match s with
       | EmptyString => false
       | String _ s' => contains sub s'
       end.

(** A UTF-8 continuation byte, [10xxxxxx]. *)
Definition is_continuation (c : Ascii.ascii) : bool :=
  let n := Ascii.nat_of_ascii c in ((128 <=? n) && (n <? 192))%nat.

(** [len(s)]: the number of code points. *)
Fixpoint len (s : string) : nat :=
  match s with
  | EmptyString => 0
  | String c s' => if is_continuation c then len s' else S (len s')
  end.

(** [s.count(sub)]: occurrences counted from the left without overlap;
    [skip] bytes of the last match are still to be passed. The empty string
    occurs before every character and at the end. *)
Fixpoint count_from (sub s : string) (skip : nat) : nat :=
  match s with
  | EmptyString => 0
  | String _ s' =>
      match skip with
      | S k => count_from sub s' k
      | O =>
          if String.prefix sub s
          then S (count_from sub s' (String.length sub - 1))
          else count_from sub s' 0
      end
  end.

Definition count (sub s : string) : nat :=
  match sub with
  | EmptyString => S (len s)
  | _ => count_from sub s 0
  end.

(** The characters of [s]: each a lead byte with its continuation bytes.
    [split_chars] returns the continuation bytes found before the first
    lead byte, and the characters after them. *)
Fixpoint split_chars (s : string) : string * list string :=
  match s with
  | EmptyString => (EmptyString, [])
  | String c s' =>
      let '(pending, cs) := split_chars s' in
      if is_continuation c then (String c pending, cs)
      else (EmptyString, String c pending :: cs)
  end.

Definition chars (s : string) : list string :=
  let '(pending, cs) := split_chars s in
  match pending with
  | EmptyString => cs
  | _ => pending :: cs
  end.

(** The code point of one character. *)
Definition lead_bits (c : Ascii.ascii) : N :=
  let n := Ascii.N_of_ascii c in
  if (n <? 128)%N then n
  else if (n <? 224)%N then N.land n 31
  else if (n <? 240)%N then N.land n 15
  else N.land n 7.

Fixpoint continue_bits (acc : N) (s : string) : N :=
  match s with
  | EmptyString => acc
  | String c s' =>
      continue_bits (acc * 64 + N.land (Ascii.N_of_ascii c) 63)%N s'
  end.

Definition code_point (ch : string) : N :=
  match ch with
  | EmptyString => 0%N
  | String c rest => continue_bits (lead_bits c) rest
  end.

(** The characters [str.strip()] removes: those for which [str.isspace]
    holds. *)
Definition isspace (ch : string) : bool :=
  let n := code_point ch in
  ((9 <=? n) && (n <=? 13) || (28 <=? n) && (n <=? 32)
   || (n =? 133) || (n =? 160) || (n =? 5760)
   || (8192 <=? n) && (n <=? 8202)
   || (n =? 8232) || (n =? 8233) || (n =? 8239) || (n =? 8287)
   || (n =? 12288))%N.

Fixpoint lstrip_chars (cs : list string) : list string :=
  match cs with
  | [] => []
  | c :: cs' => if isspace c then lstrip_chars cs' else cs
  end.

Definition join (cs : list string) : string :=
  foldr String.append EmptyString cs.

(** [s.strip()]. *)
Definition strip (s : string) : string :=
  join (reverse (lstrip_chars (reverse (lstrip_chars (chars s))))).

(** [s[:n]] for a non-negative [n]. *)
Definition str_slice_to (n : nat) (s : string) : string :=
  join (take n (chars s)).

(** [s[a:b]] for [0 <= a <= b]. *)
Definition str_slice (a b : nat) (s : string) : string :=
  join (take (b - a) (drop a (chars s))).

(** The position a slice bound stands for in a sequence of [n] items: a
    negative bound counts from the end, and every bound is clipped to the
    sequence. *)
Definition slice_index (i : Z) (n : nat) : nat :=
  if (i <? 0)%Z then Z.to_nat (Z.max 0 (Z.of_nat n + i))
  else Nat.min (Z.to_nat i) n.

(** [s[a:b]] for any integers [a] and [b]. *)
Definition str_slice_signed (a b : Z) (s : string) : string :=
  let cs := chars s in
  let first := slice_index a (length cs) in
  let stop := slice_index b (length cs) in
  join (take (stop - first) (drop first cs)).

(** [s.split()]: the maximal runs of characters that are not spaces.
    [split_from] returns the run that starts the list and the runs after
    it. *)
Fixpoint split_from (cs : list string) : string * list string :=
  match cs with
  | [] => (EmptyString, [])
  | c :: rest =>
      let '(word, words) := split_from rest in
      if isspace c
      then (EmptyString,
            match word with EmptyString => words | _ => word :: words end)
      else (String.append c word, words)
  end.

Definition split (s : string) : list string :=
  let '(word, words) := split_from (chars s) in
  match word with EmptyString => words | _ => word :: words end.

(** Whether the characters [sub] start the characters [cs]. *)
Fixpoint starts_with (sub cs : list string) : bool :=
  match sub, cs with
  | [], _ => true
  | _ :: _, [] => false
  | a :: sub', b :: cs' => String.eqb a b && starts_with sub' cs'
  end.

(** The positions [s.find(sub, start)] returns for [start = 0] and then
    one past each position found: every index, from [pos] on, at which
    [sub] occurs. *)
Fixpoint find_all (sub cs : list string) (pos : nat) : list nat :=
  (if starts_with sub cs then [pos] else [])
  ++ match cs with
     | [] => []
     | _ :: rest => find_all sub rest (S pos)
     end.

(** [l[:n]] for a list and any integer [n]: a negative [n] counts from the
    end. *)
Definition slice_to {A : Type} (n : Z) (l : list A) : list A :=
  if (0 <=? n)%Z then take (Z.to_nat n) l
  else take (length l - Z.to_nat (- n)) l.

(** [key in d] for an optional key of a dictionary. *)
Definition present {A : Type} (o : option A) : bool :=
  match o with Some _ => true | None => false end.

(** [min(a, b)] and [max(a, b)] on floats: the first argument wins a tie. *)
Definition min (a b : Q) : Q := if Qle_bool a b then a else b.
Definition max (a b : Q) : Q := if Qle_bool b a then a else b.

(** [a > b] on floats. *)
Definition gt (a b : Q) : bool := negb (Qle_bool a b).

End Py.

(** ** Query analyzer ([query_analyzer.py]) *)

Module QueryAnalyzer.

(** [QueryAnalysis] of [models/rag.py]. *)
Record QueryAnalysis := mkQueryAnalysis {
  original_query : string;
  intent : string;
  keywords : list string;
  entities : list string;
  query_type : string;
  complexity_score : Q;
  requires_context : bool;
  suggested_retrieval_count : Z
}.

(** The dictionary [json.loads] returns for the LLM's answer, by the keys
    [_merge_analysis] looks up. A key is absent ([None]) or present. The text
    fields are taken at the types the prompt asks for; for the two numeric
    fields the value kept is the outcome of the conversion [_merge_analysis]
    applies to it, [float(...)] or [int(...)], where [None] stands for the
    [ValueError] or [TypeError] the conversion raises. [llm_other_keys] says
    whether any further key (such as reasoning) is present. *)
Record LLMData := mkLLMData {
  llm_intent : option string;
  llm_keywords : option (list string);
  llm_entities : option (list string);
  llm_query_type : option string;
  llm_complexity_score : option (option Q);
  llm_requires_context : option bool;
  llm_suggested_retrieval_count : option (option Z);
  llm_other_keys : bool
}.

(** Truth value of the dictionary: false when it has no key at all. *)
Definition llm_data_nonempty (d : LLMData) : bool :=
  Py.present (llm_intent d) || Py.present (llm_keywords d)
  || Py.present (llm_entities d) || Py.present (llm_query_type d)
  || Py.present (llm_complexity_score d) || Py.present (llm_requires_context d)
  || Py.present (llm_suggested_retrieval_count d) || llm_other_keys d.

(** [self.intent_patterns], in the insertion order of the dictionary. The
    patterns are literals ([\?] is the question mark). *)
Definition intent_patterns : list (string * list string) :=
  [ ("question", ["什么是"; "如何"; "怎么"; "为什么"; "哪里"; "谁"; "何时"; "?"; "？"]);
    ("search", ["查找"; "搜索"; "找到"; "寻找"; "检索"]);
    ("summary", ["总结"; "概括"; "摘要"; "归纳"; "梳理"]);
    ("comparison", ["比较"; "对比"; "区别"; "差异"; "相同"; "不同"]);
    ("analysis", ["分析"; "评估"; "解释"; "说明"; "阐述"]);
    ("recommendation", ["建议"; "推荐"; "意见"; "方案"; "策略"]) ].

(** [re.search(pattern, query, re.IGNORECASE)] for a literal pattern
    without cased letters, as all of [intent_patterns] are. *)
Definition re_search (pattern query : string) : bool :=
  Py.contains pattern query.

(** The inner loop of the intent recognition: the first matching pattern
    assigns [intent] to [analysis.intent] and breaks. *)
Fixpoint match_patterns (patterns : list string) (query : string)
    (intent current : string) : string :=
  match patterns with
  | [] => current
  | pattern :: rest =>
      if re_search pattern query then intent
      else match_patterns rest query intent current
  end.

(** The outer loop: after the patterns of a category were tried, the loop
    breaks when [analysis.intent == intent]. [current] is [analysis.intent]. *)
Fixpoint recognise_intent (items : list (string * list string))
    (query : string) (current : string) : string :=
  match items with
  | [] => current
  | (intent, patterns) :: rest =>
      let current' := match_patterns patterns query intent current in
      if String.eqb current' intent then current'
      else recognise_intent rest query current'
  end.

(** [_assess_complexity]. *)
Definition complex_words : list string :=
  ["分析"; "比较"; "评估"; "解释"; "总结"; "归纳"; "对比"; "区别"].

Definition logical_words : list string :=
  ["并且"; "或者"; "但是"; "然而"; "因此"; "所以"; "如果"; "那么"].

Definition add_for_words (words : list string) (query : string) (step : Q)
    (complexity : Q) : Q :=
  foldl (fun acc word => if Py.contains word query then (acc + step)%Q else acc)
    complexity words.

Definition _assess_complexity (query : string) : Q :=
  let length_factor :=
    Py.min (inject_Z (Z.of_nat (Py.len query)) / 100)%Q (3 # 10)%Q in
  let complexity := (0 + length_factor)%Q in
  let question_marks := Py.count "?" query + Py.count "？" query in
  let complexity :=
    (complexity
     + Py.min (inject_Z (Z.of_nat question_marks) * (1 # 10)) (2 # 10))%Q in
  let complexity := add_for_words complex_words query (1 # 10)%Q complexity in
  let complexity := add_for_words logical_words query (15 # 100)%Q complexity in
  Py.min complexity 1%Q.

Definition stop_words : list string :=
  ["的"; "了"; "在"; "是"; "我"; "有"; "和"; "就"; "不"; "人"; "都"; "一"; "一个";
   "上"; "也"; "很"; "到"; "说"; "要"; "去"; "你"; "会"; "着"; "没有"; "看"; "好";
   "自己"; "这"].

(** [self.entity_patterns], flattened in iteration order. *)
Definition entity_patterns : list string :=
  ["[张李王刘陈杨黄赵周吴徐孙马朱胡郭何高林罗郑梁谢宋唐许韩冯邓曹彭曾肖田董袁潘于蒋蔡余杜叶程苏魏吕丁任沈姚卢姜崔钟谭陆汪范金石廖贾夏韦付方白邹孟熊秦邱江尹薛闫段雷侯龙史陶黎贺顾毛郝龚邵万钱严覃武戴莫孔向汤]\w*";
   "\w*公司"; "\w*企业"; "\w*机构"; "\w*组织"; "\w*部门";
   "\w*市"; "\w*省"; "\w*区"; "\w*县"; "\w*镇"; "\w*村";
   "\d{4}年"; "\d{1,2}月"; "\d{1,2}日"; "今天"; "昨天"; "明天"; "最近";
   "API"; "数据库"; "算法"; "系统"; "平台"; "框架"; "技术";
   "文档"; "报告"; "手册"; "论文"; "简历"; "合同"].

(** What the specification describes for the deterministic pass: the first
    category of the priority list with a pattern matching the query, and
    question when there is none. *)
Definition first_matching_intent (query : string) : string :=
  match
    filter (fun item => existsb (fun p => re_search p query) (snd item) = true)
      intent_patterns
  with
  | item :: _ => fst item
  | [] => "question"
  end.

Section Analyzer.

(** [re.findall(pattern, text)] of the regex engine. *)
Variable re_findall : string → string → list string.

(** [list(set(l))]: the elements of [l] without repetition, in the order
    the interpreter's string hashing gives. *)
Variable list_of_set : list string → list string.

(** [self.analysis_prompt.format(query=query)]. *)
Variable analysis_prompt : string → string.

(** [self.llm_factory.get_llm()], [llm.acomplete(prompt)] and
    [response.text]; [None] when any of them raises. *)
Variable acomplete : string → option string.

(** [json.loads]; [None] when it raises. *)
Variable json_loads : string → option LLMData.

(** [_extract_keywords_simple]. *)
Definition _extract_keywords_simple (query : string) : list string :=
  let words := re_findall "[\w]+" query in
  take 10
    (filter (fun word => 1 < Py.len word ∧ word ∉ stop_words) words).

(** [_basic_analysis]. *)
Definition _basic_analysis (query : string) : QueryAnalysis :=
  let intent := recognise_intent intent_patterns query "question" in
  let entities :=
    list_of_set (concat ((fun p => re_findall p query) <$> entity_patterns)) in
  let keywords := _extract_keywords_simple query in
  let complexity := _assess_complexity query in
  let count :=
    if Py.gt complexity (8 # 10) then 8%Z
    else if Py.gt complexity (6 # 10) then 6%Z
    else if Py.gt complexity (4 # 10) then 4%Z
    else 3%Z in
  mkQueryAnalysis query intent keywords entities "factual" complexity true
    count.

(** [_default_analysis]. *)
Definition _default_analysis (query : string) : QueryAnalysis :=
  mkQueryAnalysis query "question" (_extract_keywords_simple query) []
    "factual" (1 # 2) true 5.

(** The match of [re.search(r'\{.*\}', text, re.DOTALL)]: from the first
    opening brace to the last closing brace after it. *)
Fixpoint from_first_brace (text : string) : option string :=
  match text with
  | EmptyString => None
  | String c rest =>
      if Ascii.eqb c "{"%char then Some text else from_first_brace rest
  end.

Fixpoint upto_last_brace (text : string) : option string :=
  match text with
  | EmptyString => None
  | String c rest =>
      match upto_last_brace rest with
      | Some t => Some (String c t)
      | None => if Ascii.eqb c "}"%char then Some (String c EmptyString) else None
      end
  end.

Definition json_match (text : string) : option string :=
  from_first_brace text ≫= upto_last_brace.

(** [_parse_llm_response]: [None] when nothing matches or [json.loads]
    raises (caught and logged). *)
Definition _parse_llm_response (response_text : string) : option LLMData :=
  json_match response_text ≫= json_loads.

(** [_llm_analysis]: every exception gives [None]. *)
Definition _llm_analysis (query : string) : option LLMData :=
  acomplete (analysis_prompt query) ≫= _parse_llm_response.

Definition set_intent (a : QueryAnalysis) (v : string) : QueryAnalysis :=
  mkQueryAnalysis (original_query a) v (keywords a) (entities a)
    (query_type a) (complexity_score a) (requires_context a)
    (suggested_retrieval_count a).

Definition set_keywords (a : QueryAnalysis) (v : list string) : QueryAnalysis :=
  mkQueryAnalysis (original_query a) (intent a) v (entities a)
    (query_type a) (complexity_score a) (requires_context a)
    (suggested_retrieval_count a).

Definition set_entities (a : QueryAnalysis) (v : list string) : QueryAnalysis :=
  mkQueryAnalysis (original_query a) (intent a) (keywords a) v
    (query_type a) (complexity_score a) (requires_context a)
    (suggested_retrieval_count a).

Definition set_query_type (a : QueryAnalysis) (v : string) : QueryAnalysis :=
  mkQueryAnalysis (original_query a) (intent a) (keywords a) (entities a)
    v (complexity_score a) (requires_context a)
    (suggested_retrieval_count a).

Definition set_complexity_score (a : QueryAnalysis) (v : Q) : QueryAnalysis :=
  mkQueryAnalysis (original_query a) (intent a) (keywords a) (entities a)
    (query_type a) v (requires_context a) (suggested_retrieval_count a).

Definition set_requires_context (a : QueryAnalysis) (v : bool)
    : QueryAnalysis :=
  mkQueryAnalysis (original_query a) (intent a) (keywords a) (entities a)
    (query_type a) (complexity_score a) v (suggested_retrieval_count a).

Definition set_suggested_retrieval_count (a : QueryAnalysis) (v : Z)
    : QueryAnalysis :=
  mkQueryAnalysis (original_query a) (intent a) (keywords a) (entities a)
    (query_type a) (complexity_score a) (requires_context a) v.

(** [_merge_analysis]; [None] when [float(...)] or [int(...)] raises. *)
Definition _merge_analysis (basic : QueryAnalysis)
    (llm_data : option LLMData) : option QueryAnalysis :=
  match llm_data with
  | None => Some basic
  | Some d =>
      if negb (llm_data_nonempty d) then Some basic
      else
        let basic :=
          match llm_intent d with
          | Some v => set_intent basic v
          | None => basic
          end in
        let basic :=
          match llm_keywords d with
          | Some (k :: ks) =>
              set_keywords basic
                (take 10 (list_of_set (keywords basic ++ k :: ks)))
          | _ => basic
          end in
        let basic :=
          match llm_entities d with
          | Some (e :: es) =>
              set_entities basic
                (take 10 (list_of_set (entities basic ++ e :: es)))
          | _ => basic
          end in
        let basic :=
          match llm_query_type d with
          | Some v => set_query_type basic v
          | None => basic
          end in
        basic ←
          match llm_complexity_score d with
          | None => Some basic
          | Some None => None
          | Some (Some v) =>
              Some (set_complexity_score basic
                      ((complexity_score basic + v) / 2)%Q)
          end;
        let basic :=
          match llm_requires_context d with
          | Some v => set_requires_context basic v
          | None => basic
          end in
        match llm_suggested_retrieval_count d with
        | None => Some basic
        | Some None => None
        | Some (Some v) =>
            Some (set_suggested_retrieval_count basic
                    (Z.max (suggested_retrieval_count basic) v))
        end
  end.

(** [analyze_query]: an exception raised in the [try] block gives the
    default analysis. *)
Definition analyze_query (query : string) : QueryAnalysis :=
  let basic_analysis := _basic_analysis query in
  let llm_analysis := _llm_analysis query in
  match _merge_analysis basic_analysis llm_analysis with
  | Some final_analysis => final_analysis
  | None => _default_analysis query
  end.

(** *** The merge of the two passes *)







(** *** The intent of the deterministic pass *)

Lemma match_patterns_same (patterns : list string) (query intent : string) :
  match_patterns patterns query intent intent = intent.
Proof.
  induction patterns as [|p ps IH]; simpl; [done|].
  by destruct (re_search p query).
Qed.

(** C5 (what the code does). The outer loop of the intent recognition stops
    after the first category, question, because [analysis.intent] starts as
    question: whatever the query, the deterministic pass assigns question.
    For a query that matches the summary pattern 总结 and no earlier
    category, the first matching category is summary, and the pass still
    assigns question. *)
Theorem _basic_analysis_intent_is_question :
  (∀ query, intent (_basic_analysis query) = "question")
  ∧ first_matching_intent "请总结这份报告" = "summary"
  ∧ intent (_basic_analysis "请总结这份报告") = "question".
Proof.
  assert (H : ∀ query, intent (_basic_analysis query) = "question").
  { intros query. unfold _basic_analysis, intent_patterns.
    cbn [intent recognise_intent]. by rewrite match_patterns_same. }
  split; [exact H|]. split; [|apply H].
  vm_compute. reflexivity.
Qed.

End Analyzer.

(** A concrete environment: an LLM whose answer wraps a JSON object in
    prose, and a [json.loads] that reads that object. *)
Definition example_data : LLMData :=
  mkLLMData (Some "comparison") (Some ["报告"; "比较"]) None (Some "analytical")
    (Some (Some (9 # 10)%Q)) None (Some (Some 7%Z)) true.

Definition example_loads (js : string) : option LLMData :=
  if String.eqb js "{enhanced}" then Some example_data else None.

Definition example_answer (prompt : string) : option string :=
  Some "Here is the analysis: {enhanced} Done.".

Definition example_query : string := "如何比较两份报告？".





(** [LLMFactory] of [core/llm_factory.py] declares no [get_llm]: with it the
    LLM call of [_llm_analysis] always raises, and [analyze_query] returns
    the deterministic analysis for every query. *)
Lemma analyze_query_without_get_llm
    (re_findall : string → string → list string)
    (list_of_set : list string → list string)
    (analysis_prompt : string → string)
    (json_loads : string → option LLMData) (query : string) :
  analyze_query re_findall list_of_set analysis_prompt (fun _ => None)
    json_loads query
  = _basic_analysis re_findall list_of_set query.
Proof. reflexivity. Qed.

(** The deterministic pass and the merged analysis of the example. *)
Example analyze_query_example :
  let run := analyze_query (fun _ _ => []) (fun l => l) (fun q => q)
               example_answer example_loads in
  Qeq (complexity_score
         (_basic_analysis (fun _ _ => []) (fun l => l) example_query))
    (29 # 100)
  ∧ Qeq (complexity_score (run example_query)) (119 # 200)
  ∧ suggested_retrieval_count (run example_query) = 7%Z
  ∧ intent (run example_query) = "comparison".
Proof. vm_compute. repeat split. Qed.

End QueryAnalyzer.

(** ** Retrieval service ([retrieval_service.py]) *)

Module Retrieval.

(** The [metadata] dictionary of a search result, by the keys the service
    writes or reads. *)
Record Metadata := mkMetadata {
  md_chunk_id : option string;
  md_document_id : option string;
  md_filename : option string;
  md_document_type : option string;
  md_matched_keywords : option (list string)
}.

(** The stored document, by the attributes the service reads. *)
Record Document := mkDocument {
  id : string;
  filename : string;
  content : option string;
  document_type : string;
  file_size : Z;
  created_at : Z;
  updated_at : Z;
  tags : list string;
  author : option string;
  title : option string
}.

(** A search-result dictionary. Every key is optional, as the service reads
    them with [.get]; [document_metadata] holds the document the entry of
    that name is built from. *)
Record SearchResult := mkSearchResult {
  text : option string;
  metadata : option Metadata;
  similarity_score : option Q;
  distance : option Q;
  search_type : option string;
  chunk_id : option string;
  document_id : option string;
  snippet_start : option Z;
  snippet_end : option Z;
  final_score : option Q;
  semantic_score : option Q;
  keyword_score : option Q;
  document_metadata : option Document;
  highlight_text : option string;
  matched_keywords : option (list string)
}.

(** [result.get('similarity_score', 0)], [result.get('text', '')] and
    [result.get('document_id', 'unknown')]. *)
Definition get_similarity_score (r : SearchResult) : Q :=
  default 0%Q (similarity_score r).

Definition get_text (r : SearchResult) : string :=
  default "" (text r).

Definition get_document_id (r : SearchResult) : string :=
  default "unknown" (document_id r).

(** The sort key of [hybrid_search]:
    [x.get('final_score', x.get('similarity_score', 0))]. *)
Definition sort_key (r : SearchResult) : Q :=
  default (get_similarity_score r) (final_score r).

(** Assignments to keys of a result, used by [_merge_search_results]. *)
Definition set_final_score (r : SearchResult) (v : Q) : SearchResult :=
  mkSearchResult (text r) (metadata r) (similarity_score r) (distance r)
    (search_type r) (chunk_id r) (document_id r) (snippet_start r)
    (snippet_end r) (Some v) (semantic_score r) (keyword_score r)
    (document_metadata r) (highlight_text r) (matched_keywords r).

Definition set_hybrid (r : SearchResult) (final semantic keyword : Q)
    : SearchResult :=
  mkSearchResult (text r) (metadata r) (similarity_score r) (distance r)
    (Some "hybrid") (chunk_id r) (document_id r) (snippet_start r)
    (snippet_end r) (Some final) (Some semantic) (Some keyword)
    (document_metadata r) (highlight_text r) (matched_keywords r).

Definition has_search_type (ty : string) (r : SearchResult) : bool :=
  match search_type r with
  | Some t => String.eqb t ty
  | None => false
  end.

(** [grouped_results[key].append(result)] on a [defaultdict(list)], kept as
    an association list in insertion order of the keys. *)
Fixpoint group_append (key : string) (r : SearchResult)
    (groups : list (string * list SearchResult))
    : list (string * list SearchResult) :=
  match groups with
  | [] => [(key, [r])]
  | (k, g) :: rest =>
      if String.eqb k key then (k, g ++ [r]) :: rest
      else (k, g) :: group_append key r rest
  end.

(** What one group contributes to [merged_results]. [None] is the
    [TypeError] of assigning into [base_result] when a group of several
    results contains neither a semantic nor a keyword result. *)
Definition merge_group (keyword_weight semantic_weight : Q)
    (group : list SearchResult) : option SearchResult :=
  match group with
  | [] => None
  | [result] => Some (set_final_score result (get_similarity_score result))
  | _ =>
      let semantic_result := find (has_search_type "semantic") group in
      let keyword_result := find (has_search_type "keyword") group in
      let base_result :=
        match semantic_result with
        | Some r => Some r
        | None => keyword_result
        end in
      let semantic_score :=
        from_option get_similarity_score 0%Q semantic_result in
      let keyword_score :=
        from_option get_similarity_score 0%Q keyword_result in
      let final_score :=
        (semantic_score * semantic_weight + keyword_score * keyword_weight)%Q in
      match base_result with
      | Some r => Some (set_hybrid r final_score semantic_score keyword_score)
      | None => None
      end
  end.

Section Merge.

(** [hash] of a string, which the interpreter salts per process. *)
Variable hash : string → Z.

(** The grouping key of [_merge_search_results]. *)
Definition group_key (r : SearchResult) : string :=
  get_document_id r +:+ "_" +:+ pretty (hash (get_text r)).

Definition group_results (results : list SearchResult)
    : list (string * list SearchResult) :=
  foldl (fun groups r => group_append (group_key r) r groups) [] results.

(** [_merge_search_results]. *)
Definition _merge_search_results (results : list SearchResult)
    (keyword_weight semantic_weight : Q) : option (list SearchResult) :=
  mapM (merge_group keyword_weight semantic_weight)
    (snd <$> group_results results).

End Merge.

(** The identifier [_deduplicate_results] compares: [text[:100].strip()]. *)
Definition text_key (r : SearchResult) : string :=
  Py.strip (Py.str_slice_to 100 (get_text r)).

(** The loop of [_deduplicate_results], with the set [seen_texts]. *)
Fixpoint deduplicate_from (seen_texts : gset string)
    (results : list SearchResult) : list SearchResult :=
  match results with
  | [] => []
  | result :: rest =>
      if decide (text_key result ∈ seen_texts)
      then deduplicate_from seen_texts rest
      else result :: deduplicate_from ({[text_key result]} ∪ seen_texts) rest
  end.

Definition _deduplicate_results (results : list SearchResult)
    : list SearchResult :=
  deduplicate_from ∅ results.

(** The threshold filter of [hybrid_search]. *)
Definition filter_threshold (similarity_threshold : Q)
    (results : list SearchResult) : list SearchResult :=
  filter
    (fun r => Qle_bool similarity_threshold (get_similarity_score r) = true)
    results.

(** [sorted(results, key=..., reverse=True)]: a stable sort into descending
    order of the key, so an element goes before the elements of equal key
    that followed it. *)
Fixpoint insert_descending {A : Type} (key : A → Q) (x : A) (l : list A)
    : list A :=
  match l with
  | [] => [x]
  | y :: l' =>
      if Qle_bool (key y) (key x) then x :: l
      else y :: insert_descending key x l'
  end.

Definition sorted_descending {A : Type} (key : A → Q) (l : list A) : list A :=
  foldr (insert_descending key) [] l.

(** The steps of [hybrid_search] between the two passes and the metadata:
    merge (when both passes ran), threshold filter, deduplication, sort and
    cut. [None] when the merge raises. *)
Definition rank_results (hash : string → Z)
    (enable_semantic_search enable_keyword_search deduplicate : bool)
    (keyword_weight semantic_weight similarity_threshold : Q) (n_results : Z)
    (results : list SearchResult) : option (list SearchResult) :=
  results ←
    (if enable_semantic_search && enable_keyword_search
     then _merge_search_results hash results keyword_weight semantic_weight
     else Some results);
  let results := filter_threshold similarity_threshold results in
  let results :=
    if deduplicate then _deduplicate_results results else results in
  let results := sorted_descending sort_key results in
  Some (Py.slice_to n_results results).

(** The [search_strategy] entry of a response. *)
Record SearchStrategy := mkSearchStrategy {
  semantic_enabled : bool;
  keyword_enabled : bool;
  strategy_similarity_threshold : Q;
  candidate_documents : Z
}.

(** The dictionary [hybrid_search] returns. *)
Record Response := mkResponse {
  success : bool;
  query : string;
  results : list SearchResult;
  total_results : Z;
  search_time : Z;
  search_strategy : option SearchStrategy;
  message : option string;
  error : option string
}.

(** An entry of [self.query_cache]. *)
Record CacheItem := mkCacheItem {
  result : Response;
  timestamp : Z
}.

(** An entry of [self.search_history]. *)
Record HistoryItem := mkHistoryItem {
  history_query : string;
  history_timestamp : Z
}.

(** The state of a [RetrievalService]: [cache_ttl] is in seconds. *)
Record RetrievalService := mkRetrievalService {
  search_history : list HistoryItem;
  query_cache : gmap string CacheItem;
  cache_ttl : Z
}.

(** [RetrievalService.__init__]. *)
Definition init : RetrievalService := mkRetrievalService [] ∅ 300.

Definition with_query_cache (self : RetrievalService)
    (c : gmap string CacheItem) : RetrievalService :=
  mkRetrievalService (search_history self) c (cache_ttl self).

(** [timedelta(seconds=n)] in microseconds. *)
Definition timedelta_seconds (n : Z) : Z := (n * 1000000)%Z.

(** [_record_search_history]. *)
Definition _record_search_history (q : string) (now : Z)
    (self : RetrievalService) : RetrievalService :=
  let history := search_history self ++ [mkHistoryItem q now] in
  let history :=
    if decide (1000 < length history)
    then drop (length history - 500) history else history in
  mkRetrievalService history (query_cache self) (cache_ttl self).

(** [_get_cached_result]: the cached response when the entry is younger
    than the time to live; an older entry is deleted. *)
Definition _get_cached_result (cache_key : string) (now : Z)
    (self : RetrievalService) : option Response * RetrievalService :=
  match query_cache self !! cache_key with
  | Some cached_item =>
      if decide (now - timestamp cached_item
                 < timedelta_seconds (cache_ttl self))%Z
      then (Some (result cached_item), self)
      else (None, with_query_cache self (delete cache_key (query_cache self)))
  | None => (None, self)
  end.

(** An entry that the clean-up of [_cache_result] deletes at [now]. *)
Definition expired (ttl now : Z) (item : CacheItem) : Prop :=
  (now - timestamp item > timedelta_seconds ttl)%Z.

#[global] Instance expired_dec ttl now item : Decision (expired ttl now item).
Proof. unfold expired. apply _. Defined.

(** [_cache_result]: [now] is the clock at the insertion and
    [current_time] the clock read for the clean-up. *)
Definition _cache_result (cache_key : string) (r : Response)
    (now current_time : Z) (self : RetrievalService) : RetrievalService :=
  let cache := <[cache_key := mkCacheItem r now]> (query_cache self) in
  let cache :=
    if decide (100 < size cache)
    then filter (fun kv => ¬ expired (cache_ttl self) current_time kv.2) cache
    else cache in
  with_query_cache self cache.

(** [clear_cache]. *)
Definition clear_cache (self : RetrievalService) : RetrievalService :=
  with_query_cache self ∅.

(** [_empty_search_result]. *)
Definition _empty_search_result (q : string) (start_time now : Z) : Response :=
  mkResponse true q [] 0 (now - start_time) None
    (Some "没有找到匹配的文档") None.

(** What a call leaves in the outside world, in order. *)
Inductive Event :=
  | HistoryRecorded (q : string)
  | CacheLookup (cache_key : string)
  | CandidateFetch
  | EmbeddingCall (q : string)
  | VectorQuery (n_results : Z)
  | KeywordScan (n_documents : nat)
  | CacheStore (cache_key : string).

(** The dictionary [vector_storage.search_similar_chunks] returns. *)
Record SimilarChunks := mkSimilarChunks {
  chunks : list string;
  chunks_metadata : list Metadata;
  distances : list Q
}.

(** A snippet of [_find_matching_snippets]. *)
Record Snippet := mkSnippet {
  snippet_text : string;
  snippet_from : Z;
  snippet_to : Z;
  snippet_keywords : list string
}.

(** The arguments of [hybrid_search]. *)
Record SearchArgs := mkSearchArgs {
  arg_query : string;
  n_results : Z;
  similarity_threshold : Q;
  document_ids : option (list string);
  document_types : option (list string);
  date_range : option (Z * Z);
  arg_tags : option (list string);
  enable_keyword_search : bool;
  enable_semantic_search : bool;
  keyword_weight : Q;
  semantic_weight : Q;
  include_metadata : bool;
  deduplicate : bool
}.

(** The successive values of [datetime.now()] during one [hybrid_search]. *)
Record Clock := mkClock {
  start_time : Z;
  history_time : Z;
  lookup_time : Z;
  end_time : Z;
  store_time : Z;
  cleanup_time : Z
}.

(** The services and library functions [hybrid_search] calls.
    - [str_hash]: [hash] of a string, salted per process.
    - [generate_cache_key]: [_generate_cache_key(query, n_results,
      similarity_threshold, document_ids, document_types)], the MD5 digest
      of the printed tuple.
    - [get_candidate_documents]: [_get_candidate_documents], which reads
      the document store and returns the empty list when the store raises.
    - [generate_embedding]: [embedding_service.generate_embedding]; [None]
      when it raises or returns nothing.
    - [search_similar_chunks]: [vector_storage.search_similar_chunks];
      [None] when it raises.
    - [jieba_cut]: [list(jieba.cut(query))], or [None] when importing
      jieba fails.
    - [highlight_keywords_in_text]: [_highlight_keywords_in_text], built on
      the regex engine.
    - [str_lower]: [str.lower].
    - [list_of_set]: [list(set(l))], in the order the string hashing
      gives. *)
Record Environment := mkEnvironment {
  str_hash : string → Z;
  generate_cache_key :
    string → Z → Q → option (list string) → option (list string) → string;
  get_candidate_documents :
    option (list string) → option (list string) → option (Z * Z)
    → option (list string) → list Document;
  generate_embedding : string → option (list Q);
  search_similar_chunks : list Q → Z → list string → option SimilarChunks;
  jieba_cut : option (string → list string);
  highlight_keywords_in_text : string → list string → string;
  str_lower : string → string;
  list_of_set : list string → list string
}.

(** The stop words of [_extract_keywords]. *)
Definition stop_words : list string :=
  ["的"; "了"; "在"; "是"; "我"; "有"; "和"; "就"; "不"; "人"; "都"; "一"; "一个";
   "上"; "也"; "很"; "到"; "说"; "要"; "去"; "你"; "会"; "着"; "没有"; "看"; "好";
   "自己"; "这"].

Section Service.

Variable env : Environment.

(** The loop of [_semantic_search] over [range(len(chunks))]; [None] is the
    [IndexError] of a shorter metadata or distance list. *)
Fixpoint format_chunks (i : nat) (cs : list string) (ms : list Metadata)
    (ds : list Q) : option (list SearchResult) :=
  match cs with
  | [] => Some []
  | c :: cs' =>
      match ms, ds with
      | m :: ms', d :: ds' =>
          rest ← format_chunks (S i) cs' ms' ds';
          Some (mkSearchResult (Some c) (Some m) (Some (1 - d)%Q) (Some d)
                  (Some "semantic")
                  (Some (default ("chunk_" +:+ pretty i) (md_chunk_id m)))
                  (Some (default "unknown" (md_document_id m)))
                  None None None None None None None None
                :: rest)
      | _, _ => None
      end
  end.

(** [_semantic_search]: any exception gives the empty list. *)
Definition _semantic_search (q : string) (n : Z) (doc_ids : list string)
    : list SearchResult * list Event :=
  match generate_embedding env q with
  | None => ([], [EmbeddingCall q])
  | Some query_embedding =>
      match search_similar_chunks env query_embedding n doc_ids with
      | None => ([], [EmbeddingCall q; VectorQuery n])
      | Some found =>
          (default []
             (format_chunks 0 (chunks found) (chunks_metadata found)
                (distances found)),
           [EmbeddingCall q; VectorQuery n])
      end
  end.

(** [_extract_keywords]. *)
Definition _extract_keywords (q : string) : list string :=
  match jieba_cut env with
  | None =>
      filter (fun word => 1 < Py.len word) (Py.strip <$> Py.split q)
  | Some cut =>
      filter (fun word => 1 < Py.len word ∧ word ∉ stop_words)
        (Py.strip <$> cut q)
  end.

(** The loop of [_calculate_keyword_score]; [None] is the
    [ZeroDivisionError] of a content without words. *)
Fixpoint add_keyword_scores (text_content content_lower : string)
    (keywords : list string) (total_score : Q) : option Q :=
  match keywords with
  | [] => Some total_score
  | keyword :: rest =>
      let n := Py.count (str_lower env keyword) content_lower in
      match n with
      | O => add_keyword_scores text_content content_lower rest total_score
      | _ =>
          match length (Py.split text_content) with
          | O => None
          | words =>
              let tf :=
                (inject_Z (Z.of_nat n) / inject_Z (Z.of_nat words))%Q in
              let score :=
                (tf * (1 + inject_Z (Z.of_nat (Py.len keyword)) / 10))%Q in
              add_keyword_scores text_content content_lower rest
                (total_score + score)%Q
          end
      end
  end.

(** [_calculate_keyword_score]. *)
Definition _calculate_keyword_score (text_content : string)
    (keywords : list string) : option Q :=
  match text_content, keywords with
  | EmptyString, _ | _, [] => Some 0%Q
  | _, _ =>
      total_score ←
        add_keyword_scores text_content (str_lower env text_content)
          keywords 0%Q;
      Some (Py.min total_score 1)
  end.

(** The search of [_find_matching_snippets] through the snippets found so
    far: the first one that starts less than half a snippet length away
    takes the keyword; [None] when there is none. *)
Fixpoint merge_keyword (half : Z) (snippet_start : Z) (keyword : string)
    (snippets : list Snippet) : option (list Snippet) :=
  match snippets with
  | [] => None
  | existing :: rest =>
      if (Z.abs (snippet_from existing - snippet_start) <? half)%Z
      then Some (mkSnippet (snippet_text existing) (snippet_from existing)
                   (snippet_to existing)
                   (list_of_set env (snippet_keywords existing ++ [keyword]))
                 :: rest)
      else cons existing <$> merge_keyword half snippet_start keyword rest
  end.

(** One turn of the [while] loop of [_find_matching_snippets], for the
    occurrence of [keyword] at [pos]. *)
Definition add_snippet (text_content : string) (snippet_length : Z)
    (keyword : string) (snippets : list Snippet) (pos : nat)
    : list Snippet :=
  let half := (snippet_length / 2)%Z in
  let snippet_start := Z.max 0 (Z.of_nat pos - half) in
  let snippet_end :=
    Z.min (Z.of_nat (Py.len text_content))
      (Z.of_nat pos + Z.of_nat (Py.len keyword) + half) in
  let snippet_text :=
    Py.str_slice_signed snippet_start snippet_end text_content in
  match merge_keyword half snippet_start keyword snippets with
  | Some merged => merged
  | None =>
      snippets ++ [mkSnippet snippet_text snippet_start snippet_end [keyword]]
  end.

(** [_find_matching_snippets]. *)
Definition _find_matching_snippets (text_content : string)
    (keywords : list string) (snippet_length : Z) : list Snippet :=
  let content_lower := Py.chars (str_lower env text_content) in
  let snippets :=
    foldl
      (fun snippets keyword =>
         foldl (add_snippet text_content snippet_length keyword) snippets
           (Py.find_all (Py.chars (str_lower env keyword)) content_lower 0))
      [] keywords in
  sorted_descending
    (fun x => inject_Z (Z.of_nat (length (snippet_keywords x)))) snippets.

(** The results [_keyword_search] builds for one document; [None] when the
    score computation raises. *)
Definition keyword_results_of (keywords : list string) (doc : Document)
    : option (list SearchResult) :=
  match content doc with
  | None => Some []
  | Some text_content =>
      if decide (text_content = "") then Some []
      else
        keyword_score ← _calculate_keyword_score text_content keywords;
        if Py.gt keyword_score 0 then
          Some
            ((fun snippet =>
                mkSearchResult (Some (snippet_text snippet))
                  (Some (mkMetadata None (Some (id doc))
                           (Some (filename doc)) (Some (document_type doc))
                           (Some (snippet_keywords snippet))))
                  (Some keyword_score) None (Some "keyword") None
                  (Some (id doc)) (Some (snippet_from snippet))
                  (Some (snippet_to snippet)) None None None None None None)
             <$> take 3 (_find_matching_snippets text_content keywords 200))
        else Some []
  end.

(** [_keyword_search]: any exception gives the empty list. *)
Definition _keyword_search (q : string) (n : Z) (documents : list Document)
    : list SearchResult * list Event :=
  let keywords := _extract_keywords q in
  match keywords with
  | [] => ([], [])
  | _ =>
      match mapM (keyword_results_of keywords) documents with
      | None => ([], [KeywordScan (length documents)])
      | Some found =>
          (Py.slice_to n
             (sorted_descending get_similarity_score (concat found)),
           [KeywordScan (length documents)])
      end
  end.

(** [doc_dict[doc_id]] for [doc_dict = {doc.id: doc for doc in documents}]:
    the last document with that id. *)
Definition lookup_document (documents : list Document) (doc_id : string)
    : option Document :=
  last (filter (fun doc => id doc = doc_id) documents).

(** [_enhance_results_metadata], for one result. *)
Definition enhance_result (documents : list Document) (r : SearchResult)
    : SearchResult :=
  match document_id r with
  | Some doc_id =>
      if decide (doc_id = "") then r
      else
        match lookup_document documents doc_id with
        | Some doc =>
            mkSearchResult (text r) (metadata r) (similarity_score r)
              (distance r) (search_type r) (chunk_id r) (document_id r)
              (snippet_start r) (snippet_end r) (final_score r)
              (semantic_score r) (keyword_score r) (Some doc)
              (highlight_text r) (matched_keywords r)
        | None => r
        end
  | None => r
  end.

Definition _enhance_results_metadata (rs : list SearchResult)
    (documents : list Document) : list SearchResult :=
  enhance_result documents <$> rs.

(** [_add_text_highlighting], for one result and a non-empty keyword
    list. *)
Definition highlight_result (keywords : list string) (r : SearchResult)
    : SearchResult :=
  let t := get_text r in
  if decide (t = "") then r
  else
    let matched :=
      if has_search_type "keyword" r
      then match matched_keywords r with
           | Some ks => Some ks
           | None =>
               Some (filter
                       (fun kw => Py.contains (str_lower env kw) (str_lower env t) = true)
                       keywords)
           end
      else matched_keywords r in
    mkSearchResult (text r) (metadata r) (similarity_score r) (distance r)
      (search_type r) (chunk_id r) (document_id r) (snippet_start r)
      (snippet_end r) (final_score r) (semantic_score r) (keyword_score r)
      (document_metadata r)
      (Some (highlight_keywords_in_text env t keywords)) matched.

Definition _add_text_highlighting (rs : list SearchResult) (q : string)
    : list SearchResult :=
  match _extract_keywords q with
  | [] => rs
  | keywords => highlight_result keywords <$> rs
  end.

(** The cache key of a call. *)
Definition cache_key_of (a : SearchArgs) : string :=
  generate_cache_key env (arg_query a) (n_results a) (similarity_threshold a)
    (document_ids a) (document_types a).

(** [hybrid_search]: the response, the new state of the service and the
    events of the call. *)
Definition hybrid_search (a : SearchArgs) (clock : Clock)
    (self : RetrievalService)
    : Response * RetrievalService * list Event :=
  let self := _record_search_history (arg_query a) (history_time clock) self in
  let cache_key := cache_key_of a in
  let '(cached_result, self) :=
    _get_cached_result cache_key (lookup_time clock) self in
  let events := [HistoryRecorded (arg_query a); CacheLookup cache_key] in
  match cached_result with
  | Some response => (response, self, events)
  | None =>
      let candidate_documents :=
        get_candidate_documents env (document_ids a) (document_types a)
          (date_range a) (arg_tags a) in
      let events := events ++ [CandidateFetch] in
      match candidate_documents with
      | [] =>
          (_empty_search_result (arg_query a) (start_time clock)
             (end_time clock), self, events)
      | _ =>
          let candidate_doc_ids := id <$> candidate_documents in
          let '(semantic_results, semantic_events) :=
            if enable_semantic_search a
            then _semantic_search (arg_query a) (n_results a * 2)
                   candidate_doc_ids
            else ([], []) in
          let '(keyword_results, keyword_events) :=
            if enable_keyword_search a
            then _keyword_search (arg_query a) (n_results a * 2)
                   candidate_documents
            else ([], []) in
          let events := events ++ semantic_events ++ keyword_events in
          match rank_results (str_hash env) (enable_semantic_search a)
                  (enable_keyword_search a) (deduplicate a)
                  (keyword_weight a) (semantic_weight a)
                  (similarity_threshold a) (n_results a)
                  (semantic_results ++ keyword_results) with
          | None =>
              (mkResponse false (arg_query a) [] 0
                 (end_time clock - start_time clock) None None
                 (Some "'NoneType' object does not support item assignment"),
               self, events)
          | Some ranked =>
              let rs :=
                if include_metadata a
                then _enhance_results_metadata ranked candidate_documents
                else ranked in
              let rs := _add_text_highlighting rs (arg_query a) in
              let response :=
                mkResponse true (arg_query a) rs (Z.of_nat (length rs))
                  (end_time clock - start_time clock)
                  (Some (mkSearchStrategy (enable_semantic_search a)
                           (enable_keyword_search a) (similarity_threshold a)
                           (Z.of_nat (length candidate_documents))))
                  None None in
              (response,
               _cache_result cache_key response (store_time clock)
                 (cleanup_time clock) self,
               events ++ [CacheStore cache_key])
          end
      end
  end.

(** **** The search endpoint ([api/retrieval.py]) *)

(** [SearchMode] of [models/retrieval.py]. *)
Inductive SearchMode := SEMANTIC | KEYWORD | HYBRID.

(** [AdvancedSearchRequest], by the fields [advanced_search] reads. Dates
    are microseconds since [datetime.min]. *)
Record AdvancedSearchRequest := mkAdvancedSearchRequest {
  request_query : string;
  search_mode : SearchMode;
  request_n_results : Z;
  request_similarity_threshold : Q;
  request_keyword_weight : Q;
  request_semantic_weight : Q;
  request_document_ids : option (list string);
  request_document_types : option (list string);
  request_tags : option (list string);
  date_from : option Z;
  date_to : option Z;
  request_include_metadata : bool;
  request_deduplicate : bool
}.

Inductive HTTPException := mkHTTPException (status_code : Z) (detail : string).

Definition datetime_min : Z := 0.
Definition datetime_max : Z := 315537897599999999.

(** [request.search_mode in [SearchMode.KEYWORD, SearchMode.HYBRID]] and
    [request.search_mode in [SearchMode.SEMANTIC, SearchMode.HYBRID]]. *)
Definition keyword_mode (m : SearchMode) : bool :=
  match m with KEYWORD | HYBRID => true | SEMANTIC => false end.

Definition semantic_mode (m : SearchMode) : bool :=
  match m with SEMANTIC | HYBRID => true | KEYWORD => false end.

(** The arguments [advanced_search] passes to [hybrid_search]. *)
Definition search_args (request : AdvancedSearchRequest) : SearchArgs :=
  let date_range :=
    match date_from request, date_to request with
    | None, None => None
    | from, to =>
        Some (default datetime_min from, default datetime_max to)
    end in
  mkSearchArgs (request_query request) (request_n_results request)
    (request_similarity_threshold request) (request_document_ids request)
    (request_document_types request) date_range (request_tags request)
    (keyword_mode (search_mode request))
    (semantic_mode (search_mode request))
    (request_keyword_weight request) (request_semantic_weight request)
    (request_include_metadata request) (request_deduplicate request).

(** The fields [SearchResult] of [models/retrieval.py] requires; building
    the [AdvancedSearchResponse] raises without them. *)
Definition valid_result (r : SearchResult) : bool :=
  Py.present (text r) && Py.present (similarity_score r)
  && Py.present (document_id r) && Py.present (search_type r).

(** [advanced_search]: the response or the [HTTPException] raised, then
    the state of the retrieval service and the events of the call. *)
Definition advanced_search (request : AdvancedSearchRequest) (clock : Clock)
    (self : RetrievalService)
    : (HTTPException + Response) * RetrievalService * list Event :=
  if match search_mode request with HYBRID => true | _ => false end
     && Py.gt (Qabs (request_keyword_weight request
                     + request_semantic_weight request - 1))
          (1 # 100)
  then
    (inl (mkHTTPException 400
            "混合搜索模式下，关键词权重和语义权重之和必须等于1.0"),
     self, [])
  else
    let '(search_result, self, events) :=
      hybrid_search (search_args request) clock self in
    if negb (success search_result)
    then (inl (mkHTTPException 500 (default "搜索失败" (error search_result))),
          self, events)
    else if forallb valid_result (results search_result)
    then (inr (mkResponse true (request_query request)
                 (results search_result) (total_results search_result)
                 (search_time search_result) (search_strategy search_result)
                 None None),
          self, events)
    else (inl (mkHTTPException 500 "搜索失败: validation error"), self, events).

End Service.

(** *** The query cache *)

(** C8 (what the code does). A lookup returns an entry only while it is
    younger than [cache_ttl], 300 seconds, and deletes it otherwise. An
    insertion that leaves more than 100 entries deletes the entries older
    than [cache_ttl] at that moment, whatever their number, and no other
    entry: the entries that are not expired all stay, so the cache can hold
    more than 100 entries. *)
Theorem query_cache_expiry (cache_key : string) (r : Response)
    (now current_time : Z) (self : RetrievalService) :
  cache_ttl init = 300%Z
  ∧ (let '(hit, self') := _get_cached_result cache_key now self in
     (∀ resp, hit = Some resp ↔
              ∃ item, query_cache self !! cache_key = Some item
                      ∧ result item = resp
                      ∧ (now - timestamp item
                         < timedelta_seconds (cache_ttl self))%Z)
     ∧ (hit = None →
        query_cache self' = delete cache_key (query_cache self))
     ∧ (hit ≠ None → self' = self))
  ∧ (let inserted := <[cache_key := mkCacheItem r now]> (query_cache self) in
     let self' := _cache_result cache_key r now current_time self in
     cache_ttl self' = cache_ttl self
     ∧ ((size inserted ≤ 100)%nat → query_cache self' = inserted)
     ∧ (100 < size inserted →
        ∀ k item,
          query_cache self' !! k = Some item ↔
          inserted !! k = Some item
          ∧ (current_time - timestamp item
             ≤ timedelta_seconds (cache_ttl self))%Z)).
Proof.
  split; [reflexivity|]. split.
  - unfold _get_cached_result.
    destruct (query_cache self !! cache_key) as [item|] eqn:Hlook.
    + case_decide as Hage.
      * split; [|split; [done|done]].
        intros resp. split.
        -- intros [= <-]. by exists item.
        -- intros (item' & [= <-] & <- & _). done.
      * split; [|split; [done|done]].
        intros resp. split; [done|].
        intros (item' & [= <-] & _ & Hlt). done.
    + split; [|split; [|done]].
      * intros resp. split; [done|]. by intros (item' & [=] & _).
      * intros _. symmetry. by apply delete_id.
  - cbv zeta. unfold _cache_result. cbn [cache_ttl with_query_cache query_cache].
    split; [done|]. split.
    + intros Hsize. by rewrite decide_False by lia.
    + intros Hsize k item. rewrite decide_True by done.
      rewrite map_lookup_filter_Some. unfold expired. cbn [snd].
      split; intros [H1 H2]; (split; [done|lia]).
Qed.

(** Insertions of [n] entries under distinct keys, the entry of key [i]
    at clock [i] (microseconds), into a new service. *)
Definition fill (n : nat) : RetrievalService :=
  foldl
    (fun self i =>
       _cache_result (pretty i) (_empty_search_result (pretty i) 0 0)
         (Z.of_nat i) (Z.of_nat i) self)
    init (seq 0 n).

(** After 101 insertions within the time to live the cache holds 101
    entries, the oldest among them: nothing was evicted to get back to 100. *)
Lemma query_cache_exceeds_capacity :
  size (query_cache (fill 101)) = 101
  ∧ ¬ (size (query_cache (fill 101)) ≤ 100)%nat
  ∧ is_Some (query_cache (fill 101) !! "0").
Proof.
  assert (H : size (query_cache (fill 101)) = 101) by (vm_compute; reflexivity).
  split; [exact H|]. split; [rewrite H; lia|].
  apply (bool_decide_unpack _). vm_compute. exact I.
Qed.

(** *** Deduplication *)

Lemma deduplicate_from_keys (results : list SearchResult) :
  ∀ seen : gset string,
    Forall (fun r => text_key r ∉ seen) (deduplicate_from seen results)
    ∧ NoDup (text_key <$> deduplicate_from seen results).
Proof.
  induction results as [|r rest IH]; intros seen; simpl.
  - split; constructor.
  - case_decide as Hseen; [apply IH|].
    destruct (IH ({[text_key r]} ∪ seen)) as [Hout Hnd].
    split.
    + constructor; [done|].
      eapply Forall_impl; [exact Hout|]. cbv beta. intros r' Hr' Hs.
      apply Hr'. apply elem_of_union. by right.
    + rewrite fmap_cons. constructor; [|done].
      rewrite list_elem_of_fmap. intros (r' & Hk & Hin).
      rewrite Forall_forall in Hout. apply (Hout r' Hin).
      apply elem_of_union. left. by apply elem_of_singleton.
Qed.

Lemma deduplicate_from_fixed (results : list SearchResult) :
  ∀ seen : gset string,
    Forall (fun r => text_key r ∉ seen) results →
    NoDup (text_key <$> results) →
    deduplicate_from seen results = results.
Proof.
  induction results as [|r rest IH]; intros seen Hout Hnd; simpl; [done|].
  apply Forall_cons in Hout as [Hr Hrest].
  rewrite fmap_cons in Hnd. apply NoDup_cons in Hnd as [Hnotin Hnd].
  rewrite decide_False by done. f_equal. apply IH; [|done].
  rewrite Forall_forall in Hrest |- *. intros r' Hin.
  specialize (Hrest r' Hin).
  intros [Hs|Hs]%elem_of_union; [|done].
  apply elem_of_singleton in Hs. apply Hnotin.
  rewrite list_elem_of_fmap. by exists r'.
Qed.

Lemma deduplicate_from_sublist (results : list SearchResult) :
  ∀ seen : gset string, deduplicate_from seen results `sublist_of` results.
Proof.
  induction results as [|r rest IH]; intros seen; simpl; [done|].
  case_decide.
  - apply sublist_cons. apply IH.
  - apply sublist_skip. apply IH.
Qed.

Lemma deduplicate_from_covers (results : list SearchResult) :
  ∀ (seen : gset string) (r : SearchResult),
    r ∈ results →
    text_key r ∈ seen
    ∨ ∃ r', r' ∈ deduplicate_from seen results ∧ text_key r' = text_key r.
Proof.
  induction results as [|r0 rest IH]; intros seen r Hin; simpl.
  - by apply elem_of_nil in Hin.
  - apply elem_of_cons in Hin as [->|Hin].
    + case_decide; [by left|]. right. exists r0. split; [left|done].
    + case_decide as Hseen.
      * apply IH. done.
      * destruct (IH ({[text_key r0]} ∪ seen) r Hin) as [Hs|(r' & Hr' & Hk)].
        -- apply elem_of_union in Hs as [Hs|Hs]; [|by left].
           apply elem_of_singleton in Hs. right. exists r0.
           split; [left|done].
        -- right. exists r'. split; [by right|done].
Qed.

(** C9. Deduplication is idempotent: deduplicating a deduplicated list
    changes nothing. The deduplicated list is a sublist of the input in
    which no two results share the key [text[:100].strip()], and it keeps a
    result for every key of the input. *)
Theorem _deduplicate_results_idempotent (results : list SearchResult) :
  _deduplicate_results (_deduplicate_results results)
  = _deduplicate_results results
  ∧ NoDup (text_key <$> _deduplicate_results results)
  ∧ _deduplicate_results results `sublist_of` results
  ∧ (∀ r, r ∈ results →
          ∃ r', r' ∈ _deduplicate_results results
                ∧ text_key r' = text_key r).
Proof.
  unfold _deduplicate_results.
  destruct (deduplicate_from_keys results ∅) as [Hout Hnd].
  repeat split.
  - by apply deduplicate_from_fixed.
  - done.
  - apply deduplicate_from_sublist.
  - intros r Hin.
    destruct (deduplicate_from_covers results ∅ r Hin) as [Hs|H]; [|done].
    by apply not_elem_of_empty in Hs.
Qed.

(** *** Fusion of the two passes *)


Section MergeProperties.

Variable hash : string → Z.











End MergeProperties.

(** *** Ranking *)

(** Descending order of a key. *)
Definition descending {A : Type} (key : A → Q) : relation A :=
  fun a b => (key b <= key a)%Q.

Lemma insert_descending_perm {A : Type} (key : A → Q) (x : A) (l : list A) :
  insert_descending key x l ≡ₚ x :: l.
Proof.
  induction l as [|y l IH]; simpl; [done|].
  destruct (Qle_bool (key y) (key x)); [done|].
  rewrite IH. apply Permutation_swap.
Qed.

Lemma insert_descending_sorted {A : Type} (key : A → Q) (x : A)
    (l : list A) :
  StronglySorted (descending key) l →
  StronglySorted (descending key) (insert_descending key x l).
Proof.
  induction l as [|y l IH]; simpl; intros Hs.
  - repeat constructor.
  - apply StronglySorted_inv in Hs as [Hs Hy].
    destruct (Qle_bool (key y) (key x)) eqn:Hle.
    + apply Qle_bool_iff in Hle. constructor.
      * by constructor.
      * constructor; [exact Hle|].
        eapply Forall_impl; [exact Hy|]. unfold descending. simpl.
        intros z Hz. by apply Qle_trans with (key y).
    + constructor; [by apply IH|].
      rewrite (insert_descending_perm key x l). constructor; [|done].
      unfold descending. apply Qlt_le_weak, Qnot_le_lt.
      rewrite <- Qle_bool_iff. by rewrite Hle.
Qed.

Lemma sorted_descending_perm {A : Type} (key : A → Q) (l : list A) :
  sorted_descending key l ≡ₚ l.
Proof.
  induction l as [|x l IH]; simpl; [done|].
  by rewrite insert_descending_perm, IH.
Qed.

Lemma sorted_descending_sorted {A : Type} (key : A → Q) (l : list A) :
  StronglySorted (descending key) (sorted_descending key l).
Proof.
  induction l as [|x l IH]; simpl; [constructor|].
  by apply insert_descending_sorted.
Qed.

Lemma slice_to_take {A : Type} (n : Z) (l : list A) :
  ∃ k, Py.slice_to n l = take k l
       ∧ ((0 ≤ n)%Z → k = Z.to_nat n).
Proof.
  unfold Py.slice_to. destruct (0 <=? n)%Z eqn:Hn.
  - by exists (Z.to_nat n).
  - exists (length l - Z.to_nat (- n)). split; [done|]. lia.
Qed.

(** What the amended ranking property says of a result list: no result
    below the threshold in similarity score, descending order of the sort
    key, and at most [n] results for a non-negative [n]. *)
Definition well_ranked (n : Z) (threshold : Q) (rs : list SearchResult)
    : Prop :=
  Forall (fun r => (threshold <= get_similarity_score r)%Q) rs
  ∧ StronglySorted (descending sort_key) rs
  ∧ ((0 ≤ n)%Z → (Z.of_nat (length rs) ≤ n)%Z).

Lemma well_ranked_nil (n : Z) (threshold : Q) : well_ranked n threshold [].
Proof. repeat split; [constructor|constructor|simpl; lia]. Qed.

Lemma well_ranked_fmap (f : SearchResult → SearchResult) (n : Z)
    (threshold : Q) (rs : list SearchResult) :
  (∀ r, similarity_score (f r) = similarity_score r
        ∧ final_score (f r) = final_score r) →
  well_ranked n threshold rs → well_ranked n threshold (f <$> rs).
Proof.
  intros Hf (Hth & Hs & Hlen).
  assert (Hsim : ∀ r, get_similarity_score (f r) = get_similarity_score r).
  { intros r. unfold get_similarity_score. by destruct (Hf r) as [-> _]. }
  assert (Hkey : ∀ r, sort_key (f r) = sort_key r).
  { intros r. unfold sort_key. rewrite Hsim. by destruct (Hf r) as [_ ->]. }
  repeat split.
  - apply Forall_fmap. eapply Forall_impl; [exact Hth|].
    intros r Hr. simpl. by rewrite Hsim.
  - eapply StronglySorted_fmap; [|exact Hs].
    intros x y. unfold descending. by rewrite !Hkey.
  - by rewrite length_fmap.
Qed.

Lemma filter_threshold_above (threshold : Q) (rs : list SearchResult) :
  Forall (fun r => (threshold <= get_similarity_score r)%Q)
    (filter_threshold threshold rs).
Proof.
  apply Forall_forall. intros r [Hr _]%list_elem_of_filter.
  by apply Qle_bool_iff.
Qed.

Lemma rank_results_well_ranked (hash : string → Z)
    (semantic keyword dedup : bool) (keyword_weight semantic_weight : Q)
    (threshold : Q) (n : Z) (rs ranked : list SearchResult) :
  rank_results hash semantic keyword dedup keyword_weight semantic_weight
    threshold n rs = Some ranked →
  well_ranked n threshold ranked.
Proof.
  unfold rank_results. intros Hrank.
  destruct (if semantic && keyword
            then _merge_search_results hash rs keyword_weight semantic_weight
            else Some rs) as [merged|]; [|done].
  simpl in Hrank. injection Hrank as <-.
  set (kept := if dedup
               then _deduplicate_results (filter_threshold threshold merged)
               else filter_threshold threshold merged).
  assert (Hkept : Forall (fun r => (threshold <= get_similarity_score r)%Q)
                    kept).
  { pose proof (filter_threshold_above threshold merged) as Hf.
    unfold kept. destruct dedup; [|done].
    apply Forall_forall. intros r Hin. rewrite Forall_forall in Hf.
    apply Hf. eapply elem_of_sublist; [exact Hin|].
    apply deduplicate_from_sublist. }
  destruct (slice_to_take n (sorted_descending sort_key kept))
    as (k & -> & Hk).
  repeat split.
  - apply Forall_take. by rewrite sorted_descending_perm.
  - eapply StronglySorted_app_1_l.
    rewrite (take_drop k (sorted_descending sort_key kept)).
    apply sorted_descending_sorted.
  - intros Hn. rewrite length_take, (Hk Hn). lia.
Qed.

Section ServiceProperties.

Variable env : Environment.

Lemma enhance_result_scores (documents : list Document) (r : SearchResult) :
  similarity_score (enhance_result documents r) = similarity_score r
  ∧ final_score (enhance_result documents r) = final_score r.
Proof.
  unfold enhance_result. destruct (document_id r) as [doc_id|]; [|done].
  case_decide; [done|]. by destruct (lookup_document documents doc_id).
Qed.

Lemma highlight_result_scores (keywords : list string) (r : SearchResult) :
  similarity_score (highlight_result env keywords r) = similarity_score r
  ∧ final_score (highlight_result env keywords r) = final_score r.
Proof. unfold highlight_result. by case_decide. Qed.

Lemma _add_text_highlighting_well_ranked (n : Z) (threshold : Q)
    (rs : list SearchResult) (q : string) :
  well_ranked n threshold rs →
  well_ranked n threshold (_add_text_highlighting env rs q).
Proof.
  intros H. unfold _add_text_highlighting.
  destruct (_extract_keywords env q) as [|kw kws]; [done|].
  apply well_ranked_fmap; [|done]. apply highlight_result_scores.
Qed.

(** Every cached response is a successful one whose results are ranked for
    some arguments that have the key it is stored under. *)
Definition cache_ranked (self : RetrievalService) : Prop :=
  ∀ k item,
    query_cache self !! k = Some item →
    success (result item) = true
    ∧ ∃ a, cache_key_of env a = k
           ∧ well_ranked (n_results a) (similarity_threshold a)
               (results (result item)).

(** The lookup of [hybrid_search] finds an entry younger than the time to
    live. *)
Definition cache_hit (a : SearchArgs) (clock : Clock)
    (self : RetrievalService) : Prop :=
  ∃ item, query_cache self !! cache_key_of env a = Some item
          ∧ (lookup_time clock - timestamp item
             < timedelta_seconds (cache_ttl self))%Z.

Lemma cache_ranked_init : cache_ranked init.
Proof.
  intros k item Hk.
  change (query_cache init) with (∅ : gmap string CacheItem) in Hk.
  by rewrite lookup_empty in Hk.
Qed.

Lemma cache_ranked_clear (self : RetrievalService) :
  cache_ranked (clear_cache self).
Proof.
  intros k item Hk.
  change (query_cache (clear_cache self))
    with (∅ : gmap string CacheItem) in Hk.
  by rewrite lookup_empty in Hk.
Qed.

Lemma cache_ranked_lookup (k : string) (now : Z) (self : RetrievalService) :
  cache_ranked self → cache_ranked (_get_cached_result k now self).2.
Proof.
  intros Hinv. unfold _get_cached_result.
  destruct (query_cache self !! k) as [item|]; [|done].
  case_decide; [done|]. intros k' item' Hk'.
  cbn [snd with_query_cache query_cache] in Hk'.
  apply lookup_delete_Some in Hk' as [_ Hk']. by apply Hinv.
Qed.

Lemma cache_ranked_store (a : SearchArgs) (r : Response)
    (now current_time : Z) (self : RetrievalService) :
  success r = true →
  well_ranked (n_results a) (similarity_threshold a) (results r) →
  cache_ranked self →
  cache_ranked (_cache_result (cache_key_of env a) r now current_time self).
Proof.
  intros Hsucc Hr Hinv k item Hk. unfold _cache_result in Hk.
  cbn [with_query_cache query_cache] in Hk.
  assert (Hins : <[cache_key_of env a := mkCacheItem r now]>
                   (query_cache self) !! k = Some item).
  { case_decide; [|done]. by apply map_lookup_filter_Some in Hk as [Hk _]. }
  apply lookup_insert_Some in Hins as [[<- <-]|[_ Hold]].
  - split; [done|]. by exists a.
  - by apply Hinv.
Qed.

(** C1 (what the code does). Starting from a cache that holds ranked
    responses, as the empty cache does, [hybrid_search] leaves such a cache,
    and a successful response is ranked: every result has a similarity
    score of at least the threshold (the filter reads the similarity score,
    not the final score), the results are in descending order of the final
    score, or of the similarity score where there is none, and there are at
    most [n_results] of them. A response taken from the cache is ranked for
    the arguments it was computed for, which have the same cache key; it is
    ranked for the arguments of the call when the key determines
    [n_results] and the threshold. *)
Theorem hybrid_search_well_ranked (a : SearchArgs) (clock : Clock)
    (self : RetrievalService) :
  cache_ranked self →
  let '(response, self', _) := hybrid_search env a clock self in
  cache_ranked self'
  ∧ (success response = true →
     (∃ a', cache_key_of env a' = cache_key_of env a
            ∧ well_ranked (n_results a') (similarity_threshold a')
                (results response))
     ∧ (¬ cache_hit a clock self →
        well_ranked (n_results a) (similarity_threshold a)
          (results response))
     ∧ ((∀ a', cache_key_of env a' = cache_key_of env a →
               n_results a' = n_results a
               ∧ similarity_threshold a' = similarity_threshold a) →
        well_ranked (n_results a) (similarity_threshold a)
          (results response))).
Proof.
  intros Hinv. unfold hybrid_search.
  set (self1 := _record_search_history (arg_query a) (history_time clock) self).
  assert (Hinv1 : cache_ranked self1) by exact Hinv.
  pose proof (cache_ranked_lookup (cache_key_of env a) (lookup_time clock)
                self1 Hinv1) as Hinv2.
  assert (Hhit : ∀ resp,
            (_get_cached_result (cache_key_of env a) (lookup_time clock)
               self1).1 = Some resp →
            cache_hit a clock self
            ∧ success resp = true
            ∧ ∃ a', cache_key_of env a' = cache_key_of env a
                    ∧ well_ranked (n_results a') (similarity_threshold a')
                        (results resp)).
  { intros resp. unfold _get_cached_result.
    change (query_cache self1) with (query_cache self).
    change (cache_ttl self1) with (cache_ttl self).
    destruct (query_cache self !! cache_key_of env a) as [item|] eqn:Hlook;
      [|done].
    case_decide as Hage; [|done]. simpl. intros [= <-].
    split; [by exists item|]. by apply Hinv. }
  destruct (_get_cached_result (cache_key_of env a) (lookup_time clock) self1)
    as [[resp|] self2]; simpl in Hinv2, Hhit.
  { destruct (Hhit resp eq_refl) as (Hh & Hs & a' & Hk & Hr).
    split; [done|]. intros _. split; [by exists a'|]. split; [done|].
    intros Hinj. destruct (Hinj a' Hk) as [<- <-]. done. }
  clear Hhit.
  assert (Hall : ∀ rs, well_ranked (n_results a) (similarity_threshold a) rs →
            (∃ a', cache_key_of env a' = cache_key_of env a
                   ∧ well_ranked (n_results a') (similarity_threshold a') rs)
            ∧ (¬ cache_hit a clock self →
               well_ranked (n_results a) (similarity_threshold a) rs)
            ∧ ((∀ a', cache_key_of env a' = cache_key_of env a →
                      n_results a' = n_results a
                      ∧ similarity_threshold a' = similarity_threshold a) →
               well_ranked (n_results a) (similarity_threshold a) rs)).
  { intros rs Hrs. split; [by exists a|]. by split. }
  destruct (get_candidate_documents env (document_ids a) (document_types a)
              (date_range a) (arg_tags a)) as [|doc docs] eqn:Hdocs.
  { split; [done|]. intros _. apply Hall, well_ranked_nil. }
  set (documents := doc :: docs) in *.
  destruct (if enable_semantic_search a
            then _semantic_search env (arg_query a) (n_results a * 2)
                   (id <$> documents)
            else ([], [])) as [semantic_results semantic_events].
  destruct (if enable_keyword_search a
            then _keyword_search env (arg_query a) (n_results a * 2) documents
            else ([], [])) as [keyword_results keyword_events].
  destruct (rank_results (str_hash env) (enable_semantic_search a)
              (enable_keyword_search a) (deduplicate a) (keyword_weight a)
              (semantic_weight a) (similarity_threshold a) (n_results a)
              (semantic_results ++ keyword_results)) as [ranked|] eqn:Hrank.
  2: { split; [done|]. simpl. done. }
  apply rank_results_well_ranked in Hrank.
  set (rs := _add_text_highlighting env
               (if include_metadata a
                then _enhance_results_metadata ranked documents else ranked)
               (arg_query a)).
  assert (Hrs : well_ranked (n_results a) (similarity_threshold a) rs).
  { apply _add_text_highlighting_well_ranked.
    destruct (include_metadata a); [|done].
    apply well_ranked_fmap; [|done]. apply enhance_result_scores. }
  split.
  - by apply cache_ranked_store.
  - intros _. by apply Hall.
Qed.







(** C2. A request with both the semantic and the keyword pass enabled
    (search mode hybrid) whose weights are off by more than 0.01 from a sum
    of 1.0 is answered with the HTTP error 400 before [hybrid_search] is
    called: the retrieval service is left as it was and no event happened,
    neither cache lookup, nor candidate fetch, nor embedding call. *)
Theorem advanced_search_rejects_bad_weights (request : AdvancedSearchRequest)
    (clock : Clock) (self : RetrievalService) :
  keyword_mode (search_mode request) = true →
  semantic_mode (search_mode request) = true →
  (1 # 100
   < Qabs (request_keyword_weight request + request_semantic_weight request
           - 1))%Q →
  ∃ detail,
    advanced_search env request clock self
    = (inl (mkHTTPException 400 detail), self, []).
Proof.
  intros Hk Hs Hw. unfold advanced_search.
  destruct (search_mode request); try discriminate.
  assert (Hgt : Py.gt
                  (Qabs (request_keyword_weight request
                         + request_semantic_weight request - 1))
                  (1 # 100) = true).
  { unfold Py.gt. apply negb_true_iff.
    destruct (Qle_bool _ _) eqn:Hle; [|done].
    apply Qle_bool_iff in Hle. by apply Qle_not_lt in Hle. }
  rewrite Hgt. simpl. by eexists.
Qed.

(** A request that passes the weight check reaches [hybrid_search], which
    first records the query and looks the cache up. *)
Lemma advanced_search_accepted (request : AdvancedSearchRequest)
    (clock : Clock) (self : RetrievalService) :
  (Qabs (request_keyword_weight request + request_semantic_weight request
         - 1) <= 1 # 100)%Q
  ∨ search_mode request ≠ HYBRID →
  ∃ events,
    (advanced_search env request clock self).2
    = HistoryRecorded (request_query request)
      :: CacheLookup (cache_key_of env (search_args request)) :: events.
Proof.
  intros Hok. unfold advanced_search.
  assert (Hcheck :
            (match search_mode request with HYBRID => true | _ => false end
             && Py.gt
                  (Qabs (request_keyword_weight request
                         + request_semantic_weight request - 1))
                  (1 # 100)) = false).
  { destruct Hok as [Hle|Hmode].
    - apply Qle_bool_iff in Hle. unfold Py.gt. rewrite Hle.
      apply andb_false_r.
    - by destruct (search_mode request). }
  rewrite Hcheck.
  assert (Hev : ∃ events,
            (hybrid_search env (search_args request) clock self).2
            = HistoryRecorded (request_query request)
              :: CacheLookup (cache_key_of env (search_args request))
              :: events).
  { unfold hybrid_search.
    destruct (_get_cached_result _ _ _) as [[resp|] self2];
      [by eexists|].
    destruct (get_candidate_documents env _ _ _ _); [by eexists|].
    destruct (if enable_semantic_search (search_args request) then _ else _).
    destruct (if enable_keyword_search (search_args request) then _ else _).
    destruct (rank_results _ _ _ _ _ _ _ _ _); by eexists. }
  destruct Hev as [events Hev].
  destruct (hybrid_search env (search_args request) clock self)
    as [[search_result self'] evs].
  simpl in Hev. subst evs. exists events.
  destruct (negb (success search_result)); [done|].
  by destruct (forallb valid_result (results search_result)).
Qed.

End ServiceProperties.

(** *** A concrete service

    One indexed document of 18 words that is a single chunk. The vector
    index returns the chunk at distance 0.1; for the query rag the keyword
    pass scores the document (1 / 18) * 1.3 and its snippet is the whole
    text. The functions of the environment are given as they act on this
    lower-case text and this query: jieba leaves the word rag whole, the
    highlighting marks the word at the start, the only occurrence. *)

Definition example_text : string :=
  "rag lets a model look up text in an index and then use it to write an answer".

Definition example_document : Document :=
  mkDocument "doc1" "rag.txt" (Some example_text) "txt" 76 0 0 [] None None.

Definition example_env : Environment :=
  mkEnvironment
    (fun s => Z.of_nat (String.length s))
    (fun q n threshold ids types => q +:+ "/" +:+ pretty n)
    (fun _ _ _ _ => [example_document])
    (fun _ => Some [(1 # 2)%Q])
    (fun _ _ _ =>
       Some (mkSimilarChunks [example_text]
               [mkMetadata (Some "chunk_0") (Some "doc1") None None None]
               [(1 # 10)%Q]))
    (Some (fun q => [q]))
    (fun t _ => "<mark>rag</mark>" +:+ Py.str_slice 3 (Py.len t) t)
    (fun s => s)
    (fun l => remove_dups l).

Definition example_args : SearchArgs :=
  mkSearchArgs "rag" 3 (7 # 10) None None None None true true
    (3 # 10) (7 # 10) true true.

Definition example_clock : Clock := mkClock 0 1 2 3 4 5.

(** C1 (a final score below the threshold). With the default weights 0.3
    and 0.7 and threshold 0.7, the search succeeds and returns a fused chunk whose
    final score 391 / 600 (about 0.65) is below the threshold: its
    similarity score 0.9 passed the filter. *)
Lemma hybrid_search_final_score_below_threshold :
  let response :=
    (hybrid_search example_env example_args example_clock init).1.1 in
  success response = true
  ∧ ∃ r f, r ∈ results response
           ∧ final_score r = Some f
           ∧ (f < similarity_threshold example_args)%Q.
Proof.
  cbv zeta. split; [vm_compute; reflexivity|].
  eexists _, _. split; [|split].
  - vm_compute. left.
  - reflexivity.
  - vm_compute. reflexivity.
Qed.

Lemma hybrid_search_well_ranked_example :
  cache_ranked example_env init
  ∧ well_ranked (n_results example_args) (similarity_threshold example_args)
      (results
         (hybrid_search example_env example_args example_clock init).1.1).
Proof.
  split; [apply cache_ranked_init|].
  pose proof (hybrid_search_well_ranked example_env example_args
                example_clock init (cache_ranked_init example_env)) as H.
  assert (Hs : success
                 (hybrid_search example_env example_args example_clock
                    init).1.1 = true) by (vm_compute; reflexivity).
  destruct (hybrid_search example_env example_args example_clock init)
    as [[response self'] events].
  destruct H as [_ H]. destruct (H Hs) as (_ & Hmiss & _).
  apply Hmiss. intros (item & Hitem & _).
  change (query_cache init) with (∅ : gmap string CacheItem) in Hitem.
  by rewrite lookup_empty in Hitem.
Defined.

(** The two passes of the example meet in one group, fused into a hybrid
    result with final score 0.9 * 0.7 + (1.3 / 18) * 0.3 = 391 / 600. *)
Example _merge_search_results_example :
  ∃ f,
    final_score
    <$> default []
          (_merge_search_results (str_hash example_env)
             ((_semantic_search example_env "rag" 6 ["doc1"]).1
              ++ (_keyword_search example_env "rag" 6 [example_document]).1)
             (3 # 10) (7 # 10))
    = [Some f]
    ∧ Qeq f (391 # 600).
Proof. eexists. split; [vm_compute; reflexivity|]. reflexivity. Qed.

(** A hybrid request with weights 0.5 and 0.6. *)
Definition example_request : AdvancedSearchRequest :=
  mkAdvancedSearchRequest "rag" HYBRID 3 (7 # 10) (5 # 10) (6 # 10)
    None None None None None true true.

Lemma advanced_search_rejects_bad_weights_example :
  (keyword_mode (search_mode example_request) = true
   ∧ semantic_mode (search_mode example_request) = true
   ∧ (1 # 100
      < Qabs (request_keyword_weight example_request
              + request_semantic_weight example_request - 1))%Q)
  ∧ ∃ detail,
      advanced_search example_env example_request example_clock init
      = (inl (mkHTTPException 400 detail), init, []).
Proof.
  split; [repeat split; reflexivity|].
  apply advanced_search_rejects_bad_weights; reflexivity.
Defined.

End Retrieval.

(** ** RAG service: streaming chat ([rag_service.py]) *)

Module Rag.

Import Conversation.

(** The result of a call that may raise: a value, or the text of the
    exception. *)
Inductive outcome (A : Type) :=
  | Returns (a : A)
  | Raises (message : string).
Arguments Returns {A} a.
Arguments Raises {A} message.

(** [RetrievalContext] of [models/rag.py], by the fields used here. *)
Record RetrievalContext := mkRetrievalContext {
  context_query : string;
  retrieved_chunks : list Retrieval.SearchResult;
  total_chunks : Z
}.

(** The fields of [ChatRequest] that [stream_chat] reads. *)
Record ChatRequest := mkChatRequest {
  message : string;
  request_conversation_id : option string;
  enable_retrieval : bool;
  max_retrieved_chunks : Z;
  similarity_threshold : Q;
  temperature : Q;
  max_tokens : Z
}.

(** The keyword arguments of a call [StreamingChatResponse(...)] in
    [stream_chat]: [retrieval_context] and [sources_used] at their defaults
    when the call leaves them out. The calls pass [is_complete] and
    [error_message], which the class does not declare. *)
Record StreamingChatResponseArguments := mkStreamingChatResponseArguments {
  conversation_id : string;
  chunk : string;
  is_complete : bool;
  retrieval_context : option RetrievalContext;
  sources_used : list string;
  error_message : option string
}.

Module Received.

(** [StreamingChatResponse] of [models/rag.py]: the object a consumer of
    the stream receives. *)
Record StreamingChatResponse := mkStreamingChatResponse {
  conversation_id : string;
  chunk : string;
  is_final : bool;
  retrieval_context : option RetrievalContext;
  sources_used : list string;
  total_tokens : option Z;
  finish_reason : option string
}.

End Received.

(** The object a call of [StreamingChatResponse] with these keyword
    arguments builds: the class ignores the keyword arguments it does not
    declare, so [is_complete] and [error_message]
    are dropped, and [is_final], [total_tokens] and [finish_reason], which
    [stream_chat] never passes, keep their defaults. *)
Definition StreamingChatResponse_init
    (arguments : StreamingChatResponseArguments)
    : Received.StreamingChatResponse :=
  Received.mkStreamingChatResponse (conversation_id arguments)
    (chunk arguments) false (retrieval_context arguments)
    (sources_used arguments) None None.

(** What the asynchronous generator [llm_provider.generate_stream] does when
    it is consumed to its end: it yields [stream_chunks], then stops, or
    raises when [stream_error] holds the text of an exception. Obtaining
    the provider is part of it. *)
Record ProviderStream := mkProviderStream {
  stream_chunks : list string;
  stream_error : option string
}.

(** The collaborators of [stream_chat].
    - [uuid4]: [str(uuid.uuid4())].
    - [retrieve_context]: [_retrieve_context(message, max_chunks,
      similarity_threshold)], which returns [None] on any failure.
    - [build_complete_prompt]: the prompt builder.
    - [generate_stream]: the provider's stream for a prompt, token limit
      and temperature.
    - [extract_sources]: [_extract_sources]. *)
Record Environment := mkEnvironment {
  uuid4 : string;
  retrieve_context : string → Z → Q → option RetrievalContext;
  build_complete_prompt :
    string → option RetrievalContext → list ChatMessage → outcome string;
  generate_stream : string → Z → Q → ProviderStream;
  extract_sources : RetrievalContext → list string
}.

Section Streaming.

Variable env : Environment.

(** The text [_stream_generate_response] yields when the provider raises. *)
Definition generation_error_text (e : string) : string :=
  "生成回答时出现错误: " +:+ e.

(** [_stream_generate_response]: the chunks it yields. An exception of the
    provider is caught and turned into one more chunk. *)
Definition _stream_generate_response (prompt : string) (request : ChatRequest)
    : list string :=
  let stream :=
    generate_stream env prompt (max_tokens request) (temperature request) in
  match stream_error stream with
  | None => stream_chunks stream
  | Some e => stream_chunks stream ++ [generation_error_text e]
  end.

(** The increment of the [except] branch of [stream_chat]. *)
Definition error_increment (cid e : string)
    : StreamingChatResponseArguments :=
  mkStreamingChatResponseArguments cid "" true None []
    (Some ("处理请求时出现错误: " +:+ e)).

(** [stream_chat], consumed to its end: the calls of
    [StreamingChatResponse] it makes for the increments it yields, and the
    conversation manager it leaves. [now] is the clock. *)
Definition stream_chat (request : ChatRequest) (now : Z)
    (cm : ConversationManager)
    : list StreamingChatResponseArguments * ConversationManager :=
  let cid :=
    match request_conversation_id request with
    | Some s => if decide (s = "") then uuid4 env else s
    | None => uuid4 env
    end in
  let context :=
    if enable_retrieval request
    then retrieve_context env (message request)
           (max_retrieved_chunks request) (similarity_threshold request)
    else None in
  let conversation_history := get_recent_messages cid 10 cm in
  match build_complete_prompt env (message request) context
          conversation_history with
  | Raises e => ([error_increment cid e], cm)
  | Returns prompt =>
      let yielded := _stream_generate_response prompt request in
      let full_response := foldl String.append "" yielded in
      let increments :=
        (fun c =>
           mkStreamingChatResponseArguments cid c false
             (if decide (c = "") then context else None) [] None)
        <$> yielded in
      let completion :=
        mkStreamingChatResponseArguments cid "" true None
          (from_option (extract_sources env) [] context) None in
      let sent := increments ++ [completion] in
      match add_message (uuid4 env) now cid USER (message request) None cm with
      | None => (sent ++ [error_increment cid ("'" +:+ cid +:+ "'")], cm)
      | Some (_, cm1) =>
          match add_message (uuid4 env) now cid ASSISTANT full_response None
                  cm1 with
          | None => (sent ++ [error_increment cid ("'" +:+ cid +:+ "'")], cm1)
          | Some (_, cm2) => (sent, cm2)
          end
      end
  end.

(** What the consumer of [stream_chat] receives: the objects built by the
    calls, and the conversation manager left. *)
Definition stream_chat_received (request : ChatRequest) (now : Z)
    (cm : ConversationManager)
    : list Received.StreamingChatResponse * ConversationManager :=
  let '(sent, cm') := stream_chat request now cm in
  (StreamingChatResponse_init <$> sent, cm').

(** *** Failures during a streamed turn *)

Lemma foldl_append_snoc (cs : list string) (c : string) :
  foldl String.append "" (cs ++ [c]) = foldl String.append "" cs +:+ c.
Proof. by rewrite foldl_app. Qed.

Lemma add_message_defined (u : string) (now : Z) (cid : string)
    (r : ChatRole) (c : string) (cm : ConversationManager) :
  cid ≠ "" →
  ∃ cm' conv,
    add_message u now cid r c None cm = Some (true, cm')
    ∧ conversations cm' !! cid = Some conv
    ∧ last (messages conv) = Some (mkChatMessage r c now [])
    ∧ ∀ cid', cid' ≠ cid → conversations cm' !! cid' = conversations cm !! cid'.
Proof.
  intros Hne. destruct (conversations cm !! cid) as [conv|] eqn:Hc.
  - rewrite (add_message_existing _ _ _ _ _ _ _ _ Hc).
    eexists _, _. split; [reflexivity|]. split; [apply lookup_insert_eq|].
    split.
    + cbn [messages]. rewrite last_max_messages_last. apply last_snoc.
    + intros cid' Hne'. simpl. by rewrite lookup_insert_ne.
  - rewrite (add_message_fresh _ _ _ _ _ _ _ Hne Hc).
    eexists _, _. split; [reflexivity|]. split; [apply lookup_insert_eq|].
    split; [done|].
    intros cid' Hne'. simpl. by rewrite lookup_insert_ne.
Qed.

(** The conversation a request belongs to. *)
Definition conversation_of (request : ChatRequest) : string :=
  match request_conversation_id request with
  | Some s => if decide (s = "") then uuid4 env else s
  | None => uuid4 env
  end.

(** The retrieval context of a request. *)
Definition context_of (request : ChatRequest) : option RetrievalContext :=
  if enable_retrieval request
  then retrieve_context env (message request) (max_retrieved_chunks request)
         (similarity_threshold request)
  else None.

(** A failure before the generation reaches the [except] branch: one
    increment, complete and carrying the error, and nothing is stored. *)
Lemma stream_chat_prompt_failure (request : ChatRequest) (now : Z)
    (cm : ConversationManager) (e : string) :
  build_complete_prompt env (message request) (context_of request)
    (get_recent_messages (conversation_of request) 10 cm) = Raises e →
  stream_chat request now cm
  = ([error_increment (conversation_of request) e], cm).
Proof.
  intros Hb. unfold stream_chat. fold (conversation_of request).
  fold (context_of request). by rewrite Hb.
Qed.

(** A failure of the provider after the chunks [cs] does not reach the
    [except] branch: the error text is sent as one more chunk, the stream
    ends with the ordinary completion increment, no increment carries an
    error, and the chunks received so far, followed by the error text, are
    stored as the assistant's message. *)
Lemma stream_chat_provider_failure (request : ChatRequest) (now : Z)
    (cm : ConversationManager) (prompt : string) (cs : list string)
    (e : string) :
  conversation_of request ≠ "" →
  build_complete_prompt env (message request) (context_of request)
    (get_recent_messages (conversation_of request) 10 cm) = Returns prompt →
  generate_stream env prompt (max_tokens request) (temperature request)
  = mkProviderStream cs (Some e) →
  ∃ sent cm' conv,
    stream_chat request now cm = (sent, cm')
    ∧ chunk <$> sent = cs ++ [generation_error_text e; ""]
    ∧ Forall (fun i => error_message i = None) sent
    ∧ conversations cm' !! conversation_of request = Some conv
    ∧ last (messages conv)
      = Some (mkChatMessage ASSISTANT
                (foldl String.append "" cs +:+ generation_error_text e)
                now []).
Proof.
  intros Hne Hb Hg. unfold stream_chat. fold (conversation_of request).
  fold (context_of request). rewrite Hb.
  unfold _stream_generate_response. rewrite Hg. cbn [stream_error stream_chunks].
  destruct (add_message_defined (uuid4 env) now (conversation_of request)
              USER (message request) cm Hne) as (cm1 & conv1 & -> & _).
  destruct (add_message_defined (uuid4 env) now (conversation_of request)
              ASSISTANT
              (foldl String.append "" (cs ++ [generation_error_text e]))
              cm1 Hne) as (cm2 & conv2 & -> & Hc2 & Hlast & _).
  eexists _, cm2, conv2. split; [reflexivity|]. split; [|split; [|split]].
  - rewrite fmap_app, <- list_fmap_compose.
    rewrite (list_fmap_ext _ id (cs ++ [generation_error_text e]))
      by done.
    rewrite list_fmap_id. by rewrite <- app_assoc.
  - apply Forall_app. split; [|by repeat constructor].
    apply Forall_fmap. by apply Forall_true.
  - done.
  - by rewrite Hlast, foldl_append_snoc.
Qed.

End Streaming.

(** The failing turn: the provider yields two chunks and then raises. *)
Definition failing_env : Environment :=
  mkEnvironment "00000000-0000-4000-8000-000000000000"
    (fun _ _ _ => None)
    (fun q _ _ => Returns q)
    (fun _ _ _ => mkProviderStream ["Hel"; "lo"] (Some "connection reset"))
    (fun _ => []).

Definition failing_request : ChatRequest :=
  mkChatRequest "hi" (Some "c1") false 5 (6 # 10) (7 # 10) 1000.

(** C3 (what the code does). The provider fails after the chunks Hel and
    lo. The caller receives these two chunks, the error text as a third
    ordinary chunk and the ordinary completion increment; no increment
    carries an error message. The conversation then holds the user message
    and an assistant message made of the partial answer Hello followed by
    the error text. *)
Theorem stream_chat_persists_partial_answer :
  let '(sent, cm) := stream_chat failing_env failing_request 7 init in
  chunk <$> sent = ["Hel"; "lo"; "生成回答时出现错误: connection reset"; ""]
  ∧ is_complete <$> sent = [false; false; false; true]
  ∧ error_message <$> sent = [None; None; None; None]
  ∧ messages <$> conversations cm !! "c1"
    = Some [mkChatMessage USER "hi" 7 [];
            mkChatMessage ASSISTANT
              "Hello生成回答时出现错误: connection reset" 7 []].
Proof. vm_compute. repeat split. Qed.

Lemma stream_chat_provider_failure_example :
  ∃ sent cm' conv,
    stream_chat failing_env failing_request 7 init = (sent, cm')
    ∧ chunk <$> sent = ["Hel"; "lo"; generation_error_text "connection reset"; ""]
    ∧ Forall (fun i => error_message i = None) sent
    ∧ conversations cm' !! "c1" = Some conv
    ∧ last (messages conv)
      = Some (mkChatMessage ASSISTANT
                ("Hello" +:+ generation_error_text "connection reset") 7 []).
Proof.
  apply (stream_chat_provider_failure failing_env failing_request 7 init "hi"
           ["Hel"; "lo"] "connection reset"); [discriminate|reflexivity..].
Defined.

End Rag.

(** ** Conversation store: the remaining operations
    ([conversation_manager.py]) *)

Module Sessions.

Import Conversation.

(** [get_conversation]. *)
Definition get_conversation (cid : string) (self : ConversationManager)
    : option ConversationHistory :=
  conversations self !! cid.

(** [clear_conversation]. *)
Definition clear_conversation (cid : string) (self : ConversationManager)
    : bool * ConversationManager :=
  match conversations self !! cid with
  | Some _ =>
      (true, with_conversations self (delete cid (conversations self)))
  | None => (false, self)
  end.

(** [timedelta(hours=h)] in microseconds. *)
Definition timedelta_hours (h : Z) : Z := (h * 3600000000)%Z.

(** A conversation the sweep at [now] removes. *)
Definition idle (cutoff_time : Z) (conversation : ConversationHistory)
    : Prop :=
  (updated_at conversation < cutoff_time)%Z.

#[global] Instance idle_dec cutoff_time conversation :
  Decision (idle cutoff_time conversation).
Proof. unfold idle. apply _. Defined.

(** [cleanup_expired_conversations]: the number of conversations removed
    and the manager left. *)
Definition cleanup_expired_conversations (now : Z)
    (self : ConversationManager) : Z * ConversationManager :=
  if decide (expire_hours self ≤ 0)%Z then (0%Z, self)
  else
    let cutoff_time := (now - timedelta_hours (expire_hours self))%Z in
    let expired :=
      filter (fun kv => idle cutoff_time kv.2) (conversations self) in
    (Z.of_nat (size expired),
     with_conversations self
       (filter (fun kv => ¬ idle cutoff_time kv.2) (conversations self))).


(** [sorted(items, key=...)]: a stable sort into ascending order of an
    integer key, so an element goes before the elements of equal or
    greater key that followed it. *)
Fixpoint insert_ascending {A : Type} (key : A → Z) (x : A) (l : list A)
    : list A :=
  match l with
  | [] => [x]
  | y :: l' =>
      if (key x <=? key y)%Z then x :: l
      else y :: insert_ascending key x l'
  end.

Definition sorted_ascending {A : Type} (key : A → Z) (l : list A) : list A :=
  foldr (insert_ascending key) [] l.

(** [cleanup_excess_conversations]. [items] is
    [self.conversations.items()], the conversations in the insertion order
    of the dictionary, which decides between conversations updated at the
    same time. *)
Definition cleanup_excess_conversations
    (items : list (string * ConversationHistory))
    (self : ConversationManager) : Z * ConversationManager :=
  if decide (Z.of_nat (size (conversations self)) ≤ max_conversations self)%Z
  then (0%Z, self)
  else
    let sorted_conversations :=
      sorted_ascending (fun x => updated_at x.2) items in
    let excess_count :=
      (Z.of_nat (size (conversations self)) - max_conversations self)%Z in
    let removed := Py.slice_to excess_count sorted_conversations in
    (Z.of_nat (length removed),
     with_conversations self
       (foldl (fun m kv => delete kv.1 m) (conversations self) removed)).

(** *** One message added *)

(** X1. [add_message] on a conversation that exists, or on a new one with
    a non-empty identifier, returns [True]. The conversation then ends with
    the new message, holds at most 100 messages whatever it held before,
    and carries the time of the call; the other conversations, the metrics
    and the limits of the manager are as before. *)
Theorem add_message_touches_one_conversation (u : string) (now : Z)
    (cid : string) (r : ChatRole) (c : string)
    (meta : option (list (string * string))) (self : ConversationManager) :
  cid ≠ "" ∨ is_Some (conversations self !! cid) →
  ∃ self' conv,
    add_message u now cid r c meta self = Some (true, self')
    ∧ conversations self' !! cid = Some conv
    ∧ last (messages conv) = Some (mkChatMessage r c now (default [] meta))
    ∧ (length (messages conv) ≤ 100)%nat
    ∧ updated_at conv = now
    ∧ (∀ old, conversations self !! cid = Some old →
              created_at conv = created_at old
              ∧ messages conv
                = last_max_messages
                    (messages old
                     ++ [mkChatMessage r c now (default [] meta)]))
    ∧ (∀ other, other ≠ cid →
                conversations self' !! other = conversations self !! other)
    ∧ metrics self' = metrics self
    ∧ max_conversations self' = max_conversations self
    ∧ expire_hours self' = expire_hours self.
Proof.
  intros Hcid.
  assert (Hlen : ∀ l : list ChatMessage,
            (length (last_max_messages l) ≤ 100)%nat).
  { intros l. unfold last_max_messages, max_messages.
    rewrite length_drop. lia. }
  destruct (conversations self !! cid) as [old|] eqn:Hold.
  - rewrite (add_message_existing _ _ _ _ _ _ _ _ Hold).
    eexists _, _. split; [reflexivity|].
    split; [apply lookup_insert_eq|]. cbn [messages updated_at created_at].
    split; [rewrite last_max_messages_last; apply last_snoc|].
    split; [apply Hlen|]. split; [done|].
    split; [by intros old' [= <-]|].
    split; [|done]. intros other Hne.
    cbn [conversations with_conversations]. by rewrite lookup_insert_ne.
  - destruct Hcid as [Hne|[? [=]]].
    rewrite (add_message_fresh _ _ _ _ _ _ _ Hne Hold).
    eexists _, _. split; [reflexivity|].
    split; [apply lookup_insert_eq|]. cbn [messages updated_at created_at].
    split; [done|]. split; [simpl; lia|]. split; [done|].
    split; [by intros old' [=]|].
    split; [|done]. intros other Hne'.
    cbn [conversations with_conversations]. by rewrite lookup_insert_ne.
Qed.

Lemma add_message_touches_one_conversation_example :
  ("c1" ≠ "" ∨ is_Some (conversations init !! "c1"))
  ∧ ∃ self' conv,
      add_message "u" 5 "c1" USER "hi" None init = Some (true, self')
      ∧ conversations self' !! "c1" = Some conv
      ∧ last (messages conv) = Some (mkChatMessage USER "hi" 5 [])
      ∧ conversations self' !! "c2" = None.
Proof.
  assert (H : "c1" ≠ "" ∨ is_Some (conversations init !! "c1"))
    by (left; discriminate).
  split; [exact H|].
  destruct (add_message_touches_one_conversation "u" 5 "c1" USER "hi" None
              init H)
    as (self' & conv & Hrun & Hc & Hlast & _ & _ & _ & Hother & _).
  exists self', conv. repeat split; try assumption.
  rewrite (Hother "c2") by discriminate. reflexivity.
Defined.

(** X2. [get_recent_messages] returns the last [limit] messages of the
    conversation (all of them when it has fewer), and nothing for an
    unknown conversation; right after an [add_message] its last element is
    the message added. *)
Theorem get_recent_messages_suffix (cid : string) (limit : nat)
    (self : ConversationManager) :
  0 < limit →
  (conversations self !! cid = None → get_recent_messages cid limit self = [])
  ∧ (∀ conv, conversations self !! cid = Some conv →
       get_recent_messages cid limit self `suffix_of` messages conv
       ∧ length (get_recent_messages cid limit self)
         = Nat.min limit (length (messages conv))
       ∧ last (get_recent_messages cid limit self) = last (messages conv))
  ∧ (∀ u now r c meta self',
       add_message u now cid r c meta self = Some (true, self') →
       last (get_recent_messages cid limit self')
       = Some (mkChatMessage r c now (default [] meta))).
Proof.
  intros Hlimit.
  assert (Hsome : ∀ (s : ConversationManager) conv,
            conversations s !! cid = Some conv →
            get_recent_messages cid limit s
            = drop (length (messages conv) - limit) (messages conv)).
  { intros s conv Hc. unfold get_recent_messages. rewrite Hc.
    by destruct limit; [lia|]. }
  assert (Hlast : ∀ (l : list ChatMessage),
            last (drop (length l - limit) l) = last l).
  { intros l. rewrite !last_lookup, lookup_drop, length_drop.
    destruct (decide (length l = 0)) as [H0|H0].
    - apply length_zero_iff_nil in H0. by subst.
    - f_equal. lia. }
  split; [|split].
  - intros Hnone. unfold get_recent_messages. by rewrite Hnone.
  - intros conv Hc. rewrite (Hsome _ _ Hc).
    split; [apply suffix_drop|]. split; [rewrite length_drop; lia|].
    apply Hlast.
  - intros u now r c meta self' Hadd.
    unfold add_message in Hadd.
    destruct (conversations
                match conversations self !! cid with
                | Some _ => self
                | None => (create_conversation u now (Some cid) self).2
                end !! cid) as [conv|] eqn:Hconv; [|done].
    injection Hadd as <-.
    erewrite Hsome by (cbn [conversations with_conversations];
                       apply lookup_insert_eq).
    rewrite Hlast. cbn [messages].
    rewrite last_max_messages_short, last_max_messages_last.
    apply last_snoc.
Qed.

Lemma get_recent_messages_suffix_example :
  0 < 10
  ∧ get_recent_messages "c1" 10 init = []
  ∧ ∀ self', add_message "u" 5 "c1" USER "hi" None init = Some (true, self') →
             last (get_recent_messages "c1" 10 self')
             = Some (mkChatMessage USER "hi" 5 []).
Proof.
  assert (H : 0 < 10) by lia.
  destruct (get_recent_messages_suffix "c1" 10 init H) as (H1 & _ & H3).
  split; [exact H|]. split; [by apply H1|].
  intros self' Hadd. by apply (H3 "u" 5%Z USER "hi" None self').
Defined.

(** X3. [clear_conversation] returns whether the conversation existed;
    afterwards it is gone, every other conversation and the metrics are
    untouched, and clearing it again returns [False] and changes nothing. *)
Theorem clear_conversation_removes (cid : string)
    (self : ConversationManager) :
  let '(existed, self') := clear_conversation cid self in
  (existed = true ↔ is_Some (conversations self !! cid))
  ∧ get_conversation cid self' = None
  ∧ (∀ other, other ≠ cid →
              get_conversation other self' = get_conversation other self)
  ∧ metrics self' = metrics self
  ∧ clear_conversation cid self' = (false, self').
Proof.
  unfold clear_conversation, get_conversation.
  destruct (conversations self !! cid) as [conv|] eqn:Hc.
  - cbn [conversations with_conversations].
    split; [by split; [eexists|]|].
    split; [apply lookup_delete_eq|].
    split; [by intros other Hne; rewrite lookup_delete_ne|].
    split; [done|]. by rewrite lookup_delete_eq.
  - split; [split; [done|by intros [? [=]]]|].
    split; [done|]. split; [done|]. split; [done|]. by rewrite Hc.
Qed.

(** X4. [cleanup_expired_conversations] removes exactly the conversations
    last updated before [now] minus [expire_hours]: one updated at the
    cutoff or later stays as it is, one strictly older goes. The number it
    returns is the number removed; with [expire_hours <= 0] nothing is
    removed. *)
Theorem cleanup_expired_conversations_exact (now : Z)
    (self : ConversationManager) :
  let '(removed, self') := cleanup_expired_conversations now self in
  let cutoff_time := (now - timedelta_hours (expire_hours self))%Z in
  (∀ cid conv,
     conversations self' !! cid = Some conv ↔
     conversations self !! cid = Some conv
     ∧ ((expire_hours self ≤ 0)%Z ∨ (cutoff_time ≤ updated_at conv)%Z))
  ∧ (Z.of_nat (size (conversations self))
     = removed + Z.of_nat (size (conversations self')))%Z
  ∧ (0 ≤ removed)%Z
  ∧ ((expire_hours self ≤ 0)%Z → removed = 0%Z ∧ self' = self)
  ∧ metrics self' = metrics self.
Proof.
  unfold cleanup_expired_conversations.
  case_decide as Hh.
  - cbv zeta. split; [|split; [lia|split; [lia|done]]].
    intros cid conv. split; [by intros ?; split; [|left]|by intros [? _]].
  - cbv zeta. cbn [conversations with_conversations metrics].
    split; [|split; [|split; [lia|split; [done|done]]]].
    + intros cid conv. rewrite map_lookup_filter_Some. unfold idle.
      cbn [snd]. split; intros [H1 H2]; (split; [done|]); [right; lia|].
      destruct H2; lia.
    + rewrite <- Nat2Z.inj_add. f_equal.
      rewrite <- map_size_disj_union
        by apply map_disjoint_filter_complement.
      by rewrite map_filter_union_complement.
Qed.

(** *** The sweep of excess conversations *)

Lemma slice_to_take_front {A : Type} (n : Z) (l : list A) :
  (0 < n)%Z → ∃ k, Py.slice_to n l = take k l ∧ k = Z.to_nat n.
Proof.
  intros Hn. unfold Py.slice_to.
  destruct (0 <=? n)%Z eqn:H0; [by exists (Z.to_nat n)|].
  apply Z.leb_gt in H0. lia.
Qed.


Lemma insert_ascending_perm {A : Type} (key : A → Z) (x : A) (l : list A) :
  insert_ascending key x l ≡ₚ x :: l.
Proof.
  induction l as [|y l IH]; simpl; [done|].
  destruct (key x <=? key y)%Z; [done|].
  rewrite IH. apply Permutation_swap.
Qed.

Lemma insert_ascending_sorted {A : Type} (key : A → Z) (x : A) (l : list A) :
  StronglySorted (fun a b => (key a ≤ key b)%Z) l →
  StronglySorted (fun a b => (key a ≤ key b)%Z) (insert_ascending key x l).
Proof.
  induction l as [|y l IH]; simpl; intros Hs.
  - repeat constructor.
  - apply StronglySorted_inv in Hs as [Hs Hy].
    destruct (key x <=? key y)%Z eqn:Hle.
    + apply Z.leb_le in Hle. constructor; [by constructor|].
      constructor; [exact Hle|].
      eapply Forall_impl; [exact Hy|]. cbv beta. lia.
    + apply Z.leb_gt in Hle. constructor; [by apply IH|].
      rewrite (insert_ascending_perm key x l). constructor; [lia|done].
Qed.

Lemma sorted_ascending_perm {A : Type} (key : A → Z) (l : list A) :
  sorted_ascending key l ≡ₚ l.
Proof.
  induction l as [|x l IH]; simpl; [done|].
  by rewrite insert_ascending_perm, IH.
Qed.

Lemma sorted_ascending_sorted {A : Type} (key : A → Z) (l : list A) :
  StronglySorted (fun a b => (key a ≤ key b)%Z) (sorted_ascending key l).
Proof.
  induction l as [|x l IH]; simpl; [constructor|].
  by apply insert_ascending_sorted.
Qed.

Lemma delete_all_front (l1 l2 : list (string * ConversationHistory)) :
  NoDup (l1 ++ l2).*1 →
  foldl (fun m kv => delete kv.1 m)
    (list_to_map (l1 ++ l2) : gmap string ConversationHistory) l1
  = list_to_map l2.
Proof.
  induction l1 as [|[k v] l1 IH]; intros Hnd; [done|].
  simpl in Hnd. apply NoDup_cons in Hnd as [Hk Hnd].
  cbn [app list_to_map foldr foldl fst uncurry].
  rewrite delete_insert_eq.
  rewrite delete_id by (by apply not_elem_of_list_to_map_1).
  by apply IH.
Qed.

(** X5. [cleanup_excess_conversations] removes nothing while the store is
    within [max_conversations]; otherwise it removes the excess, oldest
    update first: what is left is part of what was there, the number
    returned is the number removed, a non-negative limit is met exactly,
    and no conversation removed was updated later than one that stays. *)
Theorem cleanup_excess_conversations_oldest_first
    (items : list (string * ConversationHistory))
    (self : ConversationManager) :
  items ≡ₚ map_to_list (conversations self) →
  let '(removed, self') := cleanup_excess_conversations items self in
  conversations self' ⊆ conversations self
  ∧ (Z.of_nat (size (conversations self))
     = removed + Z.of_nat (size (conversations self')))%Z
  ∧ (0 ≤ removed)%Z
  ∧ ((0 ≤ max_conversations self)%Z →
     Z.of_nat (size (conversations self'))
     = Z.min (Z.of_nat (size (conversations self))) (max_conversations self))
  ∧ (∀ k c k' c',
       conversations self !! k = Some c →
       conversations self' !! k = None →
       conversations self' !! k' = Some c' →
       (updated_at c ≤ updated_at c')%Z)
  ∧ metrics self' = metrics self.
Proof.
  intros Hitems. unfold cleanup_excess_conversations.
  case_decide as Hsize.
  { split; [done|]. split; [lia|]. split; [lia|]. split; [lia|].
    split; [|done]. intros k c k' c' Hk Hk'. congruence. }
  cbv zeta. cbn [conversations with_conversations metrics].
  set (m := conversations self) in *.
  set (S := sorted_ascending (fun x => updated_at x.2) items).
  assert (HS : S ≡ₚ map_to_list m).
  { unfold S. by rewrite sorted_ascending_perm. }
  assert (Hnd : NoDup S.*1).
  { rewrite HS. apply NoDup_fst_map_to_list. }
  assert (Hm : m = list_to_map S).
  { rewrite (list_to_map_proper S (map_to_list m) Hnd HS).
    by rewrite list_to_map_to_list. }
  assert (Hlen : size m = length S).
  { rewrite Hm. by apply map_size_list_to_map. }
  destruct (slice_to_take_front
              (Z.of_nat (size m) - max_conversations self) S)
    as (e & -> & He); [lia|].
  assert (Hm' : foldl (fun m0 kv => delete kv.1 m0) m (take e S)
                = list_to_map (drop e S)).
  { rewrite Hm. rewrite <- (take_drop e S) at 1.
    apply delete_all_front. by rewrite take_drop. }
  rewrite Hm'.
  assert (Hnd' : NoDup (drop e S).*1).
  { rewrite <- (take_drop e S), fmap_app in Hnd.
    by apply NoDup_app in Hnd as (_ & _ & Hnd). }
  assert (Hsize' : size (list_to_map (drop e S)
                          : gmap string ConversationHistory)
                   = length S - e).
  { rewrite map_size_list_to_map by done. apply length_drop. }
  rewrite Hsize', length_take.
  split; [|split; [|split; [|split; [|split; [|done]]]]].
  - apply map_subseteq_spec. intros k c Hk.
    apply elem_of_list_to_map in Hk; [|done].
    rewrite Hm. apply elem_of_list_to_map; [done|].
    rewrite <- (take_drop e S). apply elem_of_app. by right.
  - rewrite Hlen. lia.
  - lia.
  - intros Hmax. rewrite Hlen in *. lia.
  - intros k c k' c' Hk Hgone Hk'.
    rewrite Hm in Hk. apply elem_of_list_to_map in Hk; [|done].
    apply elem_of_list_to_map in Hk'; [|done].
    assert (Hfront : (k, c) ∈ take e S).
    { rewrite <- (take_drop e S) in Hk.
      apply elem_of_app in Hk as [Hk|Hk]; [done|].
      apply elem_of_list_to_map in Hk; [|done]. congruence. }
    pose proof (sorted_ascending_sorted (fun x => updated_at x.2) items)
      as Hsorted.
    fold S in Hsorted. rewrite <- (take_drop e S) in Hsorted.
    apply (StronglySorted_app_1_elem_of _ _ _ _ _ Hsorted Hfront Hk').
Qed.

(** Three conversations where two are allowed: the one updated first
    goes. *)
Definition example_items : list (string * ConversationHistory) :=
  [("a", mkConversationHistory "a" [] 0 30);
   ("b", mkConversationHistory "b" [] 0 10);
   ("c", mkConversationHistory "c" [] 0 20)].

Definition example_manager : ConversationManager :=
  mkConversationManager (list_to_map example_items) 2 24 fresh_metrics.

Lemma cleanup_excess_conversations_oldest_first_example :
  example_items ≡ₚ map_to_list (conversations example_manager)
  ∧ (let '(removed, self') :=
       cleanup_excess_conversations example_items example_manager in
     removed = 1%Z
     ∧ conversations self' !! "b" = None
     ∧ Z.of_nat (size (conversations self')) = 2%Z).
Proof.
  assert (H : example_items ≡ₚ map_to_list (conversations example_manager)).
  { symmetry. apply map_to_list_to_map.
    apply (bool_decide_unpack _). vm_compute. exact I. }
  split; [exact H|].
  pose proof (cleanup_excess_conversations_oldest_first example_items
                example_manager H) as Hthm.
  assert (Hrun : (cleanup_excess_conversations example_items
                    example_manager).1 = 1%Z
                 ∧ conversations
                     (cleanup_excess_conversations example_items
                        example_manager).2 !! "b" = None)
    by (split; vm_compute; reflexivity).
  destruct (cleanup_excess_conversations example_items example_manager)
    as [removed self'].
  destruct Hrun as [Hr Hb]. simpl in Hr, Hb.
  destruct Hthm as (_ & _ & _ & Hmax & _).
  split; [exact Hr|]. split; [exact Hb|].
  rewrite Hmax by (vm_compute; discriminate). vm_compute. reflexivity.
Defined.

End Sessions.

(** ** Query analyzer: bounds of the analysis and category suggestion
    ([query_analyzer.py]) *)

Module AnalyzerBounds.

Import QueryAnalyzer.

(** [category_keywords] of [suggest_categories], in insertion order. *)
Definition category_keywords : list (string * list string) :=
  [ ("tech-docs", ["技术"; "API"; "开发"; "编程"; "系统"; "架构"]);
    ("research", ["研究"; "报告"; "分析"; "数据"; "调研"]);
    ("manual", ["手册"; "指南"; "操作"; "使用"; "说明"]);
    ("academic", ["论文"; "学术"; "期刊"; "研究"; "实验"]);
    ("business", ["商业"; "财务"; "营销"; "计划"; "合同"]);
    ("legal", ["法律"; "法规"; "合同"; "协议"; "条款"]) ].

(** The score [suggest_categories] gives one category: 2 for each of its
    keywords found in the query, 1 for each pair of one of its keywords and
    a user keyword where one contains the other. *)
Definition category_score (query_lower : string)
    (keywords_lower : list string) (cat_keywords : list string) : nat :=
  foldl
    (fun score keyword =>
       let score :=
         if Py.contains keyword query_lower then score + 2 else score in
       foldl
         (fun score user_keyword =>
            if Py.contains keyword user_keyword
               || Py.contains user_keyword keyword
            then score + 1 else score)
         score keywords_lower)
    0 cat_keywords.

(** The pairs of category and score, before the filter on a positive
    score; [lower] is [str.lower]. *)
Definition category_scores (lower : string → string) (query : string)
    (keywords : list string) : list (string * nat) :=
  let query_lower := lower query in
  let keywords_lower := lower <$> keywords in
  (fun item => (item.1, category_score query_lower keywords_lower item.2))
  <$> category_keywords.

(** [suggest_categories]. *)
Definition suggest_categories (lower : string → string) (query : string)
    (keywords : list string) : list string :=
  let suggested :=
    filter (fun cs => 0 < cs.2) (category_scores lower query keywords) in
  let suggested :=
    Retrieval.sorted_descending
      (fun cs => inject_Z (Z.of_nat cs.2)) suggested in
  fst <$> take 3 suggested.

(** Whether a character occurs in a string. *)
Fixpoint has_char (c : Ascii.ascii) (s : string) : bool :=
  match s with
  | EmptyString => false
  | String c' s' => Ascii.eqb c' c || has_char c s'
  end.

(** *** Numbers *)

Lemma inject_nat_nonneg (n : nat) : (0 <= inject_Z (Z.of_nat n))%Q.
Proof. change 0%Q with (inject_Z 0). rewrite <- Zle_Qle. lia. Qed.

Lemma min_nonneg (a b : Q) : (0 <= a)%Q → (0 <= b)%Q → (0 <= Py.min a b)%Q.
Proof. intros Ha Hb. unfold Py.min. by destruct (Qle_bool a b). Qed.

Lemma min_le_r (a b : Q) : (Py.min a b <= b)%Q.
Proof.
  unfold Py.min. destruct (Qle_bool a b) eqn:H.
  - by apply Qle_bool_iff.
  - apply Qle_refl.
Qed.

Lemma add_for_words_nonneg (words : list string) (query : string)
    (step : Q) :
  (0 <= step)%Q →
  ∀ complexity, (0 <= complexity)%Q →
                (0 <= add_for_words words query step complexity)%Q.
Proof.
  intros Hstep. unfold add_for_words.
  induction words as [|w ws IH]; intros c Hc; simpl; [done|].
  apply IH. destruct (Py.contains w query); [lra|done].
Qed.

Lemma _assess_complexity_range (query : string) :
  (0 <= _assess_complexity query <= 1)%Q.
Proof.
  unfold _assess_complexity. split; [|apply min_le_r].
  apply min_nonneg; [|lra].
  apply add_for_words_nonneg; [lra|].
  apply add_for_words_nonneg; [lra|].
  assert (H1 : (0 <= Py.min (inject_Z (Z.of_nat (Py.len query)) / 100)
                       (3 # 10))%Q).
  { apply min_nonneg; [|lra].
    pose proof (inject_nat_nonneg (Py.len query)).
    unfold Qdiv. change (/ 100)%Q with (1 # 100)%Q. lra. }
  assert (H2 : (0 <= Py.min
                       (inject_Z
                          (Z.of_nat
                             (Py.count "?" query + Py.count "？" query))
                        * (1 # 10)) (2 # 10))%Q).
  { apply min_nonneg; [|lra].
    pose proof (inject_nat_nonneg
                  (Py.count "?" query + Py.count "？" query)).
    lra. }
  lra.
Qed.

Section Bounds.

Variable re_findall : string → string → list string.
Variable list_of_set : list string → list string.
Variable analysis_prompt : string → string.
Variable acomplete : string → option string.
Variable json_loads : string → option LLMData.

(** X6. The deterministic pass gives a complexity score between 0 and 1
    and one of the retrieval counts 3, 4, 6 and 8, the count rising with
    the score: 8 above 0.8, 6 above 0.6, 4 above 0.4. Its keywords are at
    most ten, each longer than one character and no stop word. *)
Theorem _basic_analysis_bounds (query : string) :
  let a := _basic_analysis re_findall list_of_set query in
  (0 <= complexity_score a <= 1)%Q
  ∧ suggested_retrieval_count a ∈ [3; 4; 6; 8]%Z
  ∧ (suggested_retrieval_count a = 8%Z ↔ (8 # 10 < complexity_score a)%Q)
  ∧ (suggested_retrieval_count a = 3%Z ↔ (complexity_score a <= 4 # 10)%Q)
  ∧ (length (keywords a) ≤ 10)%nat
  ∧ Forall (fun word => 1 < Py.len word ∧ word ∉ stop_words) (keywords a)
  ∧ original_query a = query.
Proof.
  cbv zeta. unfold _basic_analysis.
  cbn [complexity_score suggested_retrieval_count keywords original_query].
  pose proof (_assess_complexity_range query) as Hrange.
  set (c := _assess_complexity query) in *.
  assert (Hgt : ∀ b, Py.gt c b = true ↔ (b < c)%Q).
  { intros b. unfold Py.gt. rewrite negb_true_iff.
    destruct (Qle_bool c b) eqn:H.
    - apply Qle_bool_iff in H. split; [done|]. intros Hlt. lra.
    - split; [|done]. intros _. apply Qnot_le_lt. intros Hle.
      apply Qle_bool_iff in Hle. congruence. }
  split; [exact Hrange|].
  assert (Hkw : Forall (fun word => 1 < Py.len word ∧ word ∉ stop_words)
                  (_extract_keywords_simple re_findall query)).
  { unfold _extract_keywords_simple. apply Forall_take.
    apply Forall_forall. by intros w [Hw _]%list_elem_of_filter. }
  assert (Hlen : (length (_extract_keywords_simple re_findall query) ≤ 10)%nat).
  { unfold _extract_keywords_simple. rewrite length_take. lia. }
  assert (Hin : ∀ n : Z, n ∈ [3; 4; 6; 8]%Z ↔ n = 3%Z ∨ n = 4%Z ∨ n = 6%Z ∨ n = 8%Z).
  { intros n. rewrite !elem_of_cons, elem_of_nil. tauto. }
  rewrite Hin.
  destruct (Py.gt c (8 # 10)) eqn:H8;
    [apply Hgt in H8
    |assert (H8' : ¬ (8 # 10 < c)%Q) by (rewrite <- Hgt; congruence);
     destruct (Py.gt c (6 # 10)) eqn:H6;
     [apply Hgt in H6
     |destruct (Py.gt c (4 # 10)) eqn:H4;
      [apply Hgt in H4
      |assert (H4' : ¬ (4 # 10 < c)%Q) by (rewrite <- Hgt; congruence)]]];
    (split; [tauto|]);
    (split; [split; [intros; first [lra | done] | intros; first [lra | done]]|]);
    (split; [split; [intros; first [done | by apply Qnot_lt_le]
                    | intros; first [lra | done]]|]);
    done.
Qed.

Lemma _merge_analysis_fields (basic final : QueryAnalysis)
    (llm_data : option LLMData) :
  _merge_analysis list_of_set basic llm_data = Some final →
  original_query final = original_query basic
  ∧ ((length (keywords basic) ≤ 10)%nat → (length (keywords final) ≤ 10)%nat)
  ∧ (suggested_retrieval_count basic ≤ suggested_retrieval_count final)%Z
  ∧ ((0 <= complexity_score basic <= 1)%Q →
     (∀ d v, llm_data = Some d → llm_complexity_score d = Some (Some v) →
             (0 <= v <= 1)%Q) →
     (0 <= complexity_score final <= 1)%Q).
Proof.
  unfold _merge_analysis. destruct llm_data as [d|]; [|by intros [= <-]].
  destruct (negb (llm_data_nonempty d)); [by intros [= <-]|].
  intros Hfinal.
  assert (Hscore : ∀ v, llm_complexity_score d = Some (Some v) →
                        (0 <= complexity_score basic <= 1)%Q →
                        (∀ d' v', Some d = Some d' →
                                  llm_complexity_score d' = Some (Some v') →
                                  (0 <= v' <= 1)%Q) →
                        (0 <= (complexity_score basic + v) / 2 <= 1)%Q).
  { intros v Hv Hb Hd. specialize (Hd d v eq_refl Hv).
    unfold Qdiv. change (/ 2)%Q with (1 # 2)%Q. lra. }
  destruct (llm_complexity_score d) as [[c|]|];
    destruct (llm_suggested_retrieval_count d) as [[n|]|];
    simpl in Hfinal; try discriminate;
    destruct (llm_intent d), (llm_keywords d) as [[|]|],
      (llm_entities d) as [[|]|], (llm_query_type d),
      (llm_requires_context d);
    simpl in Hfinal; injection Hfinal as <-; simpl;
    (split; [done|]);
    (split; [first [done | intros _; rewrite length_take; lia]|]);
    (split; [lia|]);
    first [done | by apply Hscore].
Qed.

(** X7. Whatever the LLM answers, the analysis [analyze_query] returns is
    about the query it was given, has at most ten keywords and suggests at
    least three passages, and never fewer than the deterministic pass when
    the merge succeeds. *)
Theorem analyze_query_floor (query : string) :
  let final :=
    analyze_query re_findall list_of_set analysis_prompt acomplete json_loads
      query in
  original_query final = query
  ∧ (length (keywords final) ≤ 10)%nat
  ∧ (3 ≤ suggested_retrieval_count final)%Z
  ∧ (_merge_analysis list_of_set
       (_basic_analysis re_findall list_of_set query)
       (_llm_analysis analysis_prompt acomplete json_loads query)
     = Some final →
     (suggested_retrieval_count
        (_basic_analysis re_findall list_of_set query)
      ≤ suggested_retrieval_count final)%Z).
Proof.
  cbv zeta. unfold analyze_query.
  assert (Hlen : ∀ q, (length (_extract_keywords_simple re_findall q)
                       ≤ 10)%nat).
  { intros q. unfold _extract_keywords_simple. rewrite length_take. lia. }
  assert (Hcount : (3 ≤ suggested_retrieval_count
                          (_basic_analysis re_findall list_of_set query))%Z).
  { unfold _basic_analysis. cbn [suggested_retrieval_count].
    repeat case_match; lia. }
  destruct (_merge_analysis _ _ _) as [final|] eqn:Hmerge.
  - apply _merge_analysis_fields in Hmerge as (Hq & Hk & Hc & _).
    split; [by rewrite Hq|]. split; [apply Hk, Hlen|]. split; [lia|].
    by intros _.
  - unfold _default_analysis. cbn. split; [done|]. split; [apply Hlen|].
    split; [lia|]. intros [=].
Qed.

(** X8. When the score the LLM gives lies between 0 and 1, so does the
    complexity score of the final analysis. *)
Theorem analyze_query_complexity_range (query : string) :
  (∀ d v,
     _llm_analysis analysis_prompt acomplete json_loads query = Some d →
     llm_complexity_score d = Some (Some v) → (0 <= v <= 1)%Q) →
  (0 <= complexity_score
          (analyze_query re_findall list_of_set analysis_prompt acomplete
             json_loads query) <= 1)%Q.
Proof.
  intros Hllm. unfold analyze_query.
  destruct (_merge_analysis _ _ _) as [final|] eqn:Hmerge.
  - apply _merge_analysis_fields in Hmerge as (_ & _ & _ & Hc).
    apply Hc; [|done].
    unfold _basic_analysis. cbn [complexity_score].
    apply _assess_complexity_range.
  - unfold _default_analysis. cbn [complexity_score]. lra.
Qed.

(** *** The JSON object in the answer of the LLM *)

Lemma from_first_brace_skip (pre rest : string) :
  has_char "{" pre = false →
  from_first_brace (pre +:+ String "{" rest) = Some (String "{" rest).
Proof.
  induction pre as [|c pre IH]; simpl; [done|].
  intros [Hc Hpre]%orb_false_iff. rewrite Hc. by apply IH.
Qed.

Lemma from_first_brace_none (text : string) :
  has_char "{" text = false → from_first_brace text = None.
Proof.
  induction text as [|c text IH]; simpl; [done|].
  intros [Hc Htext]%orb_false_iff. rewrite Hc. by apply IH.
Qed.

Lemma upto_last_brace_none (post : string) :
  has_char "}" post = false → upto_last_brace post = None.
Proof.
  induction post as [|c post IH]; simpl; [done|].
  intros [Hc Hpost]%orb_false_iff. by rewrite IH, Hc.
Qed.

Lemma upto_last_brace_cut (body post : string) :
  has_char "}" post = false →
  upto_last_brace (body +:+ String "}" post) = Some (body +:+ "}").
Proof.
  intros Hpost. induction body as [|c body IH]; simpl.
  - by rewrite (upto_last_brace_none post Hpost).
  - by rewrite IH.
Qed.

Lemma from_first_brace_suffix (text js : string) :
  from_first_brace text = Some js →
  ∃ pre rest, text = pre +:+ String "{" rest ∧ js = String "{" rest
              ∧ has_char "{" pre = false.
Proof.
  induction text as [|c text IH]; simpl; [done|].
  destruct (Ascii.eqb c "{") eqn:Hc.
  - intros [= <-]. apply Ascii.eqb_eq in Hc as ->.
    by exists "", text.
  - intros (pre & rest & -> & -> & Hpre)%IH.
    exists (String c pre), rest. simpl. by rewrite Hc, Hpre.
Qed.

Lemma upto_last_brace_prefix (text js : string) :
  upto_last_brace text = Some js →
  ∃ body post, text = body +:+ String "}" post ∧ js = body +:+ "}"
               ∧ has_char "}" post = false.
Proof.
  revert js. induction text as [|c text IH]; simpl; intros js; [done|].
  destruct (upto_last_brace text) as [t|] eqn:Ht.
  - intros [= <-]. destruct (IH t eq_refl) as (body & post & -> & -> & Hp).
    by exists (String c body), post.
  - destruct (Ascii.eqb c "}") eqn:Hc; [|done].
    intros [= <-]. apply Ascii.eqb_eq in Hc as ->.
    exists "", text. repeat split.
    clear IH. induction text as [|c text IH]; simpl in *; [done|].
    destruct (upto_last_brace text); [done|].
    destruct (Ascii.eqb c "}"); [done|]. by rewrite IH.
Qed.

(** X9. [_parse_llm_response] hands to [json.loads] the part of the answer
    from its first opening brace to its last closing brace, and nothing
    else: the prose before and after a JSON object is dropped. An answer
    with no opening brace, or with no closing brace after the first opening
    one, gives [None] without [json.loads] being asked. *)
Theorem _parse_llm_response_object (pre body post : string) :
  has_char "{" pre = false →
  has_char "}" post = false →
  _parse_llm_response json_loads (pre +:+ "{" +:+ body +:+ "}" +:+ post)
  = json_loads ("{" +:+ body +:+ "}")
  ∧ _parse_llm_response json_loads pre = None
  ∧ _parse_llm_response json_loads (pre +:+ "{" +:+ post) = None
  ∧ (∀ text data,
       _parse_llm_response json_loads text = Some data →
       ∃ pre' body' post',
         text = pre' +:+ "{" +:+ body' +:+ "}" +:+ post'
         ∧ has_char "{" pre' = false ∧ has_char "}" post' = false
         ∧ json_loads ("{" +:+ body' +:+ "}") = Some data).
Proof.
  intros Hpre Hpost. unfold _parse_llm_response, json_match.
  split; [|split; [|split]].
  - change ("{" +:+ body +:+ "}" +:+ post)
      with (String "{" (body +:+ String "}" post)).
    rewrite from_first_brace_skip by done. simpl.
    by rewrite upto_last_brace_cut.
  - by rewrite from_first_brace_none.
  - change ("{" +:+ post) with (String "{" post).
    rewrite from_first_brace_skip by done. simpl.
    by rewrite upto_last_brace_none.
  - intros text data Hdata.
    destruct (from_first_brace text) as [t|] eqn:Ht; [|done].
    simpl in Hdata.
    destruct (upto_last_brace t) as [js|] eqn:Hjs; [|done].
    simpl in Hdata.
    apply from_first_brace_suffix in Ht as (pre' & rest & -> & -> & Hp).
    simpl in Hjs.
    destruct (upto_last_brace rest) as [r|] eqn:Hrest.
    + injection Hjs as <-.
      apply upto_last_brace_prefix in Hrest as (body' & post' & -> & -> & Hq).
      by exists pre', body', post'.
    + done.
Qed.

End Bounds.

(** *** Category suggestion *)

Section Categories.

Variable lower : string → string.

Lemma category_names_distinct (query : string) (keywords : list string) :
  NoDup (fst <$> category_scores lower query keywords).
Proof.
  unfold category_scores. rewrite <- list_fmap_compose.
  apply (bool_decide_unpack _). vm_compute. exact I.
Qed.

(** X10. [suggest_categories] returns at most three categories, all
    different, each a category of the table with a positive score. A
    category with a positive score is left out only when three categories
    are returned and none of them has a lower score. *)
Theorem suggest_categories_best (query : string) (keywords : list string) :
  let result := suggest_categories lower query keywords in
  let scores := category_scores lower query keywords in
  (length result ≤ 3)%nat
  ∧ NoDup result
  ∧ (∀ c, c ∈ result → ∃ s, (c, s) ∈ scores ∧ (0 < s)%nat)
  ∧ (∀ c s, (c, s) ∈ scores → (0 < s)%nat → c ∉ result →
            length result = 3%nat
            ∧ ∀ c' s', c' ∈ result → (c', s') ∈ scores → (s ≤ s')%nat).
Proof.
  cbv zeta. unfold suggest_categories.
  set (scores := category_scores lower query keywords).
  set (suggested := filter (fun cs => 0 < cs.2) scores).
  set (key := fun cs : string * nat => inject_Z (Z.of_nat cs.2)).
  pose proof (Retrieval.sorted_descending_perm key suggested) as Hperm.
  pose proof (Retrieval.sorted_descending_sorted key suggested) as Hsorted.
  set (sorted := Retrieval.sorted_descending key suggested) in *.
  assert (Hnodup : NoDup (fst <$> sorted)).
  { rewrite Hperm. apply (sublist_NoDup _ (fst <$> scores)).
    - apply category_names_distinct.
    - apply fmap_sublist, sublist_filter. }
  assert (Hin : ∀ cs, cs ∈ sorted ↔ cs ∈ scores ∧ 0 < cs.2).
  { intros cs. rewrite Hperm. unfold suggested.
    rewrite list_elem_of_filter. tauto. }
  split; [rewrite length_fmap, length_take; lia|].
  split.
  { apply (sublist_NoDup _ (fst <$> sorted)); [exact Hnodup|].
    apply fmap_sublist, sublist_take. }
  split.
  { intros c ([c' s] & -> & Hcs)%list_elem_of_fmap.
    apply (λ H, elem_of_sublist _ _ _ H (sublist_take sorted 3)) in Hcs.
    apply Hin in Hcs as [Hcs Hpos]. by exists s. }
  intros c s Hcs Hpos Hout.
  assert (Hs : (c, s) ∈ sorted) by (by apply Hin).
  rewrite <- (take_drop 3 sorted) in Hs, Hsorted.
  apply elem_of_app in Hs as [Hs|Hs].
  { destruct Hout. apply list_elem_of_fmap. by exists (c, s). }
  split.
  { rewrite length_fmap, length_take.
    destruct (drop 3 sorted) eqn:Hdrop; [by apply elem_of_nil in Hs|].
    assert (length (drop 3 sorted) ≠ 0)%nat by (by rewrite Hdrop).
    rewrite length_drop in *. lia. }
  intros c' s' ([c'' s''] & -> & Hcs')%list_elem_of_fmap Hscore.
  simpl in Hscore.
  assert (s'' = s') as ->.
  { assert (Hc : (c'', s'') ∈ scores).
    { apply (λ H, elem_of_sublist _ _ _ H (sublist_take sorted 3)) in Hcs'.
      by apply Hin in Hcs' as [? _]. }
    pose proof (category_names_distinct query keywords) as Hnd.
    fold scores in Hnd.
    pose proof (elem_of_list_to_map_1 (M := gmap string) _ _ _ Hnd Hc) as H1.
    pose proof (elem_of_list_to_map_1 (M := gmap string) _ _ _ Hnd Hscore)
      as H2.
    congruence. }
  pose proof (StronglySorted_app_1_elem_of _ _ _ _ _ Hsorted Hcs' Hs) as Hle.
  unfold Retrieval.descending, key in Hle. simpl in Hle.
  rewrite <- Zle_Qle in Hle. lia.
Qed.

End Categories.

(** A run on a query about research, with an LLM answer that wraps its
    JSON object in prose. *)
Definition scoring_loads (js : string) : option LLMData :=
  if String.eqb js "{score}"
  then Some (mkLLMData None None None None (Some (Some (9 # 10)%Q)) None
               None false)
  else None.

Definition scoring_answer (prompt : string) : option string :=
  Some "Analysis: {score} End.".

Lemma analyze_query_complexity_range_example :
  (0 <= complexity_score
          (analyze_query (fun _ _ => []) (fun l => l) (fun q => q)
             scoring_answer scoring_loads "如何比较两份报告？") <= 1)%Q.
Proof.
  apply (analyze_query_complexity_range (fun _ _ => []) (fun l => l)
           (fun q => q) scoring_answer scoring_loads).
  intros d v Hd Hv.
  assert (Hdata : _llm_analysis (fun q => q) scoring_answer scoring_loads
                    "如何比较两份报告？"
                  = scoring_loads "{score}") by reflexivity.
  rewrite Hdata in Hd. simpl in Hd. injection Hd as <-.
  simpl in Hv. injection Hv as <-. split; discriminate.
Defined.

Lemma _parse_llm_response_object_example :
  _parse_llm_response scoring_loads "Analysis: {score} End."
  = scoring_loads "{score}".
Proof.
  apply (_parse_llm_response_object scoring_loads "Analysis: " "score"
           " End."); reflexivity.
Defined.

End AnalyzerBounds.

(** ** Search history and statistics ([retrieval_service.py],
    [api/retrieval.py]) *)

Module SearchStatistics.

Import Retrieval.

(** [Counter]: a dictionary from an element to its count, in the order the
    elements were first met. *)
Fixpoint counter_add (x : string) (c : list (string * nat))
    : list (string * nat) :=
  match c with
  | [] => [(x, 1%nat)]
  | (y, n) :: c' =>
      if decide (y = x) then (y, S n) :: c' else (y, n) :: counter_add x c'
  end.

Definition Counter (l : list string) : list (string * nat) :=
  foldl (fun c x => counter_add x c) [] l.

(** [Counter.most_common(n)]: [heapq.nlargest(n, items, key=count)], that
    is [sorted(items, key=count, reverse=True)[:n]]. *)
Definition most_common (n : nat) (c : list (string * nat))
    : list (string * nat) :=
  take n (sorted_descending (fun kv => inject_Z (Z.of_nat kv.2)) c).

(** The dictionary [get_search_statistics] returns; the early return for an
    empty history has no [cache_size] key. *)
Record Statistics := mkStatistics {
  total_searches : nat;
  popular_queries : list (string * nat);
  search_trends : list (string * nat);
  cache_size : option nat
}.

(** [get_search_statistics]; [strftime] prints the day of a timestamp. *)
Definition get_search_statistics (strftime : Z → string)
    (self : RetrievalService) : Statistics :=
  match search_history self with
  | [] => mkStatistics 0 [] [] None
  | _ =>
      let query_counter := Counter (history_query <$> search_history self) in
      let popular_queries := most_common 10 query_counter in
      let search_trends :=
        foldl (fun trends item =>
                 counter_add (strftime (history_timestamp item)) trends)
          [] (search_history self) in
      mkStatistics (length (search_history self)) popular_queries
        search_trends (Some (size (query_cache self)))
  end.

(** [SearchStatisticsResponse], by the fields the endpoint sets. *)
Record SearchStatisticsResponse := mkSearchStatisticsResponse {
  response_total_searches : nat;
  response_popular_queries : list (string * nat);
  response_search_trends : list (string * nat);
  response_cache_size : nat
}.

(** The endpoint [get_search_statistics] of [api/retrieval.py]: the
    [KeyError] of a missing key is caught and becomes a 500. *)
Definition statistics_endpoint (strftime : Z → string)
    (self : RetrievalService) : HTTPException + SearchStatisticsResponse :=
  let stats := get_search_statistics strftime self in
  match cache_size stats with
  | Some n =>
      inr (mkSearchStatisticsResponse (total_searches stats)
             (popular_queries stats) (search_trends stats) n)
  | None => inl (mkHTTPException 500 "获取统计信息失败: 'cache_size'")
  end.

(** The number of occurrences of a string. *)
Definition occurrences (x : string) (l : list string) : nat :=
  length (filter (fun y => y = x) l).

(** The searches recorded one after the other. *)
Definition record_all (searches : list (string * Z))
    (self : RetrievalService) : RetrievalService :=
  foldl (fun self s => _record_search_history s.1 s.2 self) self searches.

(** *** The history *)

Lemma _record_search_history_length (q : string) (now : Z)
    (self : RetrievalService) :
  (length (search_history self) ≤ 1000)%nat →
  length (search_history (_record_search_history q now self))
  = (if decide (length (search_history self) = 1000)%nat then 500
     else S (length (search_history self)))%nat.
Proof.
  intros Hlen. unfold _record_search_history. cbn [search_history].
  rewrite length_app. simpl.
  repeat case_decide; try lia;
    rewrite ?length_drop, ?length_app; simpl; lia.
Qed.

(** X11. The search history never holds more than 1000 entries: the entry
    that would be the 1001st cuts it to its last 500. The entries kept are
    always the most recent ones, in order, and the last is the search just
    recorded; the cache is not touched. *)
Theorem search_history_bounded (searches : list (string * Z)) (q : string)
    (now : Z) :
  let self := record_all searches init in
  let self' := _record_search_history q now self in
  (length (search_history self') ≤ 1000)%nat
  ∧ (1 ≤ length (search_history self'))%nat
  ∧ last (search_history self') = Some (mkHistoryItem q now)
  ∧ search_history self'
    `suffix_of` ((fun s => mkHistoryItem s.1 s.2) <$> searches ++ [(q, now)])
  ∧ (length (search_history self) = 1000%nat →
     length (search_history self') = 500%nat)
  ∧ (length (search_history self) < 1000 →
     search_history self' = search_history self ++ [mkHistoryItem q now])
  ∧ query_cache self' = query_cache init.
Proof.
  cbv zeta.
  assert (Hinv : ∀ searches self,
            (length (search_history self) ≤ 1000)%nat →
            (length (search_history (record_all searches self)) ≤ 1000)%nat
            ∧ search_history (record_all searches self)
              `suffix_of` (search_history self
                           ++ ((fun s => mkHistoryItem s.1 s.2) <$> searches))
            ∧ query_cache (record_all searches self) = query_cache self).
  { clear. induction searches as [|[q now] searches IH]; intros self Hlen.
    - simpl. rewrite app_nil_r. done.
    - change (record_all ((q, now) :: searches) self)
        with (record_all searches (_record_search_history q now self)).
      pose proof (_record_search_history_length q now self Hlen) as Hl.
      destruct (IH (_record_search_history q now self)) as (H1 & H2 & H3).
      { rewrite Hl. case_decide; lia. }
      split; [done|]. split; [|by rewrite H3].
      etrans; [exact H2|].
      rewrite fmap_cons, cons_middle, app_assoc.
      apply suffix_app. clear.
      unfold _record_search_history. cbn [search_history fst snd].
      case_decide; [apply suffix_drop|done]. }
  destruct (Hinv searches init) as (Hlen & Hsuf & Hcache); [simpl; lia|].
  set (self := record_all searches init) in *.
  pose proof (_record_search_history_length q now self Hlen) as Hl.
  split; [rewrite Hl; case_decide; lia|].
  split; [rewrite Hl; case_decide; lia|].
  split.
  { clear Hl. unfold _record_search_history. cbn [search_history].
    case_decide as Hbig; [|apply last_snoc].
    rewrite length_app in *. simpl in *.
    rewrite drop_app_le by lia. apply last_snoc. }
  split.
  { unfold _record_search_history at 1. cbn [search_history].
    rewrite fmap_app. simpl.
    etrans; [|apply suffix_app, Hsuf].
    clear. case_decide; [apply suffix_drop|done]. }
  split; [intros H; rewrite Hl; by rewrite decide_True|].
  split; [|done].
  intros Hlt. unfold _record_search_history. cbn [search_history].
  rewrite decide_False; [done|]. rewrite length_app. simpl. lia.
Qed.

(** *** Counting *)

Lemma counter_add_keys (x : string) (c : list (string * nat)) :
  NoDup (c.*1) →
  NoDup ((counter_add x c).*1)
  ∧ ∀ y n, (y, n) ∈ counter_add x c ↔
           (y = x ∧ (((y ∉ c.*1) ∧ n = 1%nat)
                     ∨ ∃ m, (y, m) ∈ c ∧ n = S m))
           ∨ (y ≠ x ∧ (y, n) ∈ c).
Proof.
  assert (Hfst : ∀ (y : string) (n : nat) (l : list (string * nat)),
            (y, n) ∈ l → y ∈ l.*1).
  { intros y n l Hin. apply list_elem_of_fmap. by exists (y, n). }
  induction c as [|[z k] c IH]; intros Hnd.
  - split; [apply NoDup_singleton|].
    intros y n. simpl. split.
    + intros [= -> ->]%list_elem_of_singleton. left. split; [done|].
      left. split; [apply not_elem_of_nil|done].
    + intros [[-> [[_ ->]|(m & Hm & _)]]|[_ H]].
      * by apply list_elem_of_singleton.
      * by apply elem_of_nil in Hm.
      * by apply elem_of_nil in H.
  - rewrite fmap_cons in Hnd. apply NoDup_cons in Hnd as [Hz Hnd].
    cbn [fst] in Hz.
    destruct (IH Hnd) as [IH1 IH2]. cbn [counter_add].
    destruct (decide (z = x)) as [->|Hzx].
    + split; [rewrite fmap_cons; by apply NoDup_cons|].
      intros y n. split.
      * intros [[= -> ->]|Hin]%elem_of_cons.
        -- left. split; [done|]. right. exists k. split; [by left|done].
        -- right. split; [|by right].
           intros ->. by apply Hz, (Hfst x n).
      * intros [[-> [[Hout _]|(m & Hm & ->)]]|[Hne Hin]].
        -- destruct Hout. rewrite fmap_cons. by left.
        -- apply elem_of_cons in Hm as [[= ->]|Hm]; [by left|].
           destruct Hz. by apply (Hfst x m).
        -- apply elem_of_cons in Hin as [[= -> ->]|Hin]; [done|by right].
    + split.
      * rewrite fmap_cons. apply NoDup_cons. split; [|done].
        cbn [fst].
        intros ([y n] & Hy & Hin)%list_elem_of_fmap. simpl in Hy. subst y.
        apply IH2 in Hin as [[-> _]|[_ Hin]]; [done|].
        by apply Hz, (Hfst z n).
      * intros y n. split.
        -- intros [[= -> ->]|Hin]%elem_of_cons.
           ++ right. split; [done|by left].
           ++ apply IH2 in Hin as [[-> [[Hout ->]|(m & Hm & ->)]]|[Hne Hin]].
              ** left. split; [done|]. left. split; [|done].
                 rewrite fmap_cons. intros [H|H]%elem_of_cons; [|done].
                 by cbn [fst] in H.
              ** left. split; [done|]. right. exists m.
                 split; [by right|done].
              ** right. split; [done|by right].
        -- intros [[-> [[Hout ->]|(m & Hm & ->)]]|[Hne Hin]].
           ++ right. apply IH2. left. split; [done|]. left. split; [|done].
              intros H. apply Hout. rewrite fmap_cons. by right.
           ++ apply elem_of_cons in Hm as [[= -> ->]|Hm]; [done|].
              right. apply IH2. left. split; [done|]. right. by exists m.
           ++ apply elem_of_cons in Hin as [[= -> ->]|Hin]; [by left|].
              right. apply IH2. right. done.
Qed.

Lemma counter_add_total (x : string) (c : list (string * nat)) :
  sum_list (counter_add x c).*2 = S (sum_list c.*2).
Proof.
  induction c as [|[z k] c IH]; [done|].
  cbn [counter_add]. case_decide.
  - rewrite !fmap_cons. cbn [snd].
    change (S k + sum_list c.*2 = S (k + sum_list c.*2))%nat. lia.
  - rewrite !fmap_cons. cbn [snd].
    change (k + sum_list (counter_add x c).*2 = S (k + sum_list c.*2))%nat.
    rewrite IH. lia.
Qed.

Lemma Counter_counts (l : list string) :
  NoDup (Counter l).*1
  ∧ (∀ y n, (y, n) ∈ Counter l ↔ n = occurrences y l ∧ (0 < n)%nat)
  ∧ sum_list (Counter l).*2 = length l.
Proof.
  unfold Counter. induction l as [|x l IH] using rev_ind.
  - simpl. split; [constructor|]. split; [|done].
    intros y n. split; [by intros H%elem_of_nil|].
    unfold occurrences. simpl. lia.
  - rewrite foldl_app. simpl. destruct IH as (Hnd & Hcount & Hsum).
    destruct (counter_add_keys x _ Hnd) as [Hnd' Hin].
    split; [done|]. split.
    + intros y n. rewrite Hin. unfold occurrences in *.
      rewrite filter_app, length_app.
      destruct (decide (y = x)) as [->|Hne].
      * rewrite filter_cons_True by done. simpl. split.
        -- intros [[_ [[Hout ->]|(m & Hm & ->)]]|[? _]]; [| |done].
           ++ split; [|lia].
              destruct (length (filter (λ y, y = x) l)) as [|k] eqn:Hk;
                [done|].
              destruct Hout. apply list_elem_of_fmap.
              exists (x, S k). split; [done|]. apply Hcount.
              split; [done|lia].
           ++ apply Hcount in Hm as [-> _]. split; lia.
        -- intros [-> _]. left. split; [done|].
           destruct (length (filter (λ y, y = x) l)) as [|k] eqn:Hk.
           ++ left. split; [|done].
              intros ([y m] & Hy & Hm)%list_elem_of_fmap. simpl in Hy.
              subst y. apply Hcount in Hm as [-> Hpos]. lia.
           ++ right. exists (S k). split; [|lia].
              apply Hcount. split; [done|lia].
      * rewrite filter_cons_False by done. simpl. rewrite Nat.add_0_r.
        rewrite <- Hcount. split.
        -- intros [[? _]|[_ H]]; done.
        -- intros H. by right.
    + rewrite counter_add_total, Hsum, length_app. simpl. lia.
Qed.

Lemma StronglySorted_weaken {A : Type} (R R' : relation A) (l : list A) :
  (∀ a b, R a b → R' a b) → StronglySorted R l → StronglySorted R' l.
Proof.
  intros HR. induction 1 as [|a l Hs IH Hall]; constructor; [done|].
  eapply Forall_impl; [exact Hall|]. intros b. apply HR.
Qed.

Section Statistics.

Variable strftime : Z → string.

(** X12. For a history that is not empty, [get_search_statistics] counts
    every recorded search once: the total is the length of the history and
    the counts of the days add up to it. The popular queries are at most
    ten, all different, each with the number of times it was searched, in
    descending order of that number; a query is left out only when ten are
    listed and none of them was searched less often. *)
Theorem get_search_statistics_counts (self : RetrievalService) :
  search_history self ≠ [] →
  let stats := get_search_statistics strftime self in
  let queries := history_query <$> search_history self in
  total_searches stats = length (search_history self)
  ∧ sum_list (search_trends stats).*2 = total_searches stats
  ∧ cache_size stats = Some (size (query_cache self))
  ∧ (length (popular_queries stats) ≤ 10)%nat
  ∧ NoDup (popular_queries stats).*1
  ∧ (∀ q n, (q, n) ∈ popular_queries stats →
            n = occurrences q queries ∧ (0 < n)%nat)
  ∧ StronglySorted (fun a b => (b.2 ≤ a.2)%nat) (popular_queries stats)
  ∧ (∀ q, q ∈ queries → q ∉ (popular_queries stats).*1 →
          length (popular_queries stats) = 10%nat
          ∧ ∀ q' n', (q', n') ∈ popular_queries stats →
                     (occurrences q queries ≤ n')%nat).
Proof.
  intros Hne. cbv zeta. unfold get_search_statistics.
  destruct (search_history self) as [|item items] eqn:Hhist; [done|].
  rewrite <- Hhist. clear Hne.
  cbn [total_searches search_trends cache_size popular_queries].
  set (history := search_history self).
  set (queries := history_query <$> history).
  destruct (Counter_counts queries) as (Hnd & Hcount & Hsum).
  set (key := fun kv : string * nat => inject_Z (Z.of_nat kv.2)).
  unfold most_common. fold key.
  pose proof (sorted_descending_perm key (Counter queries)) as Hperm.
  pose proof (sorted_descending_sorted key (Counter queries)) as Hsorted.
  set (sorted := sorted_descending key (Counter queries)) in *.
  split; [done|]. split.
  { destruct (Counter_counts (strftime <$> (history_timestamp <$> history)))
      as (_ & _ & Hdays).
    unfold Counter in Hdays. rewrite !length_fmap in Hdays.
    rewrite <- Hdays. f_equal. f_equal.
    clear. generalize (@nil (string * nat)).
    induction history as [|h hs IH]; intros acc; simpl; [done|]. apply IH. }
  split; [done|].
  split; [rewrite length_take; lia|].
  split.
  { apply (sublist_NoDup _ (sorted.*1)); [by rewrite Hperm|].
    apply fmap_sublist, sublist_take. }
  split.
  { intros q n Hin. apply Hcount. rewrite <- Hperm.
    eapply elem_of_sublist; [exact Hin|apply sublist_take]. }
  split.
  { apply (StronglySorted_app_1_l _ _ (drop 10 sorted)).
    rewrite take_drop.
    eapply StronglySorted_weaken; [|exact Hsorted].
    intros a b. unfold descending, key. rewrite <- Zle_Qle. lia. }
  intros q Hq Hout.
  assert (Hpos : (0 < occurrences q queries)%nat).
  { unfold occurrences.
    apply list_elem_of_In, in_split in Hq as (l1 & l2 & ->).
    rewrite filter_app, filter_cons_True, length_app by done. simpl. lia. }
  assert (Hin : (q, occurrences q queries) ∈ sorted).
  { rewrite Hperm. apply Hcount. done. }
  rewrite <- (take_drop 10 sorted) in Hin, Hsorted.
  apply elem_of_app in Hin as [Hin|Hin].
  { destruct Hout. apply list_elem_of_fmap. by eexists (_, _). }
  split.
  { rewrite length_take.
    destruct (drop 10 sorted) eqn:Hdrop; [by apply elem_of_nil in Hin|].
    assert (length (drop 10 sorted) ≠ 0)%nat by (by rewrite Hdrop).
    rewrite length_drop in *. lia. }
  intros q' n' Hq'.
  pose proof (StronglySorted_app_1_elem_of _ _ _ _ _ Hsorted Hq' Hin) as Hle.
  unfold descending, key in Hle. simpl in Hle.
  rewrite <- Zle_Qle in Hle. lia.
Qed.

(** X13. The statistics endpoint answers with a 500 exactly when no search
    has been recorded yet: the statistics of an empty history have no
    [cache_size] entry, which the endpoint reads. Otherwise it passes on the
    total, the popular queries, the trends and the size of the cache. *)
Theorem statistics_endpoint_empty_history (self : RetrievalService) :
  (search_history self = [] →
   statistics_endpoint strftime self
   = inl (mkHTTPException 500 "获取统计信息失败: 'cache_size'"))
  ∧ (search_history self ≠ [] →
     let stats := get_search_statistics strftime self in
     statistics_endpoint strftime self
     = inr (mkSearchStatisticsResponse (length (search_history self))
              (popular_queries stats) (search_trends stats)
              (size (query_cache self))))
  ∧ (∀ q now,
       is_Some (cache_size
                  (get_search_statistics strftime
                     (_record_search_history q now self)))).
Proof.
  unfold statistics_endpoint, get_search_statistics. split; [|split].
  - by intros ->.
  - intros Hne. by destruct (search_history self).
  - intros q now. unfold _record_search_history. cbn [search_history].
    set (history := search_history self ++ [mkHistoryItem q now]).
    assert (Hlen : length history = S (length (search_history self))).
    { unfold history. rewrite length_app. simpl. lia. }
    case_decide.
    + destruct (drop (length history - 500) history) eqn:Hd; [|done].
      assert (length (drop (length history - 500) history) = 0)%nat
        by (by rewrite Hd).
      rewrite length_drop in *. lia.
    + by destruct history.
Qed.

End Statistics.

Lemma get_search_statistics_counts_example :
  let self := record_all [("rocq", 1%Z); ("python", 2%Z); ("rocq", 3%Z)] init in
  let stats := get_search_statistics (fun _ => "2026-01-01") self in
  total_searches stats = 3%nat
  ∧ sum_list (search_trends stats).*2 = total_searches stats.
Proof.
  cbv zeta.
  pose proof (get_search_statistics_counts (fun _ => "2026-01-01")
                (record_all [("rocq", 1%Z); ("python", 2%Z); ("rocq", 3%Z)]
                   init)) as H.
  destruct H as (H1 & H2 & _); [discriminate|].
  split; [exact H1|exact H2].
Defined.

End SearchStatistics.

(** ** The calls of a search and the keyword pass ([retrieval_service.py]) *)

Module SearchFlow.

Import Retrieval.

#[global] Instance Event_eq_dec : EqDecision Event.
Proof. solve_decision. Defined.

(** The events of the embedding service and the vector store, of the
    keyword pass, and of the cache insertion. *)
Definition is_vector_call (e : Event) : bool :=
  match e with EmbeddingCall _ | VectorQuery _ => true | _ => false end.

Definition is_embedding (e : Event) : bool :=
  match e with EmbeddingCall _ => true | _ => false end.

Definition is_keyword_scan (e : Event) : bool :=
  match e with KeywordScan _ => true | _ => false end.

Definition is_cache_store (e : Event) : bool :=
  match e with CacheStore _ => true | _ => false end.

Section Flow.

Variable env : Environment.

Lemma _semantic_search_events (q : string) (n : Z) (doc_ids : list string) :
  (_semantic_search env q n doc_ids).2 = [EmbeddingCall q]
  ∨ (_semantic_search env q n doc_ids).2 = [EmbeddingCall q; VectorQuery n].
Proof.
  unfold _semantic_search.
  destruct (generate_embedding env q) as [e|]; [|by left].
  destruct (search_similar_chunks env e n doc_ids); by right.
Qed.

Lemma _keyword_search_events (q : string) (n : Z)
    (documents : list Document) :
  (_keyword_search env q n documents).2 = []
  ∨ (_keyword_search env q n documents).2 = [KeywordScan (length documents)].
Proof.
  unfold _keyword_search.
  destruct (_extract_keywords env q); [by left|].
  destruct (mapM _ _); by right.
Qed.

Lemma _get_cached_result_history (k : string) (now : Z)
    (self : RetrievalService) :
  search_history (_get_cached_result k now self).2 = search_history self
  ∧ cache_ttl (_get_cached_result k now self).2 = cache_ttl self.
Proof.
  unfold _get_cached_result.
  destruct (query_cache self !! k); [|done]. by case_decide.
Qed.

(** X14. Every call of [hybrid_search] records the query in the history
    once and then looks the cache up, before anything else. A call with
    the semantic pass switched off never reaches the embedding service or
    the vector store, a call with the keyword pass switched off never scans
    the documents, and no call embeds the query more than once. Only a
    successful response is put in the cache, as the last step: a failure
    and the response for an empty candidate list leave the cache as the
    lookup left it. *)
Theorem hybrid_search_calls (a : SearchArgs) (clock : Clock)
    (self : RetrievalService) :
  let '(response, self', events) := hybrid_search env a clock self in
  let recorded :=
    _record_search_history (arg_query a) (history_time clock) self in
  let looked_up :=
    (_get_cached_result (cache_key_of env a) (lookup_time clock) recorded).2 in
  (∃ rest,
     events = HistoryRecorded (arg_query a)
              :: CacheLookup (cache_key_of env a) :: rest
     ∧ (enable_semantic_search a = false →
        Forall (fun e => is_vector_call e = false) rest)
     ∧ (enable_keyword_search a = false →
        Forall (fun e => is_keyword_scan e = false) rest)
     ∧ (length (filter (fun e => is_embedding e = true) rest) ≤ 1)%nat
     ∧ (Forall (fun e => is_cache_store e = false) rest
        ∧ self' = looked_up
        ∨ ∃ calls, rest = calls ++ [CacheStore (cache_key_of env a)]
                   ∧ Forall (fun e => is_cache_store e = false) calls
                   ∧ success response = true
                   ∧ self' = _cache_result (cache_key_of env a) response
                               (store_time clock) (cleanup_time clock)
                               looked_up))
  ∧ search_history self' = search_history recorded
  ∧ cache_ttl self' = cache_ttl self
  ∧ (success response = false ∨ message response ≠ None →
     self' = looked_up).
Proof.
  unfold hybrid_search.
  set (recorded := _record_search_history (arg_query a) (history_time clock)
                     self).
  pose proof (_get_cached_result_history (cache_key_of env a)
                (lookup_time clock) recorded) as [Hh Ht].
  destruct (_get_cached_result (cache_key_of env a) (lookup_time clock)
              recorded) as [cached looked_up] eqn:Hlook.
  cbn [snd] in Hh, Ht.
  assert (Httl : cache_ttl recorded = cache_ttl self) by done.
  assert (Hstate : ∀ self', search_history self' = search_history looked_up →
                           cache_ttl self' = cache_ttl looked_up →
                           search_history self' = search_history recorded
                           ∧ cache_ttl self' = cache_ttl self).
  { intros self' -> ->. by rewrite Hh, Ht. }
  destruct cached as [response|].
  { cbv zeta. split; [|split; [by rewrite Hh|split; [by rewrite Ht|done]]].
    exists []. split; [done|]. split; [constructor|]. split; [constructor|].
    split; [simpl; lia|]. left. split; [constructor|done]. }
  destruct (get_candidate_documents env (document_ids a) (document_types a)
              (date_range a) (arg_tags a)) as [|doc docs] eqn:Hdocs.
  { cbv zeta. split; [|split; [by rewrite Hh|split; [by rewrite Ht|done]]].
    exists [CandidateFetch]. split; [done|].
    split; [by repeat constructor|]. split; [by repeat constructor|].
    split; [simpl; lia|]. left. split; [by repeat constructor|done]. }
  set (documents := doc :: docs) in *.
  pose proof (_semantic_search_events (arg_query a) (n_results a * 2)
                (id <$> documents)) as Hsem.
  pose proof (_keyword_search_events (arg_query a) (n_results a * 2)
                documents) as Hkw.
  destruct (_semantic_search env (arg_query a) (n_results a * 2)
              (id <$> documents)) as [semantic_results semantic_events].
  destruct (_keyword_search env (arg_query a) (n_results a * 2) documents)
    as [keyword_results keyword_events].
  cbn [snd] in Hsem, Hkw.
  set (passes := (if enable_semantic_search a
                  then (semantic_results, semantic_events) else ([], []))).
  set (scans := (if enable_keyword_search a
                 then (keyword_results, keyword_events) else ([], []))).
  assert (Hpasses : passes.2 = [] ∧ enable_semantic_search a = false
                    ∨ enable_semantic_search a = true
                      ∧ (passes.2 = [EmbeddingCall (arg_query a)]
                         ∨ passes.2 = [EmbeddingCall (arg_query a);
                                       VectorQuery (n_results a * 2)])).
  { unfold passes. destruct (enable_semantic_search a); [right|left]; done. }
  assert (Hscans : scans.2 = [] ∨ enable_keyword_search a = true
                                  ∧ scans.2 = [KeywordScan (length documents)]).
  { unfold scans. destruct (enable_keyword_search a); [|by left].
    destruct Hkw as [->| ->]; [by left|by right]. }
  destruct passes as [semantic_found e1], scans as [keyword_found e2].
  cbn [snd] in Hpasses, Hscans.
  assert (Hcalls :
            (enable_semantic_search a = false →
             Forall (fun e => is_vector_call e = false)
               (CandidateFetch :: e1 ++ e2))
            ∧ (enable_keyword_search a = false →
               Forall (fun e => is_keyword_scan e = false)
                 (CandidateFetch :: e1 ++ e2))
            ∧ (length (filter (fun e => is_embedding e = true)
                         (CandidateFetch :: e1 ++ e2)) ≤ 1)%nat
            ∧ Forall (fun e => is_cache_store e = false)
                (CandidateFetch :: e1 ++ e2)).
  { destruct Hpasses as [[-> Hs]|[Hs [-> | ->]]];
      destruct Hscans as [-> |[Hk ->]]; cbn [app].
      all: split; [intros; first [congruence | by repeat constructor]|].
      all: split; [intros; first [congruence | by repeat constructor]|].
      all: split; [vm_compute; lia|by repeat constructor]. }
  destruct Hcalls as (Hc1 & Hc2 & Hc3 & Hc4).
  destruct (rank_results _ _ _ _ _ _ _ _ _) as [ranked|].
  - split; [|split; [exact Hh|split; [by rewrite <- Httl, <- Ht|]]].
    + exists ((CandidateFetch :: e1 ++ e2)
              ++ [CacheStore (cache_key_of env a)]).
      split; [reflexivity|].
      split.
      { intros Hs. apply Forall_app.
        split; [by apply Hc1|by repeat constructor]. }
      split.
      { intros Hk. apply Forall_app.
        split; [by apply Hc2|by repeat constructor]. }
      split.
      { rewrite filter_app, length_app.
        change (filter (λ e, is_embedding e = true)
                  [CacheStore (cache_key_of env a)]) with (@nil Event).
        simpl length at 2. rewrite Nat.add_0_r. exact Hc3. }
      right. exists (CandidateFetch :: e1 ++ e2). done.
    + cbn [success message]. intros [?|?]; done.
  - split; [|split; [by rewrite Hh|split; [by rewrite Ht|done]]].
    exists (CandidateFetch :: e1 ++ e2). split; [reflexivity|].
    split; [done|]. split; [done|]. split; [done|]. left. done.
Qed.

(** X15. The cache key is made of the query, the number of results, the
    threshold and the document id and type filters only. After a search
    that put its response in the cache, a search that agrees on these five
    arguments gets that same response for as long as the entry is young
    enough, whatever its weights, its passes, its tags, its date range and
    its other options are: it records the query, looks the cache up and
    calls nothing else. *)
Theorem hybrid_search_served_from_cache (a a' : SearchArgs)
    (clock clock' : Clock) (self self' : RetrievalService)
    (response : Response) (events : list Event) :
  hybrid_search env a clock self = (response, self', events) →
  CacheStore (cache_key_of env a) ∈ events →
  arg_query a' = arg_query a →
  n_results a' = n_results a →
  similarity_threshold a' = similarity_threshold a →
  document_ids a' = document_ids a →
  document_types a' = document_types a →
  (cleanup_time clock - store_time clock
   ≤ timedelta_seconds (cache_ttl self))%Z →
  (lookup_time clock' - store_time clock
   < timedelta_seconds (cache_ttl self))%Z →
  hybrid_search env a' clock' self'
  = (response,
     _record_search_history (arg_query a') (history_time clock') self',
     [HistoryRecorded (arg_query a'); CacheLookup (cache_key_of env a)]).
Proof.
  intros Hrun Hstore Hq Hn Hth Hids Htypes Hclean Hyoung.
  assert (Hkey : cache_key_of env a' = cache_key_of env a).
  { unfold cache_key_of. by rewrite Hq, Hn, Hth, Hids, Htypes. }
  pose proof (hybrid_search_calls a clock self) as Hcalls.
  rewrite Hrun in Hcalls.
  destruct Hcalls as ((rest & -> & _ & _ & _ & Hcache) & _ & Httl & _).
  assert (Hstored : self' = _cache_result (cache_key_of env a) response
                              (store_time clock) (cleanup_time clock)
                              (_get_cached_result (cache_key_of env a)
                                 (lookup_time clock)
                                 (_record_search_history (arg_query a)
                                    (history_time clock) self)).2).
  { destruct Hcache as [[Hnone _]|(calls & -> & _ & _ & ->)]; [|done].
    apply elem_of_cons in Hstore as [?|Hstore]; [done|].
    apply elem_of_cons in Hstore as [?|Hstore]; [done|].
    rewrite Forall_forall in Hnone. by apply Hnone in Hstore. }
  set (looked_up := (_get_cached_result _ _ _).2) in Hstored.
  assert (Httl' : cache_ttl looked_up = cache_ttl self).
  { unfold looked_up.
    by destruct (_get_cached_result_history (cache_key_of env a)
                   (lookup_time clock)
                   (_record_search_history (arg_query a)
                      (history_time clock) self)) as [_ ->]. }
  assert (Hentry : query_cache self' !! cache_key_of env a
                   = Some (mkCacheItem response (store_time clock))).
  { rewrite Hstored. unfold _cache_result.
    cbn [query_cache with_query_cache]. case_decide.
    - apply map_lookup_filter_Some. split; [apply lookup_insert_eq|].
      unfold expired. cbn [snd timestamp]. rewrite Httl'. lia.
    - apply lookup_insert_eq. }
  unfold hybrid_search. rewrite Hkey. unfold _get_cached_result.
  cbn [query_cache cache_ttl _record_search_history].
  rewrite Hentry. cbn [timestamp result]. rewrite Httl.
  by rewrite decide_True by lia.
Qed.

(** *** The keyword score *)

Lemma add_keyword_scores_bounds (text_content content_lower : string)
    (keywords : list string) :
  ∀ total_score,
    match add_keyword_scores env text_content content_lower keywords
            total_score with
    | Some score =>
        (total_score <= score)%Q
        ∧ ((total_score < score)%Q ↔
           ∃ kw, kw ∈ keywords
                 ∧ (0 < Py.count (str_lower env kw) content_lower)%nat)
    | None =>
        Py.split text_content = []
        ∧ ∃ kw, kw ∈ keywords
                ∧ (0 < Py.count (str_lower env kw) content_lower)%nat
    end.
Proof.
  induction keywords as [|kw kws IH]; intros total; cbn [add_keyword_scores].
  - split; [apply Qle_refl|]. split.
    + intros H. by apply Qlt_irrefl in H.
    + intros (kw & H%elem_of_nil & _). done.
  - destruct (Py.count (str_lower env kw) content_lower) as [|n] eqn:Hn.
    + specialize (IH total).
      destruct (add_keyword_scores env text_content content_lower kws total)
        as [score|].
      * destruct IH as [Hle Hiff]. split; [done|]. rewrite Hiff. split.
        -- intros (k & Hk & Hpos). exists k. split; [by right|done].
        -- intros (k & [->|Hk]%elem_of_cons & Hpos); [lia|]. by exists k.
      * destruct IH as [Hs (k & Hk & Hpos)]. split; [done|].
        exists k. split; [by right|done].
    + destruct (length (Py.split text_content)) as [|w] eqn:Hw.
      * split; [by destruct (Py.split text_content)|].
        exists kw. split; [by left|lia].
      * set (score := ((inject_Z (Z.of_nat (S n)) / inject_Z (Z.of_nat (S w)))
                       * (1 + inject_Z (Z.of_nat (Py.len kw)) / 10))%Q).
        assert (Hpos : (0 < score)%Q).
        { unfold score. apply Qmult_lt_0_compat.
          - apply Qlt_shift_div_l.
            + change 0%Q with (inject_Z 0). rewrite <- Zlt_Qlt. lia.
            + rewrite Qmult_0_l. change 0%Q with (inject_Z 0).
              rewrite <- Zlt_Qlt. lia.
          - pose proof (AnalyzerBounds.inject_nat_nonneg (Py.len kw)).
            unfold Qdiv. change (/ 10)%Q with (1 # 10)%Q. lra. }
        specialize (IH (total + score)%Q).
        destruct (add_keyword_scores env text_content content_lower kws
                    (total + score)%Q) as [final|].
        -- destruct IH as [Hle _]. split; [lra|]. split; [|lra].
           intros _. exists kw. split; [by left|lia].
        -- destruct IH as [Hs _]. by rewrite Hs in Hw.
Qed.

Lemma _calculate_keyword_score_bounds (text_content : string)
    (keywords : list string) :
  match _calculate_keyword_score env text_content keywords with
  | Some score =>
      (0 <= score <= 1)%Q
      ∧ ((0 < score)%Q ↔
         text_content ≠ ""
         ∧ ∃ kw, kw ∈ keywords
                 ∧ (0 < Py.count (str_lower env kw)
                          (str_lower env text_content))%nat)
  | None =>
      text_content ≠ "" ∧ Py.split text_content = []
  end.
Proof.
  unfold _calculate_keyword_score.
  destruct text_content as [|c t] eqn:Ht.
  { split; [lra|]. split; [intros H; by apply Qlt_irrefl in H|].
    by intros [? _]. }
  rewrite <- Ht. destruct keywords as [|kw kws] eqn:Hk.
  { split; [lra|]. split; [intros H; by apply Qlt_irrefl in H|].
    intros [_ (k & H%elem_of_nil & _)]. done. }
  rewrite <- Hk.
  pose proof (add_keyword_scores_bounds text_content
                (str_lower env text_content) keywords 0%Q) as H.
  destruct (add_keyword_scores env text_content (str_lower env text_content)
              keywords 0%Q) as [total|]; cbn [mbind option_bind].
  - destruct H as [Hle Hiff].
    assert (Hmin : (0 <= Py.min total 1 <= 1)%Q).
    { split; [apply AnalyzerBounds.min_nonneg; [done|lra]
             |apply AnalyzerBounds.min_le_r]. }
    split; [done|]. rewrite <- Hiff. unfold Py.min.
    destruct (Qle_bool total 1) eqn:Hb.
    + split; [intros H; split; [by rewrite Ht|done]|by intros [_ H]].
    + split; [|intros _; lra]. intros _. split; [by rewrite Ht|].
      apply Qnot_le_lt. intros Hle1.
      assert (Htrue : Qle_bool total 1 = true)
        by (apply Qle_bool_iff; lra).
      congruence.
  - destruct H as [Hs _]. split; [by rewrite Ht|done].
Qed.

(** X16. The keyword score of a text lies between 0 and 1. It is positive
    exactly when the text is not empty and one of the keywords occurs in it
    (both in lower case). The computation raises only for a text that is
    not empty and has no word. *)
Theorem _calculate_keyword_score_range (text_content : string)
    (keywords : list string) :
  match _calculate_keyword_score env text_content keywords with
  | Some score =>
      (0 <= score <= 1)%Q
      ∧ ((0 < score)%Q ↔
         text_content ≠ ""
         ∧ ∃ kw, kw ∈ keywords
                 ∧ (0 < Py.count (str_lower env kw)
                          (str_lower env text_content))%nat)
  | None =>
      text_content ≠ "" ∧ Py.split text_content = []
  end.
Proof. apply _calculate_keyword_score_bounds. Qed.

(** *** The results of the keyword pass *)

(** What a result of the keyword pass looks like. *)
Definition keyword_result (documents : list Document) (r : SearchResult)
    : Prop :=
  search_type r = Some "keyword"
  ∧ final_score r = None
  ∧ (∃ score, similarity_score r = Some score ∧ (0 < score <= 1)%Q)
  ∧ ∃ doc text_content,
      doc ∈ documents ∧ document_id r = Some (id doc)
      ∧ content doc = Some text_content ∧ text_content ≠ "".

Lemma keyword_results_of_shape (keywords : list string) (doc : Document)
    (rs : list SearchResult) :
  keyword_results_of env keywords doc = Some rs →
  (length rs ≤ 3)%nat ∧ Forall (keyword_result [doc]) rs.
Proof.
  unfold keyword_results_of.
  destruct (content doc) as [t|] eqn:Hc;
    [|intros [= <-]; split; [simpl; lia|constructor]].
  case_decide as Ht; [intros [= <-]; split; [simpl; lia|constructor]|].
  pose proof (_calculate_keyword_score_bounds t keywords) as Hscore.
  destruct (_calculate_keyword_score env t keywords) as [score|]; [|done].
  cbn [mbind option_bind]. destruct Hscore as [Hrange _].
  destruct (Py.gt score 0) eqn:Hgt;
    intros [= <-]; [|split; [simpl; lia|constructor]].
  split; [rewrite length_fmap, length_take; lia|].
  apply Forall_fmap, Forall_true. intros snippet.
  split; [done|]. split; [done|]. split.
  - exists score. split; [done|]. split; [|apply Hrange].
    unfold Py.gt in Hgt. apply negb_true_iff in Hgt.
    apply Qnot_le_lt. intros Hle. apply Qle_bool_iff in Hle. congruence.
  - exists doc, t. split; [by left|done].
Qed.

Lemma keyword_results_of_document (documents : list Document)
    (rss : list (list SearchResult)) (keywords : list string)
    (doc_id : string) :
  Forall2 (fun doc rs => keyword_results_of env keywords doc = Some rs)
    documents rss →
  (length (filter (fun r => document_id r = Some doc_id) (concat rss))
   ≤ 3 * length (filter (fun doc => id doc = doc_id) documents))%nat.
Proof.
  induction 1 as [|doc rs docs rss Hrs _ IH]; [simpl; lia|].
  apply keyword_results_of_shape in Hrs as [Hlen Hrs].
  cbn [concat]. rewrite filter_app, length_app.
  destruct (decide (id doc = doc_id)) as [Hid|Hid].
  - rewrite (filter_cons_True (fun doc => id doc = doc_id)) by done.
    pose proof (length_filter (fun r => document_id r = Some doc_id) rs).
    simpl. lia.
  - rewrite (filter_cons_False (fun doc => id doc = doc_id)) by done.
    assert (Hnone : filter (fun r => document_id r = Some doc_id) rs = []).
    { clear -Hrs Hid. induction Hrs as [|r rs Hr _ IHrs]; [done|].
      rewrite filter_cons_False; [done|].
      destruct Hr as (_ & _ & _ & d & t & ->%list_elem_of_singleton & Hd & _).
      rewrite Hd. intros [= H]. done. }
    rewrite Hnone. simpl. lia.
Qed.

(** X17. Every result of the keyword pass has the search type keyword, no
    final score, a similarity score above 0 and at most 1, and the id of
    one of the documents searched, whose content is not empty. The results
    are in descending order of the score. At most three results carry the
    id of a document for each time the document is in the list searched,
    so at most three for a document listed once, and there are at most [n]
    results when [n] is not negative. A query without keywords gives no
    result and scans no document. *)
Theorem _keyword_search_results (q : string) (n : Z)
    (documents : list Document) :
  let found := (_keyword_search env q n documents).1 in
  Forall (keyword_result documents) found
  ∧ StronglySorted (descending get_similarity_score) found
  ∧ (∀ doc_id,
       (length (filter (fun r => document_id r = Some doc_id) found)
        ≤ 3 * length (filter (fun doc => id doc = doc_id) documents))%nat)
  ∧ (length found ≤ 3 * length documents)%nat
  ∧ ((0 ≤ n)%Z → (Z.of_nat (length found) ≤ n)%Z)
  ∧ (_extract_keywords env q = [] →
     _keyword_search env q n documents = ([], [])).
Proof.
  cbv zeta. unfold _keyword_search.
  destruct (_extract_keywords env q) as [|kw kws] eqn:Hkws.
  { cbn [fst]. repeat split; try constructor; simpl; lia. }
  destruct (mapM (keyword_results_of env (kw :: kws)) documents)
    as [found|] eqn:Hfound.
  2:{ cbn [fst]. repeat split; try constructor; try (simpl; lia). done. }
  cbn [fst].
  destruct (slice_to_take n
              (sorted_descending get_similarity_score (concat found)))
    as (k & -> & Hk).
  apply mapM_Some in Hfound.
  assert (Hshape : Forall (keyword_result documents) (concat found)
                   ∧ (length (concat found) ≤ 3 * length documents)%nat).
  { clear Hk. induction Hfound as [|doc rs docs rss Hrs _ IH].
    - split; [constructor|simpl; lia].
    - destruct IH as [IH1 IH2].
      apply keyword_results_of_shape in Hrs as [Hlen Hrs].
      split.
      + cbn [concat]. apply Forall_app. split.
        * eapply Forall_impl; [exact Hrs|].
          intros r (H1 & H2 & H3 & d & t & Hd%list_elem_of_singleton & H4).
          subst d. split; [done|]. split; [done|]. split; [done|].
          exists doc, t. split; [by left|done].
        * eapply Forall_impl; [exact IH1|].
          intros r (H1 & H2 & H3 & d & t & Hd & H4).
          split; [done|]. split; [done|]. split; [done|].
          exists d, t. split; [by right|done].
      + cbn [concat]. rewrite length_app. simpl. lia. }
  destruct Hshape as [Hall Hlen].
  split.
  { apply Forall_take. by rewrite sorted_descending_perm. }
  split.
  { apply (StronglySorted_app_1_l _ _
             (drop k (sorted_descending get_similarity_score (concat found)))).
    rewrite take_drop. apply sorted_descending_sorted. }
  split.
  { intros doc_id.
    pose proof (keyword_results_of_document documents found (kw :: kws)
                  doc_id Hfound) as Hdoc.
    rewrite <- (sorted_descending_perm get_similarity_score (concat found))
      in Hdoc.
    rewrite <- (take_drop k (sorted_descending get_similarity_score
                               (concat found))) in Hdoc at 1.
    rewrite filter_app, length_app in Hdoc.
    lia. }
  split.
  { rewrite length_take, sorted_descending_perm. lia. }
  split; [|done].
  intros Hn. rewrite (Hk Hn), length_take. lia.
Qed.

(** *** The snippets *)

(** The snippets agree on everything but their keywords. *)
Definition same_span (s s' : Snippet) : Prop :=
  snippet_text s' = snippet_text s
  ∧ snippet_from s' = snippet_from s
  ∧ snippet_to s' = snippet_to s.

Lemma merge_keyword_spans (half snippet_start : Z) (keyword : string)
    (snippets : list Snippet) :
  match merge_keyword env half snippet_start keyword snippets with
  | Some merged => Forall2 same_span snippets merged
  | None =>
      Forall (fun s => (half ≤ Z.abs (snippet_from s - snippet_start))%Z)
        snippets
  end.
Proof.
  induction snippets as [|s rest IH]; cbn [merge_keyword]; [constructor|].
  destruct (Z.abs (snippet_from s - snippet_start) <? half)%Z eqn:Hnear.
  - constructor; [done|]. apply Forall2_same_length_lookup.
    split; [done|]. intros i x y Hx Hy. by simplify_eq.
  - destruct (merge_keyword env half snippet_start keyword rest) as [m|];
      cbn [fmap option_fmap option_map].
    + constructor; [done|exact IH].
    + constructor; [|exact IH]. apply Z.ltb_ge in Hnear. done.
Qed.

(** The snippets found so far: their bounds, their text as the slice of
    the text between the bounds, and starts that differ by at least half
    the snippet length. *)
Definition spaced (text_content : string) (half : Z)
    (snippets : list Snippet) : Prop :=
  Forall (fun s => (0 ≤ snippet_from s)%Z
                   ∧ (snippet_to s ≤ Z.of_nat (Py.len text_content))%Z
                   ∧ snippet_text s
                     = Py.str_slice_signed (snippet_from s) (snippet_to s)
                         text_content)
    snippets
  ∧ (∀ s1 s2, s1 ∈ snippets → s2 ∈ snippets →
              snippet_from s1 = snippet_from s2
              ∨ (half ≤ Z.abs (snippet_from s1 - snippet_from s2))%Z)
  ∧ ((0 < half)%Z → NoDup (snippet_from <$> snippets)).

Lemma spaced_same_span (text_content : string) (half : Z)
    (snippets merged : list Snippet) :
  Forall2 same_span snippets merged →
  spaced text_content half snippets → spaced text_content half merged.
Proof.
  intros Hsame (Hin & Hapart & Hnd).
  assert (Hfrom : snippet_from <$> merged = snippet_from <$> snippets).
  { clear -Hsame.
    induction Hsame as [|s s' l l' (_ & Hf & _) _ IH]; [done|].
    rewrite !fmap_cons. by rewrite Hf, IH. }
  assert (Hsrc : ∀ s', s' ∈ merged → ∃ s, s ∈ snippets ∧ same_span s s').
  { intros s' Hs'. clear -Hsame Hs'.
    induction Hsame as [|s t l l' Hst _ IH]; [by apply elem_of_nil in Hs'|].
    apply elem_of_cons in Hs' as [->|Hs'].
    - exists s. split; [by left|done].
    - destruct (IH Hs') as (s0 & H0 & H1). exists s0. split; [by right|done]. }
  split; [|split].
  - apply Forall_forall. intros s' Hs'.
    destruct (Hsrc s' Hs') as (s & Hs & Ht & Hf & Hto).
    rewrite Forall_forall in Hin. specialize (Hin s Hs).
    by rewrite Ht, Hf, Hto.
  - intros s1 s2 H1 H2.
    destruct (Hsrc s1 H1) as (t1 & Ht1 & _ & Hf1 & _).
    destruct (Hsrc s2 H2) as (t2 & Ht2 & _ & Hf2 & _).
    rewrite Hf1, Hf2. by apply Hapart.
  - intros Hpos. rewrite Hfrom. by apply Hnd.
Qed.

Lemma add_snippet_spaced (text_content : string) (snippet_length : Z)
    (keyword : string) (snippets : list Snippet) (pos : nat) :
  spaced text_content (snippet_length / 2) snippets →
  spaced text_content (snippet_length / 2)
    (add_snippet env text_content snippet_length keyword snippets pos).
Proof.
  intros Hsp. unfold add_snippet.
  set (half := (snippet_length / 2)%Z) in *.
  set (snippet_start := Z.max 0 (Z.of_nat pos - half)).
  pose proof (merge_keyword_spans half snippet_start keyword snippets) as Hm.
  destruct (merge_keyword env half snippet_start keyword snippets)
    as [merged|].
  { by eapply spaced_same_span. }
  destruct Hsp as (Hin & Hapart & Hnd). rewrite Forall_forall in Hm.
  split; [|split].
  - apply Forall_app. split; [done|]. constructor; [|constructor].
    cbn [snippet_from snippet_to snippet_text]. unfold snippet_start.
    split; [lia|]. split; [lia|done].
  - intros s1 s2 [H1|H1%list_elem_of_singleton]%elem_of_app
      [H2|H2%list_elem_of_singleton]%elem_of_app.
    + by apply Hapart.
    + subst s2. right. cbn [snippet_from]. by apply Hm.
    + subst s1. right. cbn [snippet_from]. specialize (Hm s2 H2). lia.
    + subst. by left.
  - intros Hpos. rewrite fmap_app. apply NoDup_app.
    split; [by apply Hnd|]. split; [|apply NoDup_singleton].
    intros z (s & -> & Hs)%list_elem_of_fmap Hz%list_elem_of_singleton.
    cbn [snippet_from] in Hz. specialize (Hm s Hs). lia.
Qed.

(** X18. For every snippet length, negative ones included, a snippet of a
    text starts at 0 or later, ends at the length of the text or earlier,
    and its text is the slice of the text between these two bounds, as
    Python slices (a negative end counts from the end of the text). Two
    snippets never start less than half a snippet length apart: an
    occurrence that close to a snippet adds its keyword to that snippet
    instead. The snippets come in descending order of their number of
    keywords. *)
Theorem _find_matching_snippets_spaced (text_content : string)
    (keywords : list string) (snippet_length : Z) :
  let snippets :=
    _find_matching_snippets env text_content keywords snippet_length in
  spaced text_content (snippet_length / 2) snippets
  ∧ StronglySorted
      (fun a b => (length (snippet_keywords b)
                   ≤ length (snippet_keywords a))%nat)
      snippets.
Proof.
  cbv zeta. unfold _find_matching_snippets.
  set (key := fun x : Snippet =>
                inject_Z (Z.of_nat (length (snippet_keywords x)))).
  match goal with
  | |- context [sorted_descending key ?l] => set (found := l)
  end.
  assert (Hfound : spaced text_content (snippet_length / 2) found).
  { unfold found.
    assert (Hloop : ∀ kws acc,
              spaced text_content (snippet_length / 2) acc →
              spaced text_content (snippet_length / 2)
                (foldl
                   (fun snippets keyword =>
                      foldl (add_snippet env text_content snippet_length
                               keyword) snippets
                        (Py.find_all (Py.chars (str_lower env keyword))
                           (Py.chars (str_lower env text_content)) 0))
                   acc kws)).
    { induction kws as [|kw kws IH]; intros acc Hacc; [done|].
      cbn [foldl]. apply IH.
      generalize (Py.find_all (Py.chars (str_lower env kw))
                    (Py.chars (str_lower env text_content)) 0).
      intros positions. revert acc Hacc.
      induction positions as [|pos positions IHp]; intros acc Hacc; [done|].
      cbn [foldl]. apply IHp. by apply add_snippet_spaced. }
    apply Hloop. split; [constructor|]. split; [|intros _; constructor].
    intros s1 s2 H1%elem_of_nil. done. }
  pose proof (sorted_descending_perm key found) as Hperm.
  split.
  - destruct Hfound as (Hin & Hapart & Hnd). split; [|split].
    + by rewrite Hperm.
    + intros s1 s2. rewrite !Hperm. apply Hapart.
    + intros Hpos. rewrite Hperm. by apply Hnd.
  - eapply SearchStatistics.StronglySorted_weaken;
      [|apply sorted_descending_sorted].
    intros x y. unfold descending, key. rewrite <- Zle_Qle. lia.
Qed.

End Flow.

(** A negative snippet length: the end of the snippet is negative and the
    slice counts it from the end of the text. *)
Example _find_matching_snippets_negative_length :
  _find_matching_snippets example_env "abcdefghij" ["a"] (-4)
  = [mkSnippet "cdefghi" 2 (-1) ["a"]].
Proof. vm_compute. reflexivity. Qed.

(** A second search for the same query, with other weights, the keyword
    pass switched off, tags and a date range, ten seconds after the first
    one of [example_args]. *)
Definition repeated_args : SearchArgs :=
  mkSearchArgs "rag" 3 (7 # 10) None None (Some (0, 1)%Z) (Some ["notes"])
    false true (9 # 10) (1 # 10) false false.

Definition repeated_clock : Clock :=
  mkClock 10000000 10000001 10000002 10000003 10000004 10000005.

Lemma hybrid_search_served_from_cache_example :
  hybrid_search example_env repeated_args repeated_clock
    (hybrid_search example_env example_args example_clock init).1.2
  = ((hybrid_search example_env example_args example_clock init).1.1,
     _record_search_history (arg_query repeated_args)
       (history_time repeated_clock)
       (hybrid_search example_env example_args example_clock init).1.2,
     [HistoryRecorded (arg_query repeated_args);
      CacheLookup (cache_key_of example_env example_args)]).
Proof.
  apply (hybrid_search_served_from_cache example_env example_args
           repeated_args example_clock repeated_clock init
           (hybrid_search example_env example_args example_clock init).1.2
           (hybrid_search example_env example_args example_clock init).1.1
           (hybrid_search example_env example_args example_clock init).2).
  - by destruct (hybrid_search example_env example_args example_clock init)
      as [[? ?] ?].
  - apply (bool_decide_unpack _). vm_compute. exact I.
  - reflexivity.
  - reflexivity.
  - reflexivity.
  - reflexivity.
  - reflexivity.
  - vm_compute. discriminate.
  - vm_compute. reflexivity.
Defined.

End SearchFlow.

(** ** A complete chat turn and the conversation part of the prompt
    ([rag_service.py], [prompt_builder.py]) *)

Module Chat.

Import Conversation Rag.

(** What [llm_provider.generate] returns, by the fields [chat] reads. *)
Record Generation := mkGeneration {
  generated_content : string;
  total_tokens : option Z;
  generation_finish_reason : option string;
  model : option string
}.

(** [ChatResponse] of [models/rag.py], by the fields [chat] sets. *)
Record ChatResponse := mkChatResponse {
  response_success : bool;
  response_message : string;
  response_conversation_id : string;
  response_time : Q;
  response_retrieval_context : option RetrievalContext;
  response_sources_used : list string;
  tokens_used : option Z;
  finish_reason : option string;
  model_used : option string;
  response_error_message : option string
}.

(** The successive values of [time.time()] (seconds) and
    [datetime.now()] (microseconds) during one [chat]: [finished] is the
    reading that closes the turn, in the [try] block or in the [except]
    branch. *)
Record ChatClock := mkChatClock {
  started : Q;
  user_time : Z;
  assistant_time : Z;
  finished : Q
}.

(** [messages[-n:]]. *)
Definition last_n {A : Type} (n : Z) (l : list A) : list A :=
  if (0 <? n)%Z then drop (length l - Z.to_nat n) l
  else drop (Z.to_nat (- n)) l.

Definition newline : string := String (Ascii.ascii_of_nat 10) EmptyString.

(** The line of [build_conversation_context] for one message. *)
Definition context_line (msg : ChatMessage) : string :=
  (match role msg with USER => "用户" | _ => "助手" end)
  +:+ ": " +:+ content msg.

(** [build_conversation_context]. *)
Definition build_conversation_context (messages : list ChatMessage)
    (max_messages : Z) : string :=
  match messages with
  | [] => ""
  | _ =>
      let recent_messages := last_n max_messages messages in
      String.concat newline (context_line <$> recent_messages)
  end.

Section Turn.

Variable env : Environment.

(** [_intelligent_retrieve_context]: it falls back on [_retrieve_context]
    when it fails, and so returns [None] on any failure. *)
Variable intelligent_retrieve_context : string → option RetrievalContext.

(** [llm_provider.generate] for a prompt, token limit and temperature,
    with the provider obtained first. *)
Variable generate : string → Z → Q → outcome Generation.

(** [_generate_response]: an exception is logged and raised again. *)
Definition _generate_response (prompt : string) (request : ChatRequest)
    : outcome Generation :=
  generate prompt (max_tokens request) (temperature request).

(** The response of the [except] branch of [chat]. *)
Definition failure_response (cid : string) (response_time : Q) (e : string)
    : ChatResponse :=
  mkChatResponse false "抱歉，处理您的请求时出现了错误，请稍后重试。" cid
    response_time None [] None None None
    (Some ("RAG聊天处理失败: " +:+ e)).

(** [chat]: the response and the conversation manager it leaves. *)
Definition chat (request : ChatRequest) (clock : ChatClock)
    (cm : ConversationManager) : ChatResponse * ConversationManager :=
  let cid :=
    match request_conversation_id request with
    | Some s => if decide (s = "") then uuid4 env else s
    | None => uuid4 env
    end in
  let response_time := (finished clock - started clock)%Q in
  let failed (e : string) (cm : ConversationManager) :=
    (failure_response cid response_time e,
     update_metrics response_time false cm) in
  let retrieval_context :=
    if enable_retrieval request
    then intelligent_retrieve_context (message request) else None in
  let conversation_history := get_recent_messages cid 10 cm in
  match build_complete_prompt env (message request) retrieval_context
          conversation_history with
  | Raises e => failed e cm
  | Returns prompt =>
      match _generate_response prompt request with
      | Raises e => failed e cm
      | Returns generation =>
          let response_text := generated_content generation in
          match add_message (uuid4 env) (user_time clock) cid USER
                  (message request) None cm with
          | None => failed ("'" +:+ cid +:+ "'") cm
          | Some (_, cm1) =>
              match add_message (uuid4 env) (assistant_time clock) cid
                      ASSISTANT response_text None cm1 with
              | None => failed ("'" +:+ cid +:+ "'") cm1
              | Some (_, cm2) =>
                  (mkChatResponse true response_text cid response_time
                     retrieval_context
                     (from_option (extract_sources env) [] retrieval_context)
                     (total_tokens generation)
                     (generation_finish_reason generation)
                     (model generation) None,
                   update_metrics response_time true cm2)
              end
          end
      end
  end.

(** *** One turn *)

Lemma add_message_pair (u : string) (t1 t2 : Z) (cid : string)
    (c1 c2 : string) (cm : ConversationManager) :
  cid ≠ "" →
  ∃ cm1 cm2 conv front,
    add_message u t1 cid USER c1 None cm = Some (true, cm1)
    ∧ add_message u t2 cid ASSISTANT c2 None cm1 = Some (true, cm2)
    ∧ conversations cm2 !! cid = Some conv
    ∧ messages conv
      = front ++ [mkChatMessage USER c1 t1 []; mkChatMessage ASSISTANT c2 t2 []]
    ∧ front `suffix_of`
        default [] (messages <$> conversations cm !! cid)
    ∧ updated_at conv = t2
    ∧ metrics cm2 = metrics cm
    ∧ ∀ cid', cid' ≠ cid →
              conversations cm2 !! cid' = conversations cm !! cid'.
Proof.
  intros Hne.
  assert (Hstep1 : ∃ cm1 conv1 front1,
            add_message u t1 cid USER c1 None cm = Some (true, cm1)
            ∧ conversations cm1 !! cid = Some conv1
            ∧ messages conv1 = front1 ++ [mkChatMessage USER c1 t1 []]
            ∧ front1 `suffix_of`
                default [] (messages <$> conversations cm !! cid)
            ∧ metrics cm1 = metrics cm
            ∧ ∀ cid', cid' ≠ cid →
                      conversations cm1 !! cid' = conversations cm !! cid').
  { destruct (conversations cm !! cid) as [conv|] eqn:Hc.
    - rewrite (add_message_existing _ _ _ _ _ _ _ _ Hc).
      eexists _, _,
        (drop (length (messages conv ++ [mkChatMessage USER c1 t1 []])
               - max_messages) (messages conv)).
      split; [reflexivity|]. split; [apply lookup_insert_eq|].
      cbn [messages default fmap option_fmap option_map].
      split; [|split; [apply suffix_drop|split; [done|]]].
      + unfold last_max_messages. rewrite drop_app_le; [done|].
        rewrite length_app. unfold max_messages. simpl. lia.
      + intros cid' Hne'. simpl. by rewrite lookup_insert_ne.
    - rewrite (add_message_fresh _ _ _ _ _ _ _ Hne Hc).
      eexists _, _, []. split; [reflexivity|].
      split; [apply lookup_insert_eq|]. split; [done|]. split; [done|].
      split; [done|].
      intros cid' Hne'. simpl. by rewrite lookup_insert_ne. }
  destruct Hstep1 as (cm1 & conv1 & front1 & Ha1 & Hc1 & Hm1 & Hs1 & Hmet1
                      & Hother1).
  exists cm1. rewrite (add_message_existing _ _ _ _ _ _ _ _ Hc1).
  eexists _, _,
    (drop (length (messages conv1 ++ [mkChatMessage ASSISTANT c2 t2 []])
           - max_messages) front1).
  split; [exact Ha1|]. split; [reflexivity|].
  split; [apply lookup_insert_eq|].
  cbn [messages updated_at].
  split; [|split; [|split; [done|split; [done|]]]].
  - unfold last_max_messages. rewrite Hm1, <- app_assoc.
    rewrite drop_app_le
      by (rewrite !length_app; unfold max_messages; simpl; lia).
    rewrite !length_app. simpl. f_equal. f_equal. lia.
  - etrans; [apply suffix_drop|exact Hs1].
  - intros cid' Hne'. simpl. rewrite lookup_insert_ne by done.
    by apply Hother1.
Qed.

(** X19. A chat turn counts once in the metrics, as a success or as a
    failure according to the response, and adds its duration to the total
    time. A successful turn appends the user message and then the answer
    to the conversation, and touches no other conversation; a failed turn
    stores nothing and answers with the apology and the error text. *)
Theorem chat_records_outcome (request : ChatRequest) (clock : ChatClock)
    (cm : ConversationManager) :
  uuid4 env ≠ "" →
  let '(response, cm') := chat request clock cm in
  let cid := conversation_of env request in
  let response_time := (finished clock - started clock)%Q in
  response_conversation_id response = cid
  ∧ total_requests (metrics cm') = (total_requests (metrics cm) + 1)%Z
  ∧ total_response_time (metrics cm')
    = (total_response_time (metrics cm) + response_time)%Q
  ∧ (∀ cid', cid' ≠ cid →
             conversations cm' !! cid' = conversations cm !! cid')
  ∧ (if response_success response
     then
       successful_requests (metrics cm')
       = (successful_requests (metrics cm) + 1)%Z
       ∧ failed_requests (metrics cm') = failed_requests (metrics cm)
       ∧ response_error_message response = None
       ∧ ∃ conv front,
           conversations cm' !! cid = Some conv
           ∧ messages conv
             = front ++ [mkChatMessage USER (message request)
                           (user_time clock) [];
                         mkChatMessage ASSISTANT (response_message response)
                           (assistant_time clock) []]
           ∧ front `suffix_of`
               default [] (messages <$> conversations cm !! cid)
     else
       failed_requests (metrics cm') = (failed_requests (metrics cm) + 1)%Z
       ∧ successful_requests (metrics cm') = successful_requests (metrics cm)
       ∧ conversations cm' = conversations cm
       ∧ response_message response
         = "抱歉，处理您的请求时出现了错误，请稍后重试。"
       ∧ is_Some (response_error_message response)).
Proof.
  intros Huuid. unfold chat. fold (conversation_of env request).
  assert (Hcid : conversation_of env request ≠ "").
  { unfold conversation_of.
    destruct (request_conversation_id request) as [s|]; [|done].
    by case_decide. }
  set (cid := conversation_of env request) in *.
  set (response_time := (finished clock - started clock)%Q).
  assert (Hfail : ∀ e,
            let '(response, cm') :=
              (failure_response cid response_time e,
               update_metrics response_time false cm) in
            response_conversation_id response = cid
            ∧ total_requests (metrics cm') = (total_requests (metrics cm) + 1)%Z
            ∧ total_response_time (metrics cm')
              = (total_response_time (metrics cm) + response_time)%Q
            ∧ (∀ cid', cid' ≠ cid →
                       conversations cm' !! cid' = conversations cm !! cid')
            ∧ (if response_success response
               then
                 successful_requests (metrics cm')
                 = (successful_requests (metrics cm) + 1)%Z
                 ∧ failed_requests (metrics cm') = failed_requests (metrics cm)
                 ∧ response_error_message response = None
                 ∧ ∃ conv front,
                     conversations cm' !! cid = Some conv
                     ∧ messages conv
                       = front ++ [mkChatMessage USER (message request)
                                     (user_time clock) [];
                                   mkChatMessage ASSISTANT
                                     (response_message response)
                                     (assistant_time clock) []]
                     ∧ front `suffix_of`
                         default [] (messages <$> conversations cm !! cid)
               else
                 failed_requests (metrics cm')
                 = (failed_requests (metrics cm) + 1)%Z
                 ∧ successful_requests (metrics cm')
                   = successful_requests (metrics cm)
                 ∧ conversations cm' = conversations cm
                 ∧ response_message response
                   = "抱歉，处理您的请求时出现了错误，请稍后重试。"
                 ∧ is_Some (response_error_message response))).
  { intros e. cbn. repeat split; done. }
  destruct (build_complete_prompt env (message request) _ _) as [prompt|e];
    [|apply Hfail].
  destruct (_generate_response prompt request) as [generation|e];
    [|apply Hfail].
  destruct (add_message_pair (uuid4 env) (user_time clock)
              (assistant_time clock) cid (message request)
              (generated_content generation) cm Hcid)
    as (cm1 & cm2 & conv & front & -> & -> & Hconv & Hmsgs & Hsuf & _ & Hmet
        & Hother).
  cbn [response_conversation_id response_success response_error_message
       response_message].
  unfold update_metrics. cbn [metrics with_metrics conversations
    total_requests total_response_time successful_requests failed_requests].
  rewrite Hmet. split; [done|]. split; [done|]. split; [done|].
  split; [exact Hother|]. split; [done|]. split; [done|]. split; [done|].
  by exists conv, front.
Qed.

(** X20. A streamed turn never touches the metrics. What its consumer
    receives are objects that all carry the conversation id, with
    [is_final] false and neither token count nor finish reason: the
    completion flag and the error message that [stream_chat] passes are not
    fields of the class and are dropped. The last object has an empty
    chunk. When the prompt cannot be built, that object is the only one,
    nothing in it tells the error, and nothing is stored. Otherwise the
    objects before it carry the chunks of the generation in order, the last
    one carries the sources, and the conversation gains the user message
    followed by an assistant message whose text is the chunks joined. *)
Theorem stream_chat_increments (request : ChatRequest) (now : Z)
    (cm : ConversationManager) :
  uuid4 env ≠ "" →
  let '(received, cm') := stream_chat_received env request now cm in
  let cid := conversation_of env request in
  metrics cm' = metrics cm
  ∧ Forall (fun o => Received.conversation_id o = cid
                     ∧ Received.is_final o = false
                     ∧ Received.total_tokens o = None
                     ∧ Received.finish_reason o = None) received
  ∧ (∀ cid', cid' ≠ cid →
             conversations cm' !! cid' = conversations cm !! cid')
  ∧ ∃ body final,
      received = body ++ [final]
      ∧ Received.chunk final = ""
      ∧ Received.retrieval_context final = None
      ∧ match build_complete_prompt env (message request)
                (context_of env request) (get_recent_messages cid 10 cm) with
        | Raises e =>
            body = []
            ∧ final = Received.mkStreamingChatResponse cid "" false None []
                        None None
            ∧ cm' = cm
        | Returns prompt =>
            Received.chunk <$> body
            = _stream_generate_response env prompt request
            ∧ Received.sources_used final
              = from_option (extract_sources env) [] (context_of env request)
            ∧ ∃ conv front,
                conversations cm' !! cid = Some conv
                ∧ messages conv
                  = front ++ [mkChatMessage USER (message request) now [];
                              mkChatMessage ASSISTANT
                                (foldl String.append ""
                                   (Received.chunk <$> body))
                                now []]
                ∧ front `suffix_of`
                    default [] (messages <$> conversations cm !! cid)
        end.
Proof.
  intros Huuid. unfold stream_chat_received, stream_chat.
  fold (conversation_of env request). fold (context_of env request).
  assert (Hcid : conversation_of env request ≠ "").
  { unfold conversation_of.
    destruct (request_conversation_id request) as [s|]; [|done].
    by case_decide. }
  set (cid := conversation_of env request) in *.
  destruct (build_complete_prompt env (message request) _ _) as [prompt|e].
  2:{ split; [done|]. split; [by repeat constructor|]. split; [done|].
      exists [], (StreamingChatResponse_init (error_increment cid e)).
      repeat split. }
  set (yielded := _stream_generate_response env prompt request).
  destruct (add_message_pair (uuid4 env) now now cid (message request)
              (foldl String.append "" yielded) cm Hcid)
    as (cm1 & cm2 & conv & front & -> & -> & Hconv & Hmsgs & Hsuf & _ & Hmet
        & Hother).
  assert (Hchunks : ∀ context,
            Received.chunk
            <$> (StreamingChatResponse_init
                 <$> ((fun c =>
                         mkStreamingChatResponseArguments cid c false
                           (if decide (c = "") then context else None) []
                           None) <$> yielded))
            = yielded).
  { intros context. rewrite <- !list_fmap_compose.
    rewrite (list_fmap_ext _ id yielded) by done. by rewrite list_fmap_id. }
  split; [done|]. split.
  { rewrite fmap_app. apply Forall_app. split; [|by repeat constructor].
    apply Forall_fmap, Forall_fmap. by apply Forall_true. }
  split; [exact Hother|].
  rewrite fmap_app. eexists _, _. split; [reflexivity|].
  split; [done|]. split; [done|]. split; [apply Hchunks|].
  split; [done|].
  exists conv, front. split; [done|]. split; [|done].
  by rewrite Hmsgs, Hchunks.
Qed.

End Turn.

(** *** The conversation part of the prompt *)

Lemma last_n_recent {A : Type} (n : nat) (l : list A) :
  (0 < n)%nat →
  last_n (Z.of_nat n) (drop (length l - n) l) = last_n (Z.of_nat n) l.
Proof.
  intros Hn. unfold last_n.
  assert (H : (0 <? Z.of_nat n)%Z = true) by (apply Z.ltb_lt; lia).
  rewrite H, Nat2Z.id, length_drop, drop_drop. f_equal. lia.
Qed.

(** X21. The conversation part of the prompt has one line for each of the
    last [n] messages and depends on no earlier message. So it is the same
    whether it is built from the whole conversation or, as [chat] does,
    from what [get_recent_messages] returns for the same [n]; for an
    unknown conversation it is empty. *)
Theorem build_conversation_context_recent (n : nat) (cid : string)
    (cm : ConversationManager) (front recent : list ChatMessage) :
  (0 < n)%nat →
  length recent = n →
  build_conversation_context (front ++ recent) (Z.of_nat n)
  = String.concat newline (context_line <$> recent)
  ∧ build_conversation_context (get_recent_messages cid n cm) (Z.of_nat n)
    = build_conversation_context
        (default [] (messages <$> conversations cm !! cid)) (Z.of_nat n).
Proof.
  intros Hn Hlen. split.
  - unfold build_conversation_context.
    assert (Hlast : last_n (Z.of_nat n) (front ++ recent) = recent).
    { unfold last_n.
      assert (H : (0 <? Z.of_nat n)%Z = true) by (apply Z.ltb_lt; lia).
      rewrite H, Nat2Z.id, length_app, Hlen.
      replace (length front + n - n)%nat with (length front + 0)%nat by lia.
      by rewrite drop_app_add. }
    rewrite Hlast. destruct (front ++ recent) eqn:Hl; [|done].
    apply app_eq_nil in Hl as [_ ->]. simpl in Hlen. lia.
  - unfold get_recent_messages.
    destruct (conversations cm !! cid) as [conv|]; [|done].
    cbn [default fmap option_fmap option_map].
    destruct n as [|n]; [lia|].
    unfold build_conversation_context.
    rewrite (last_n_recent (S n)) by lia.
    destruct (messages conv) as [|m ms] eqn:Hm; [done|].
    destruct (drop (length (m :: ms) - S n) (m :: ms)) eqn:Hd; [|done].
    assert (Hz : length (drop (length (m :: ms) - S n) (m :: ms)) = 0%nat)
      by (by rewrite Hd).
    rewrite length_drop in Hz. simpl in Hz. lia.
Qed.

(** A turn of a new conversation with a provider that answers. *)
Definition answering_env : Environment :=
  mkEnvironment "00000000-0000-4000-8000-000000000000"
    (fun _ _ _ => None)
    (fun q _ history => Returns (build_conversation_context history 10 +:+ q))
    (fun _ _ _ => mkProviderStream ["Hel"; "lo"] None)
    (fun _ => []).

Definition answering_generate (prompt : string) (max_tokens : Z)
    (temperature : Q) : outcome Generation :=
  Returns (mkGeneration "Hello" (Some 12%Z) (Some "stop") (Some "qwen")).

Definition turn_request : ChatRequest :=
  mkChatRequest "hi" None false 5 (6 # 10) (7 # 10) 1000.

Definition turn_clock : ChatClock := mkChatClock (5 # 1) 6 7 (13 # 2).

Lemma chat_records_outcome_example :
  let '(response, cm') :=
    chat answering_env (fun _ => None) answering_generate turn_request
      turn_clock init in
  response_success response = true
  ∧ total_requests (metrics cm') = 1%Z
  ∧ successful_requests (metrics cm') = 1%Z.
Proof.
  pose proof (chat_records_outcome answering_env (fun _ => None)
                answering_generate turn_request turn_clock init) as H.
  destruct (chat answering_env (fun _ => None) answering_generate
              turn_request turn_clock init) as [response cm'] eqn:Hrun.
  destruct H as (_ & Htotal & _ & _ & Hok); [discriminate|].
  assert (Hsucc : response_success response = true).
  { apply (f_equal (fun p => response_success p.1)) in Hrun.
    symmetry. exact Hrun. }
  rewrite Hsucc in Hok. destruct Hok as (Hs & _).
  split; [exact Hsucc|]. split; [exact Htotal|exact Hs].
Defined.

Lemma stream_chat_increments_example :
  let '(received, cm') :=
    stream_chat_received answering_env turn_request 7 init in
  metrics cm' = metrics init
  ∧ Forall (fun o => Received.conversation_id o = uuid4 answering_env
                     ∧ Received.is_final o = false
                     ∧ Received.total_tokens o = None
                     ∧ Received.finish_reason o = None) received.
Proof.
  pose proof (stream_chat_increments answering_env turn_request 7 init)
    as H.
  destruct (stream_chat_received answering_env turn_request 7 init)
    as [received cm'].
  destruct H as (Hmet & Hall & _); [discriminate|].
  split; [exact Hmet|exact Hall].
Defined.

Lemma build_conversation_context_recent_example :
  build_conversation_context
    ([mkChatMessage USER "old" 1 []]
     ++ [mkChatMessage USER "hi" 2 []; mkChatMessage SYSTEM "Hello" 3 []])
    2
  = "用户: hi" +:+ newline +:+ "助手: Hello".
Proof.
  apply (build_conversation_context_recent 2 "c1" init
           [mkChatMessage USER "old" 1 []]
           [mkChatMessage USER "hi" 2 []; mkChatMessage SYSTEM "Hello" 3 []]);
    [lia|reflexivity].
Defined.

End Chat.

(** ** The simple search endpoint ([api/retrieval.py]) *)

Module SimpleSearch.

Import Retrieval.

(** The bound of [n_results: int = Query(10, ge=1, le=50)] in the
    signature of [simple_search], which the framework checks before the
    body runs. *)
Definition n_results_accepted (n_results : Z) : bool :=
  ((1 <=? n_results) && (n_results <=? 50))%Z.

Section Endpoint.

Variable env : Environment.

(** [str(e)] for an [HTTPException], and the text of the validation error
    for a number of results. *)
Variable str_of_exception : HTTPException → string.
Variable str_of_validation_error : Z → string.

(** [AdvancedSearchRequest(query=..., n_results=..., search_mode=...,
    document_types=...)]: the other fields take their defaults. [None] is
    the validation error of a number of results outside 1..100. *)
Definition search_request (query : string) (n_results : Z)
    (search_mode : SearchMode) (document_types : option (list string))
    : option AdvancedSearchRequest :=
  if ((1 <=? n_results) && (n_results <=? 100))%Z
  then Some (mkAdvancedSearchRequest query search_mode n_results (7 # 10)
               (3 # 10) (7 # 10) None document_types None None None true
               true)
  else None.

(** The endpoint [simple_search]. A number of results outside 1..50 is
    answered 422 by the validation of the query parameters and the body
    does not run. In the body every exception, an [HTTPException] of
    [advanced_search] included, becomes a 500. *)
Definition simple_search (query : string) (n_results : Z)
    (search_mode : SearchMode) (document_types : option (list string))
    (clock : Clock) (self : RetrievalService)
    : (HTTPException + Response) * RetrievalService * list Event :=
  if negb (n_results_accepted n_results)
  then (inl (mkHTTPException 422 (str_of_validation_error n_results)),
        self, [])
  else
    match search_request query n_results search_mode document_types with
    | None =>
        (inl (mkHTTPException 500
                ("搜索失败: " +:+ str_of_validation_error n_results)),
         self, [])
    | Some request =>
        let '(answer, self, events) :=
          advanced_search env request clock self in
        match answer with
        | inr response => (inr response, self, events)
        | inl e =>
            (inl (mkHTTPException 500 ("搜索失败: " +:+ str_of_exception e)),
             self, events)
        end
    end.

(** X22. The simple search endpoint accepts a number of results from 1 to
    50; any other number is answered 422 and nothing runs: no history
    entry, no cache lookup, the service unchanged. An accepted request is
    never rejected for its weights: it searches with the default weights
    0.3 and 0.7 and the default threshold 0.7, so the search always runs,
    in every mode. Whatever goes wrong in it, the error raised has status
    500; a response returned is a successful one for the query. *)
Theorem simple_search_runs (query : string) (n_results : Z)
    (mode : SearchMode) (document_types : option (list string))
    (clock : Clock) (self : RetrievalService) :
  let '(answer, self', events) :=
    simple_search query n_results mode document_types clock self in
  ((1 ≤ n_results ≤ 50)%Z →
   (∃ request rest,
      search_request query n_results mode document_types = Some request
      ∧ request_keyword_weight request = (3 # 10)%Q
      ∧ request_semantic_weight request = (7 # 10)%Q
      ∧ similarity_threshold (search_args request) = (7 # 10)%Q
      ∧ events = HistoryRecorded query
                 :: CacheLookup (cache_key_of env (search_args request))
                 :: rest
      ∧ self' = (advanced_search env request clock self).1.2)
   ∧ match answer with
     | inl (mkHTTPException status_code detail) => status_code = 500%Z
     | inr response =>
         success response = true ∧ Retrieval.query response = query
     end)
  ∧ (¬ (1 ≤ n_results ≤ 50)%Z →
     answer = inl (mkHTTPException 422 (str_of_validation_error n_results))
     ∧ self' = self ∧ events = []).
Proof.
  unfold simple_search, search_request, n_results_accepted.
  destruct ((1 <=? n_results) && (n_results <=? 50))%Z eqn:Hbound.
  2:{ cbn [negb]. split; [|done]. intros Hn.
      apply andb_false_iff in Hbound as [H|H]; apply Z.leb_gt in H; lia. }
  cbn [negb].
  apply andb_true_iff in Hbound as [H1 H2].
  apply Z.leb_le in H1. apply Z.leb_le in H2.
  assert (Hvalid : ((1 <=? n_results) && (n_results <=? 100))%Z = true).
  { apply andb_true_iff. split; apply Z.leb_le; lia. }
  rewrite Hvalid.
  set (request := mkAdvancedSearchRequest query mode n_results
                    (7 # 10) (3 # 10) (7 # 10) None document_types None None
                    None true true).
  destruct (advanced_search_accepted env request clock self) as [rest Hev].
  { left. vm_compute. discriminate. }
  assert (Hanswer : match (advanced_search env request clock self).1.1 with
                    | inl _ => True
                    | inr response =>
                        success response = true
                        ∧ Retrieval.query response = query
                    end).
  { unfold advanced_search.
    destruct (match Retrieval.search_mode request with
              | HYBRID => true
              | _ => false
              end && _); [cbn; exact I|].
    destruct (hybrid_search env (search_args request) clock self)
      as [[search_result s] ev].
    destruct (negb (success search_result)); [cbn; exact I|].
    destruct (forallb valid_result (results search_result));
      [|cbn; exact I].
    cbn. done. }
  destruct (advanced_search env request clock self) as [[answer s] ev]
    eqn:Hrun.
  cbn [fst snd] in *. subst ev.
  destruct answer as [e|response].
  - split; [|intros Hn; lia]. intros _. split; [|done].
    exists request, rest. repeat split. by rewrite Hrun.
  - split; [|intros Hn; lia]. intros _. split; [|done].
    exists request, rest. repeat split. by rewrite Hrun.
Qed.

End Endpoint.

Lemma simple_search_runs_example :
  let '(answer, self', events) :=
    simple_search example_env (fun _ => "500") (fun _ => "validation")
      "rag" 3 HYBRID None example_clock init in
  match answer with
  | inl (mkHTTPException status_code detail) => status_code = 500%Z
  | inr response => success response = true ∧ Retrieval.query response = "rag"
  end.
Proof.
  pose proof (simple_search_runs example_env (fun _ => "500")
                (fun _ => "validation") "rag" 3 HYBRID None example_clock
                init) as H.
  destruct (simple_search example_env (fun _ => "500")
              (fun _ => "validation") "rag" 3 HYBRID None example_clock init)
    as [[answer self'] events].
  destruct H as [H _]. apply H. lia.
Defined.

End SimpleSearch.

(** ** Candidate documents, the semantic pass and the enrichment of the
    results ([retrieval_service.py]) *)

Module Candidates.

Import Retrieval.

(** A [datetime]: its place on the time line, in microseconds, and
    whether it carries a time zone. *)
Record Datetime := mkDatetime {
  instant : Z;
  tzinfo : bool
}.

(** [a < b] on datetimes: [None] is the [TypeError] of comparing a datetime
    that carries a time zone with one that does not. *)
Definition datetime_lt (a b : Datetime) : option bool :=
  if Bool.eqb (tzinfo a) (tzinfo b) then Some (instant a <? instant b)%Z
  else None.

(** A document of the store, with its vectorization flag and whether its
    [created_at] carries a time zone. *)
Record StoredDocument := mkStoredDocument {
  stored : Document;
  is_vectorized : bool;
  created_at_tzinfo : bool
}.

Definition created (doc : StoredDocument) : Datetime :=
  mkDatetime (created_at (stored doc)) (created_at_tzinfo doc).

(** [if document_ids:], [if document_types and ...], [if tags:]: [None]
    and the empty list are both false. *)
Definition truthy {A : Type} (o : option (list A)) : bool :=
  match o with Some (_ :: _) => true | _ => false end.

(** [doc.created_at < start_date or doc.created_at > end_date]: the second
    comparison is made only when the first is false; [None] when a
    comparison raises. *)
Definition out_of_range (start_date end_date : Datetime)
    (doc : StoredDocument) : option bool :=
  early ← datetime_lt (created doc) start_date;
  if early : bool then Some true
  else datetime_lt end_date (created doc).

(** [not any(tag in doc_tags for tag in tags)]. *)
Definition no_tag (tags : list string) (doc : StoredDocument) : bool :=
  negb (existsb (fun tag => bool_decide (tag ∈ Retrieval.tags (stored doc)))
          tags).

(** The body of the filter loop of [_get_candidate_documents] for one
    document: whether the document is kept, or [None] when the comparison
    of dates raises. *)
Definition candidate (document_types : option (list string))
    (date_range : option (Datetime * Datetime))
    (tags : option (list string)) (doc : StoredDocument) : option bool :=
  if negb (is_vectorized doc) then Some false
  else if truthy document_types
          && negb (bool_decide (document_type (stored doc)
                                ∈ default [] document_types))
  then Some false
  else
    match date_range with
    | Some (start_date, end_date) =>
        out ← out_of_range start_date end_date doc;
        if out : bool then Some false
        else Some (negb (truthy tags && no_tag (default [] tags) doc))
    | None => Some (negb (truthy tags && no_tag (default [] tags) doc))
    end.

(** The filter loop. *)
Fixpoint filter_candidates (document_types : option (list string))
    (date_range : option (Datetime * Datetime))
    (tags : option (list string)) (all_documents : list StoredDocument)
    : option (list Document) :=
  match all_documents with
  | [] => Some []
  | doc :: rest =>
      keep ← candidate document_types date_range tags doc;
      filtered_documents ←
        filter_candidates document_types date_range tags rest;
      Some (if keep : bool then stored doc :: filtered_documents
            else filtered_documents)
  end.

(** The document passes every filter that is given. *)
Definition matches (document_types : option (list string))
    (date_range : option (Datetime * Datetime))
    (tags : option (list string)) (sd : StoredDocument) : Prop :=
  is_vectorized sd = true
  ∧ (truthy document_types = true →
     document_type (stored sd) ∈ default [] document_types)
  ∧ (∀ start_date end_date,
       date_range = Some (start_date, end_date) →
       (instant start_date ≤ created_at (stored sd) ≤ instant end_date)%Z)
  ∧ (truthy tags = true →
     ∃ tag, tag ∈ default [] tags ∧ tag ∈ Retrieval.tags (stored sd)).

(** The date comparison of the loop is reached for the document and
    raises: a bound of the range and the creation date differ in carrying
    a time zone. The end of the range is only compared for a document not
    created before its start. *)
Definition clashes (document_types : option (list string))
    (date_range : option (Datetime * Datetime)) (sd : StoredDocument)
    : Prop :=
  is_vectorized sd = true
  ∧ (truthy document_types = true →
     document_type (stored sd) ∈ default [] document_types)
  ∧ ∃ start_date end_date,
      date_range = Some (start_date, end_date)
      ∧ (tzinfo start_date ≠ created_at_tzinfo sd
         ∨ (instant start_date ≤ created_at (stored sd))%Z
           ∧ tzinfo end_date ≠ created_at_tzinfo sd).

Lemma out_of_range_cases (start_date end_date : Datetime)
    (sd : StoredDocument) :
  match out_of_range start_date end_date sd with
  | None =>
      tzinfo start_date ≠ created_at_tzinfo sd
      ∨ (instant start_date ≤ created_at (stored sd))%Z
        ∧ tzinfo end_date ≠ created_at_tzinfo sd
  | Some out =>
      ¬ (tzinfo start_date ≠ created_at_tzinfo sd
         ∨ (instant start_date ≤ created_at (stored sd))%Z
           ∧ tzinfo end_date ≠ created_at_tzinfo sd)
      ∧ (out = false ↔
         (instant start_date ≤ created_at (stored sd) ≤ instant end_date)%Z)
  end.
Proof.
  unfold out_of_range, datetime_lt, created. cbn [tzinfo instant].
  destruct (Bool.eqb (created_at_tzinfo sd) (tzinfo start_date)) eqn:Hs;
    cbn [mbind option_bind].
  2:{ apply Bool.eqb_false_iff in Hs. left. congruence. }
  apply Bool.eqb_prop in Hs.
  destruct (created_at (stored sd) <? instant start_date)%Z eqn:Hearly.
  { apply Z.ltb_lt in Hearly. split.
    - intros [H|[H _]]; [congruence|lia].
    - split; [done|lia]. }
  apply Z.ltb_ge in Hearly.
  destruct (Bool.eqb (tzinfo end_date) (created_at_tzinfo sd)) eqn:He.
  2:{ apply Bool.eqb_false_iff in He. right. done. }
  apply Bool.eqb_prop in He. split.
  - intros [H|[_ H]]; congruence.
  - destruct (instant end_date <? created_at (stored sd))%Z eqn:Hlate.
    + apply Z.ltb_lt in Hlate. split; [done|lia].
    + apply Z.ltb_ge in Hlate. split; [lia|done].
Qed.

Lemma no_tag_cases (tags : option (list string)) (sd : StoredDocument) :
  negb (truthy tags && no_tag (default [] tags) sd) = true
  ↔ (truthy tags = true →
     ∃ tag, tag ∈ default [] tags ∧ tag ∈ Retrieval.tags (stored sd)).
Proof.
  unfold no_tag.
  assert (Htags :
            existsb (fun tag => bool_decide
                                  (tag ∈ Retrieval.tags (stored sd)))
              (default [] tags) = true
            ↔ ∃ tag, tag ∈ default [] tags
                     ∧ tag ∈ Retrieval.tags (stored sd)).
  { rewrite existsb_exists. split.
    - intros (tag & Hin%list_elem_of_In & Hb%bool_decide_eq_true).
      by exists tag.
    - intros (tag & Hin & Hb). exists tag.
      split; [by apply list_elem_of_In|by apply bool_decide_eq_true]. }
  rewrite <- Htags.
  destruct (truthy tags), (existsb _ _); cbn; split; try done.
  - intros H. by apply H.
Qed.

Lemma candidate_cases (document_types : option (list string))
    (date_range : option (Datetime * Datetime))
    (tags : option (list string)) (sd : StoredDocument) :
  match candidate document_types date_range tags sd with
  | None => clashes document_types date_range sd
  | Some keep =>
      ¬ clashes document_types date_range sd
      ∧ (keep = true ↔ matches document_types date_range tags sd)
  end.
Proof.
  unfold candidate, clashes, matches.
  destruct (is_vectorized sd); cbn [negb].
  2:{ split; [by intros [? _]|]. split; [done|by intros [? _]]. }
  assert (Htypes :
            (truthy document_types
             && negb (bool_decide (document_type (stored sd)
                                   ∈ default [] document_types))) = false
            ↔ (truthy document_types = true →
               document_type (stored sd) ∈ default [] document_types)).
  { destruct (truthy document_types); cbn [andb].
    - rewrite negb_false_iff, bool_decide_eq_true. split; [by intros ? _|].
      intros H. by apply H.
    - split; done. }
  destruct (truthy document_types
            && negb (bool_decide (document_type (stored sd)
                                  ∈ default [] document_types))) eqn:Hty.
  { assert (Hno : ¬ (truthy document_types = true →
                     document_type (stored sd)
                     ∈ default [] document_types)).
    { intros H. apply Htypes in H. done. }
    split; [by intros (_ & ? & _)|]. split; [done|by intros (_ & ? & _)]. }
  assert (Hyes : truthy document_types = true →
                 document_type (stored sd) ∈ default [] document_types)
    by (by apply Htypes).
  pose proof (no_tag_cases tags sd) as Htags.
  destruct date_range as [[start_date end_date]|].
  - pose proof (out_of_range_cases start_date end_date sd) as Hout.
    destruct (out_of_range start_date end_date sd) as [out|];
      cbn [mbind option_bind].
    + destruct Hout as [Hclean Hrange]. destruct out.
      * split.
        { intros (_ & _ & s & e & [= <- <-] & H). by apply Hclean. }
        split; [done|].
        intros (_ & _ & H & _). specialize (H start_date end_date eq_refl).
        apply Hrange in H. done.
      * split.
        { intros (_ & _ & s & e & [= <- <-] & H). by apply Hclean. }
        rewrite Htags. split.
        -- intros H. split; [done|]. split; [done|]. split; [|done].
           intros s e [= <- <-]. by apply Hrange.
        -- by intros (_ & _ & _ & H).
    + split; [done|]. split; [done|]. by exists start_date, end_date.
  - split.
    { by intros (_ & _ & s & e & [=] & _). }
    rewrite Htags. split.
    + intros H. split; [done|]. split; [done|]. split; [done|done].
    + by intros (_ & _ & _ & H).
Qed.

Section Store.

(** [document_storage.get_document] and [document_storage.list_documents]
    for the first 1000 processed documents; the outer [None] is an
    exception. *)
Variable get_document : string → option (option StoredDocument).
Variable list_documents : option (list StoredDocument).

(** The loop over [document_ids]. *)
Fixpoint get_documents (document_ids : list string)
    : option (list Document) :=
  match document_ids with
  | [] => Some []
  | doc_id :: rest =>
      doc ← get_document doc_id;
      documents ← get_documents rest;
      Some (match doc with
            | Some d => if is_vectorized d then stored d :: documents
                        else documents
            | None => documents
            end)
  end.

(** [_get_candidate_documents]: any exception gives the empty list. *)
Definition _get_candidate_documents (document_ids : option (list string))
    (document_types : option (list string))
    (date_range : option (Datetime * Datetime))
    (tags : option (list string)) : list Document :=
  if truthy document_ids
  then default [] (get_documents (default [] document_ids))
  else
    default []
      (all_documents ← list_documents;
       filter_candidates document_types date_range tags all_documents).

Lemma get_documents_vectorized (document_ids : list string)
    (documents : list Document) :
  get_documents document_ids = Some documents →
  Forall (fun d => ∃ doc_id sd, doc_id ∈ document_ids
                                ∧ get_document doc_id = Some (Some sd)
                                ∧ stored sd = d ∧ is_vectorized sd = true)
    documents.
Proof.
  revert documents.
  induction document_ids as [|doc_id rest IH]; intros documents; simpl.
  - intros [= <-]. constructor.
  - destruct (get_document doc_id) as [doc|] eqn:Hdoc; [|done]. simpl.
    destruct (get_documents rest) as [found|]; [|done]. simpl.
    intros [= <-].
    assert (Hrest : Forall
              (fun d => ∃ doc_id0 sd, doc_id0 ∈ doc_id :: rest
                                      ∧ get_document doc_id0 = Some (Some sd)
                                      ∧ stored sd = d
                                      ∧ is_vectorized sd = true) found).
    { eapply Forall_impl; [by apply IH|].
      intros d (i & sd & Hi & H). exists i, sd. split; [by right|done]. }
    destruct doc as [sd|]; [|done].
    destruct (is_vectorized sd) eqn:Hv; [|done].
    constructor; [|done]. exists doc_id, sd. split; [by left|done].
Qed.

Lemma filter_candidates_clash (document_types : option (list string))
    (date_range : option (Datetime * Datetime))
    (tags : option (list string)) (all_documents : list StoredDocument)
    (sd : StoredDocument) :
  sd ∈ all_documents → clashes document_types date_range sd →
  filter_candidates document_types date_range tags all_documents = None.
Proof.
  intros Hin Hclash.
  induction all_documents as [|x rest IH]; [by apply elem_of_nil in Hin|].
  cbn [filter_candidates].
  pose proof (candidate_cases document_types date_range tags x) as Hx.
  destruct (candidate document_types date_range tags x) as [keep|];
    [|done].
  cbn [mbind option_bind]. destruct Hx as [Hclean _].
  apply elem_of_cons in Hin as [->|Hin]; [done|].
  by rewrite (IH Hin).
Qed.

Lemma filter_candidates_clean (document_types : option (list string))
    (date_range : option (Datetime * Datetime))
    (tags : option (list string)) (all_documents : list StoredDocument) :
  (∀ sd, sd ∈ all_documents → ¬ clashes document_types date_range sd) →
  ∃ found,
    filter_candidates document_types date_range tags all_documents
    = Some found
    ∧ found `sublist_of` (stored <$> all_documents)
    ∧ ∀ d, d ∈ found ↔
           ∃ sd, sd ∈ all_documents ∧ stored sd = d
                 ∧ matches document_types date_range tags sd.
Proof.
  induction all_documents as [|x rest IH]; intros Hclean.
  - exists []. split; [done|]. split; [done|].
    intros d. split; [by intros H%elem_of_nil|].
    by intros (sd & H%elem_of_nil & _).
  - destruct IH as (found & Hf & Hsub & Hin).
    { intros sd Hsd. apply Hclean. by right. }
    cbn [filter_candidates]. rewrite Hf.
    pose proof (candidate_cases document_types date_range tags x) as Hx.
    destruct (candidate document_types date_range tags x) as [keep|].
    2:{ destruct (Hclean x); [by left|done]. }
    destruct Hx as [_ Hkeep]. cbn [mbind option_bind]. destruct keep.
    + eexists. split; [reflexivity|]. split.
      { rewrite fmap_cons. by apply sublist_skip. }
      intros d. rewrite elem_of_cons, Hin. split.
      * intros [->|(sd & Hsd & <- & Hm)].
        -- exists x. split; [by left|]. split; [done|]. by apply Hkeep.
        -- exists sd. split; [by right|done].
      * intros (sd & [->|Hsd]%elem_of_cons & <- & Hm); [by left|].
        right. by exists sd.
    + exists found. split; [done|]. split.
      { rewrite fmap_cons. by apply sublist_cons. }
      intros d. rewrite Hin. split.
      * intros (sd & Hsd & <- & Hm). exists sd. split; [by right|done].
      * intros (sd & [->|Hsd]%elem_of_cons & <- & Hm).
        -- apply Hkeep in Hm. done.
        -- by exists sd.
Qed.

(** X23. Every candidate document is a vectorized document of the store.
    When document ids are given, the candidates are looked up by id and
    the type, date and tag filters are not applied at all. Without ids, a
    date comparison that raises for one document of the listing, because a
    bound of the date range and the creation date of a vectorized document
    of a wanted type differ in carrying a time zone, empties the answer.
    When no comparison raises, the candidates are exactly the vectorized
    documents of the listing, in its order, that have one of the types
    when types are given, were created within the date range when one is
    given, and carry one of the tags when tags are given. *)
Theorem _get_candidate_documents_filters
    (document_ids document_types : option (list string))
    (date_range : option (Datetime * Datetime))
    (tags : option (list string)) :
  let documents :=
    _get_candidate_documents document_ids document_types date_range tags in
  (truthy document_ids = true →
   documents = _get_candidate_documents document_ids None None None
   ∧ Forall (fun d => ∃ doc_id sd,
                        doc_id ∈ default [] document_ids
                        ∧ get_document doc_id = Some (Some sd)
                        ∧ stored sd = d ∧ is_vectorized sd = true)
       documents)
  ∧ (truthy document_ids = false →
     (list_documents = None → documents = [])
     ∧ ∀ all_documents, list_documents = Some all_documents →
         ((∃ sd, sd ∈ all_documents ∧ clashes document_types date_range sd) →
          documents = [])
         ∧ ((∀ sd, sd ∈ all_documents →
                   ¬ clashes document_types date_range sd) →
            documents `sublist_of` (stored <$> all_documents)
            ∧ ∀ d, d ∈ documents ↔
                   ∃ sd, sd ∈ all_documents ∧ stored sd = d
                         ∧ matches document_types date_range tags sd)).
Proof.
  cbv zeta. unfold _get_candidate_documents. split.
  - intros ->. split; [done|].
    destruct (get_documents (default [] document_ids)) as [found|] eqn:Hf;
      [|constructor].
    by apply get_documents_vectorized.
  - intros ->. split; [by intros ->|].
    intros all_documents ->. cbn [mbind option_bind]. split.
    + intros (sd & Hin & Hclash).
      by rewrite (filter_candidates_clash document_types date_range tags
                    all_documents sd Hin Hclash).
    + intros Hclean.
      destruct (filter_candidates_clean document_types date_range tags
                  all_documents Hclean) as (found & -> & Hsub & Hin).
      done.
Qed.

End Store.

Section Passes.

Variable env : Environment.

(** A result of the semantic pass. *)
Definition semantic_result (r : SearchResult) : Prop :=
  search_type r = Some "semantic"
  ∧ final_score r = None
  ∧ is_Some (text r) ∧ is_Some (chunk_id r) ∧ is_Some (document_id r)
  ∧ ∃ d, distance r = Some d ∧ similarity_score r = Some (1 - d)%Q.

Lemma format_chunks_aligned (cs : list string) :
  ∀ (i : nat) (ms : list Metadata) (ds : list Q),
    match format_chunks i cs ms ds with
    | Some rs =>
        Forall semantic_result rs
        ∧ text <$> rs = Some <$> cs
        ∧ distance <$> rs = Some <$> take (length cs) ds
        ∧ metadata <$> rs = Some <$> take (length cs) ms
    | None => (length ms < length cs)%nat ∨ (length ds < length cs)%nat
    end.
Proof.
  induction cs as [|c cs IH]; intros i ms ds; cbn [format_chunks].
  - repeat split; constructor.
  - destruct ms as [|m ms]; [left; simpl; lia|].
    destruct ds as [|d ds]; [right; simpl; lia|].
    specialize (IH (S i) ms ds).
    destruct (format_chunks (S i) cs ms ds) as [rest|];
      cbn [mbind option_bind].
    + destruct IH as (Hall & Ht & Hd & Hm). split; [|split; [|split]].
      * constructor; [|done]. repeat split; try done; try by eexists.
      * rewrite !fmap_cons. cbn [text]. by rewrite Ht.
      * rewrite fmap_cons. cbn [distance length take]. rewrite fmap_cons.
        by rewrite Hd.
      * rewrite fmap_cons. cbn [metadata length take]. rewrite fmap_cons.
        by rewrite Hm.
    + simpl. destruct IH; [left|right]; lia.
Qed.

(** X24. The semantic pass gives all or nothing. Either it returns no
    result, or the embedding and the vector query both succeeded and there
    is one result for each chunk found, in the order of the chunks, with
    the text, metadata and distance of that chunk and a similarity score of
    one minus the distance. A vector answer with fewer metadata entries or
    distances than chunks gives no result at all. *)
Theorem _semantic_search_aligned (q : string) (n : Z)
    (doc_ids : list string) :
  let found := (_semantic_search env q n doc_ids).1 in
  Forall semantic_result found
  ∧ (found = []
     ∨ ∃ embedding answer,
         generate_embedding env q = Some embedding
         ∧ search_similar_chunks env embedding n doc_ids = Some answer
         ∧ text <$> found = Some <$> chunks answer
         ∧ distance <$> found
           = Some <$> take (length (chunks answer)) (distances answer)
         ∧ metadata <$> found
           = Some <$> take (length (chunks answer)) (chunks_metadata answer))
  ∧ (∀ embedding answer,
       generate_embedding env q = Some embedding →
       search_similar_chunks env embedding n doc_ids = Some answer →
       (length (chunks_metadata answer) < length (chunks answer))%nat
       ∨ (length (distances answer) < length (chunks answer))%nat →
       found = []).
Proof.
  cbv zeta. unfold _semantic_search.
  destruct (generate_embedding env q) as [embedding|] eqn:He;
    [|split; [constructor|split; [by left|done]]].
  destruct (search_similar_chunks env embedding n doc_ids) as [answer|]
    eqn:Ha; [|split; [constructor|split; [by left|done]]].
  cbn [fst].
  pose proof (format_chunks_aligned (chunks answer) 0
                (chunks_metadata answer) (distances answer)) as H.
  destruct (format_chunks 0 (chunks answer) (chunks_metadata answer)
              (distances answer)) as [rs|]; cbn [default].
  - destruct H as (Hall & Ht & Hd & Hm). split; [done|]. split.
    + right. exists embedding, answer. repeat split; done.
    + intros e a [= <-] Ha' Hshort. rewrite Ha in Ha'. injection Ha' as <-.
      assert (Hlen : length rs = length (chunks answer)).
      { by rewrite <- (length_fmap text rs), Ht, length_fmap. }
      assert (Hlen1 : (length (chunks answer)
                       ≤ length (distances answer))%nat).
      { apply (f_equal length) in Hd.
        rewrite !length_fmap, length_take in Hd. lia. }
      assert (Hlen2 : (length (chunks answer)
                       ≤ length (chunks_metadata answer))%nat).
      { apply (f_equal length) in Hm.
        rewrite !length_fmap, length_take in Hm. lia. }
      lia.
  - split; [constructor|]. split; [by left|done].
Qed.

(** The keys of a result that the enrichment leaves alone. *)
Definition same_hit (r r' : SearchResult) : Prop :=
  text r' = text r ∧ metadata r' = metadata r
  ∧ similarity_score r' = similarity_score r ∧ distance r' = distance r
  ∧ search_type r' = search_type r ∧ chunk_id r' = chunk_id r
  ∧ document_id r' = document_id r ∧ snippet_start r' = snippet_start r
  ∧ snippet_end r' = snippet_end r ∧ final_score r' = final_score r
  ∧ semantic_score r' = semantic_score r
  ∧ keyword_score r' = keyword_score r.

(** X25. Adding the document metadata and the highlighting changes neither
    the number nor the order of the results, nor their text, scores, search
    type and identifiers: only the document metadata, the highlighted text
    and the matched keywords are set. A document attached to a result is a
    candidate document with the id of the result, unless the result already
    carried it; a result without text gets no highlighting. *)
Theorem enrichment_keeps_hits (rs : list SearchResult)
    (documents : list Document) (q : string) :
  Forall2
    (fun r r' =>
       same_hit r r'
       ∧ (document_metadata r' = document_metadata r
          ∨ ∃ doc, document_metadata r' = Some doc ∧ doc ∈ documents
                   ∧ document_id r = Some (id doc))
       ∧ (get_text r = "" → highlight_text r' = highlight_text r
                            ∧ matched_keywords r' = matched_keywords r))
    rs
    (_add_text_highlighting env (_enhance_results_metadata rs documents) q).
Proof.
  assert (Henh : ∀ r,
            same_hit r (enhance_result documents r)
            ∧ (document_metadata (enhance_result documents r)
               = document_metadata r
               ∨ ∃ doc, document_metadata (enhance_result documents r)
                        = Some doc
                        ∧ doc ∈ documents ∧ document_id r = Some (id doc))
            ∧ highlight_text (enhance_result documents r) = highlight_text r
            ∧ matched_keywords (enhance_result documents r)
              = matched_keywords r).
  { intros r. unfold enhance_result.
    destruct (document_id r) as [doc_id|] eqn:Hid;
      [|by repeat split; try left].
    case_decide; [by repeat split; try left|].
    destruct (lookup_document documents doc_id) as [doc|] eqn:Hdoc;
      [|by repeat split; try left].
    split; [by repeat split|]. split; [|done].
    right. exists doc. split; [done|].
    unfold lookup_document in Hdoc.
    assert (Hin : doc ∈ filter (fun d => id d = doc_id) documents).
    { rewrite last_lookup in Hdoc. by eapply list_elem_of_lookup_2. }
    apply list_elem_of_filter in Hin as [-> Hin]. done. }
  assert (Hhl : ∀ keywords r,
            same_hit r (highlight_result env keywords r)
            ∧ document_metadata (highlight_result env keywords r)
              = document_metadata r
            ∧ (get_text r = "" →
               highlight_result env keywords r = r)).
  { intros keywords r. unfold highlight_result.
    case_decide; [by repeat split|]. by repeat split. }
  unfold _add_text_highlighting, _enhance_results_metadata.
  destruct (_extract_keywords env q) as [|kw kws].
  - apply Forall2_fmap_r, Forall_Forall2_diag, Forall_forall.
    intros r _. destruct (Henh r) as (H1 & H2 & H3 & H4). done.
  - apply Forall2_fmap_r, Forall2_fmap_r, Forall_Forall2_diag, Forall_forall.
    intros r _. destruct (Henh r) as (H1 & H2 & H3 & H4).
    destruct (Hhl (kw :: kws) (enhance_result documents r))
      as (K1 & K2 & K3).
    split; [|split].
    + unfold same_hit in *. intuition congruence.
    + rewrite K2. exact H2.
    + intros Ht. rewrite K3; [done|].
      unfold get_text in *. destruct H1 as [-> _]. done.
Qed.

End Passes.

End Candidates.
